(** * The nibi particle engine: phase controller, macro curve and kernel

    A shallow embedding of [GPUParticleSystem] (the particle simulation
    engine of the repository) and of the per-particle compute kernel it
    builds, followed by the properties the specification states about them.

    Conventions of the embedding.

    - Host-side JavaScript numbers are modelled as exact rationals ([Q]):
      rounding, NaN and the infinities of IEEE doubles are left out.  The
      numbers of the GPU kernel (f32 on the device, with [sqrt], [sin] and
      a hash intrinsic) are modelled as real numbers ([R]); uploading a
      uniform is the injection [Q2R].
    - The engine object is a record; a method is a function from the
      record to the record.  The fields of the main slot (group 0), which
      the class keeps directly on [this] ([this._phase],
      [this._convergence], ...), have the same shape as [this._slotB] and
      are gathered in the same record type [Slot].
    - [this._uniforms] is an object used as a map from uniform names to
      values; it is modelled as total maps keyed by the names.
    - The target storage buffer is filled from [Math.random] and from the
      canvas rasteriser, both outside the engine: its content is
      represented by the sequence of host-side writes that produced it.
    - The position and velocity buffers live on the GPU and are only
      touched by the kernel (and by [snapToTargets], whose buffer copy is
      not represented); the slerp of the world quaternion (a THREE.js
      object) is not represented either. *)

From Stdlib Require Import QArith Qminmax Qreals Reals Lqa Lra Lia.
From Stdlib Require Import ZArith PeanoNat String List Bool.
Import ListNotations.

Local Open Scope string_scope.
Local Open Scope Q_scope.

(** ** JavaScript idioms *)

(** [a ?? d] *)
Definition nullish {A : Type} (a : option A) (d : A) : A :=
  match a with Some v => v | None => d end.

(** [a != null] *)
Definition notNull {A : Type} (a : option A) : bool :=
  match a with Some _ => true | None => false end.

(** [ov?.field] *)
Definition optField {A B : Type} (ov : option A) (field : A -> option B) : option B :=
  match ov with Some o => field o | None => None end.

(** Truthiness of a string: [""] is falsy. *)
Definition truthy (str : string) : bool :=
  match str with EmptyString => false | String _ _ => true end.

(** Truthiness of an optional string ([undefined], [null] and [""] are falsy). *)
Definition truthyOpt (o : option string) : bool :=
  match o with Some str => truthy str | None => false end.

(** [a || d] on optional strings. *)
Definition orElse (o : option string) (d : string) : string :=
  match o with Some str => if truthy str then str else d | None => d end.

(** [a || d] on optional numbers ([undefined] and [0] are falsy). *)
Definition orElseQ (o : option Q) (d : Q) : Q :=
  match o with Some q => if Qeq_bool q 0 then d else q | None => d end.

(** Own-property lookup [table[key]] in an object literal. *)
Fixpoint lookup {A : Type} (key : string) (table : list (string * A)) : option A :=
  match table with
  | [] => None
  | (k, v) :: rest => if String.eqb key k then Some v else lookup key rest
  end.

(** [Object.keys(table)] *)
Definition keys {A : Type} (table : list (string * A)) : list string :=
  map fst table.

Notation "s |> f" := (f s) (at level 45, left associativity, only parsing).

(** ** Vectors *)

Record V3 (N : Type) : Type := mkV3 { vx : N; vy : N; vz : N }.
Arguments mkV3 {N} _ _ _.
Arguments vx {N} _.
Arguments vy {N} _.
Arguments vz {N} _.

Definition v3map {M N : Type} (f : M -> N) (v : V3 M) : V3 N :=
  mkV3 (f (vx v)) (f (vy v)) (f (vz v)).

(** ** Authored tables *)

(** A row of [MACRO_PHASES]. *)
Record MacroRow : Type := mkRow {
  p_end : Q;
  p_noiseStr : Q; p_noiseScl : Q; p_spring : Q; p_damp : Q;
  p_vortex : Q; p_wave : Q; p_convUp : Q; p_convDn : Q; p_pointScale : Q
}.

Definition MACRO_PHASES : list MacroRow := [
  mkRow 11  0.00008 0.08 0.015 0.993 0       0      0.10 0.004 0.6;
  mkRow 33  0.00025 0.12 0.040 0.982 0.00005 0      0.15 0.006 1.0;
  mkRow 44  0.00060 0.20 0.030 0.975 0.00040 0.0003 0.12 0.005 1.3;
  mkRow 66  0.00030 0.14 0.050 0.980 0.00008 0      0.16 0.006 1.1;
  mkRow 77  0.00080 0.25 0.025 0.970 0.00060 0.0005 0.10 0.005 1.4;
  mkRow 99  0.00010 0.06 0.070 0.990 0       0      0.22 0.008 0.8;
  mkRow 121 0.00015 0.08 0.065 0.988 0.00002 0      0.20 0.007 0.9;
  mkRow 999 0.00004 0.04 0.010 0.995 0       0      0.06 0.003 0.4
].

(** [MACRO_PHASES[MACRO_PHASES.length - 1]] *)
Definition lastRow : MacroRow :=
  mkRow 999 0.00004 0.04 0.010 0.995 0 0 0.06 0.003 0.4.

(** [TEXT_ANIMATIONS]: name, then (delay, stagger). *)
Definition TEXT_ANIMATIONS : list (string * (Q * Q)) := [
  ("waveReveal",     (0.0, 0.08));
  ("rainDrop",       (0.0, 0.0));
  ("spiralPerChar",  (0.2, 0.10));
  ("ringToChar",     (0.2, 0.08));
  ("typewriter",     (0.0, 0.18));
  ("columnDrop",     (0.0, 0.0));
  ("centerBurst",    (0.0, 0.0));
  ("directSnap",     (0.0, 0.0));
  ("sphereContract", (0.15, 0.0));
  ("riseUp",         (0.0, 0.0));
  ("scatterIn",      (0.0, 0.05));
  ("gridDissolve",   (0.2, 0.0));
  ("tornado",        (0.3, 0.10));
  ("phyllotaxis",    (0.2, 0.0));
  ("shockwaveRing",  (0.15, 0.0));
  ("flatPlane",      (0.0, 0.06))
].

(** [GPU_PATTERN_IDS] *)
Definition GPU_PATTERN_IDS : list (string * Z) := [
  ("organic", 1%Z); ("cubeWave", 2%Z); ("rollingWave", 3%Z);
  ("orbiting", 4%Z); ("breathingSphere", 5%Z); ("pendulumWave", 6%Z);
  ("galaxySpin", 7%Z); ("vortexDrain", 8%Z); ("ripplePool", 9%Z);
  ("flowField", 10%Z); ("auroraCurtain", 11%Z); ("perlinFlow3d", 12%Z);
  ("flowingSilk", 13%Z)
].

(** The keys of [FLOW_PATTERN_GENERATORS], in declaration order. *)
Definition FLOW_PATTERN_GENERATORS : list string := [
  "organic"; "branchTree"; "fractalTree"; "kochCurve"; "randomWalk";
  "cubeWave"; "rollingWave"; "orbiting"; "breathingSphere"; "pendulumWave";
  "galaxySpin"; "vortexDrain"; "ripplePool"; "flowField"
].

(** The keys of [FLOW_PATTERN_ANIMATORS]. *)
Definition FLOW_PATTERN_ANIMATORS : list string := [
  "cubeWave"; "rollingWave"; "orbiting"; "breathingSphere"; "pendulumWave";
  "galaxySpin"; "vortexDrain"; "ripplePool"; "flowField"
].

Definition hasKey (key : string) (table : list string) : bool :=
  existsb (String.eqb key) table.

(** The sweep directions shared by [setTextTarget] and [setMode]. *)
Definition sweepDirs : list (V3 Q) := [
  mkV3 1 0 0; mkV3 (-1) 0 0; mkV3 0 (-1) 0; mkV3 0 1 0;
  mkV3 0.7 0.7 0; mkV3 (-0.7) (-0.7) 0; mkV3 0 0 0; mkV3 0.7 (-0.7) 0
].

Definition zero3 : V3 Q := mkV3 0 0 0.

(** ** Options bags *)

(** The eleven physics keys read by [_extractPhysicsOverrides]; an absent
    key is [None]. *)
Record Overrides : Type := mkOverrides {
  ov_spring : option Q; ov_damping : option Q;
  ov_noiseStrength : option Q; ov_noiseScale : option Q;
  ov_vortex : option Q; ov_wave : option Q; ov_gravity : option Q;
  ov_pointScale : option Q; ov_convUp : option Q; ov_convDn : option Q;
  ov_lerpRate : option Q
}.

Definition noOverrides : Overrides :=
  mkOverrides None None None None None None None None None None None.

(** The [options] argument of [setText], [setShadowSculptureTarget],
    [setFlowTargets] and [setMode].  The physics keys, which the source
    keeps at the top level of the bag, are grouped in [o_physics]; the
    keys that only reach the rasteriser (font, fontSize, targetWidth,
    depthSpread, align, origin) are carried along untouched. *)
Record Options : Type := mkOptions {
  o_animation : option string;
  o_viewDirection : option (V3 Q);
  o_maxConvergence : option Q;
  o_holdDuration : option Q;
  o_releaseSpeed : option Q;
  o_dissolveMode : option string;
  o_backgroundPattern : option string;
  o_textRatio : option Q;
  o_particleGroup : option Z;
  o_groupBPattern : option string;
  o_groupBConvergence : option Q;
  o_groupBOrigin : option (option Q * option Q * option Q);
  o_groupBScale : option Q;
  o_physics : Overrides;
  o_raster : list (string * Q)
}.

(** [{}] *)
Definition noOptions : Options :=
  mkOptions None None None None None None None None None None None None None
            noOverrides [].

(** [_extractPhysicsOverrides(options)]: the overrides object, or [null]
    when none of the eleven keys is present. *)
Definition extractPhysicsOverrides (options : Options) : option Overrides :=
  let o := o_physics options in
  let found :=
    notNull (ov_spring o) || notNull (ov_damping o)
    || notNull (ov_noiseStrength o) || notNull (ov_noiseScale o)
    || notNull (ov_vortex o) || notNull (ov_wave o) || notNull (ov_gravity o)
    || notNull (ov_pointScale o) || notNull (ov_convUp o)
    || notNull (ov_convDn o) || notNull (ov_lerpRate o) in
  if found then Some o else None.

(** ** Engine state *)

Inductive Phase : Type := Flow | Forming | Text | Releasing.

(** A character record of [charData]: the particle slice of the character,
    the [revealed] flag and the number of sampled points
    ([textPositions.length / 3]); the sampled coordinates themselves come
    from the canvas. *)
Record CharRec : Type := mkChar {
  startIdx : Z; cnt : Z; revealed : bool; nPoints : Z
}.

(** The per-group phase state: [this._slotB], and the equally named
    underscore fields of the engine for the main slot. *)
Record Slot : Type := mkSlot {
  phase : Phase;
  convergence : Q;
  targetConvergence : Q;
  lastTextTime : Q;
  holdDurationOverride : option Q;
  releaseSpeed : Q;
  dissolveMode : option string;
  maxConvergence : Q;
  physicsOverrides : option Overrides;
  charData : option (list CharRec);
  formationPending : bool;
  formationStartTime : Q;
  animType : option string;
  sweepDir : V3 Q;
  currentSweepX : Q;
  currentSweepY : Q;
  currentSweepZ : Q
}.

(** [this._macro] *)
Record Macro : Type := mkMacro {
  m_noiseStr : Q; m_noiseScl : Q; m_spring : Q; m_damp : Q; m_vortex : Q;
  m_wave : Q; m_gravity : Q; m_convUp : Q; m_convDn : Q; m_pointScale : Q
}.

(** Float-valued uniforms. *)
Inductive UFloat : Type :=
| uDeltaTime | uTime | uSpringStrength | uDamping | uNoiseScale
| uNoiseStrength | uConvergence | uSweepX | uSweepY | uSweepZ
| uVortexStrength | uWavePhase | uWaveStrength | uGravity | uIsOrtho
| uFlattenZ | uTextParticleRatio | uTextPerChar | uConvergenceB
| uSweepXB | uSweepYB | uSweepZB | uFlowScaleB | uFlowScale
| uLayerScale0 | uLayerScale1 | uLayerScale2 | uLayerScale3 | uPointSize.

(** Uniforms that only ever hold whole numbers: pattern ids, the layer
    count and the group split index. *)
Inductive UInt : Type :=
| uGPUPatternId | uBgPatternId | uGPUPatternIdB | uNumLayers | uGroupSplit
| uLayerPatternId0 | uLayerPatternId1 | uLayerPatternId2 | uLayerPatternId3.

(** Vector uniforms. *)
Inductive UVec : Type :=
| uCameraPos | uFlowOrigin | uFlowOriginB
| uLayerOrigin0 | uLayerOrigin1 | uLayerOrigin2 | uLayerOrigin3.

Scheme Equality for UFloat.
Scheme Equality for UInt.
Scheme Equality for UVec.

(** [this._uniforms], over the number type [N] ([Q] on the host, [R] in
    the kernel). *)
Record Uniforms (N : Type) : Type := mkUniforms {
  uf : UFloat -> N;
  ui : UInt -> Z;
  uv : UVec -> V3 N
}.
Arguments mkUniforms {N} _ _ _.
Arguments uf {N} _ _.
Arguments ui {N} _ _.
Arguments uv {N} _ _.

Definition setF {N : Type} (k : UFloat) (v : N) (u : Uniforms N) : Uniforms N :=
  mkUniforms (fun k' => if UFloat_beq k k' then v else uf u k') (ui u) (uv u).

Definition setI {N : Type} (k : UInt) (v : Z) (u : Uniforms N) : Uniforms N :=
  mkUniforms (uf u) (fun k' => if UInt_beq k k' then v else ui u k') (uv u).

Definition setV {N : Type} (k : UVec) (v : V3 N) (u : Uniforms N) : Uniforms N :=
  mkUniforms (uf u) (ui u) (fun k' => if UVec_beq k k' then v else uv u k').

(** One host-side write into the target buffer. *)
Inductive TargetWrite : Type :=
| WFlowGenerator (pattern : string)
    (** [FLOW_PATTERN_GENERATORS[pattern](ta, N)] *)
| WFlowAnimator (pattern : string) (time : Q)
    (** [FLOW_PATTERN_ANIMATORS[pattern](ta, N, time)] *)
| WSculpture (textA textB : string)
    (** the loop of [setShadowSculptureTarget] *)
| WChar (start : Z) (slice : Z)
    (** one character slice set to its text shape *)
| WFormation (anim : string).
    (** the pre-shape of [_setupFormation] *)

(** [this._targetWorldQuat]: identity, or the rotation taking the z axis
    to a view direction. *)
Inductive WorldQuat : Type :=
| QuatIdentity
| QuatFromView (viewDir : V3 Q).

(** The engine object. *)
Record Engine : Type := mkEngine {
  count : Z;
  textHoldDuration : Q;
  convUpScale : Q;
  convDnScale : Q;
  pointSize : Q;
  currentText : string;
  textIndex : nat;
  flowPatternIdx : nat;
  main : Slot;
  slotB : Slot;
  currentFlowPattern : string;
  lastAnimUpdate : option Q;
  macro : Macro;
  pendingFlowPattern : option string;
  pendingFlowOptions : Options;
  targetWorldQuat : option WorldQuat;
  splitPoint : Z;
  groupBPatternActive : bool;
  uniforms : Uniforms Q;
  targetBuffer : list TargetWrite
}.

(** *** Field assignment *)

Definition set_phase (v : Phase) (b : Slot) : Slot :=
  mkSlot v (convergence b) (targetConvergence b) (lastTextTime b) (holdDurationOverride b) (releaseSpeed b) (dissolveMode b) (maxConvergence b) (physicsOverrides b) (charData b) (formationPending b) (formationStartTime b) (animType b) (sweepDir b) (currentSweepX b) (currentSweepY b) (currentSweepZ b).
Definition set_convergence (v : Q) (b : Slot) : Slot :=
  mkSlot (phase b) v (targetConvergence b) (lastTextTime b) (holdDurationOverride b) (releaseSpeed b) (dissolveMode b) (maxConvergence b) (physicsOverrides b) (charData b) (formationPending b) (formationStartTime b) (animType b) (sweepDir b) (currentSweepX b) (currentSweepY b) (currentSweepZ b).
Definition set_targetConvergence (v : Q) (b : Slot) : Slot :=
  mkSlot (phase b) (convergence b) v (lastTextTime b) (holdDurationOverride b) (releaseSpeed b) (dissolveMode b) (maxConvergence b) (physicsOverrides b) (charData b) (formationPending b) (formationStartTime b) (animType b) (sweepDir b) (currentSweepX b) (currentSweepY b) (currentSweepZ b).
Definition set_lastTextTime (v : Q) (b : Slot) : Slot :=
  mkSlot (phase b) (convergence b) (targetConvergence b) v (holdDurationOverride b) (releaseSpeed b) (dissolveMode b) (maxConvergence b) (physicsOverrides b) (charData b) (formationPending b) (formationStartTime b) (animType b) (sweepDir b) (currentSweepX b) (currentSweepY b) (currentSweepZ b).
Definition set_holdDurationOverride (v : option Q) (b : Slot) : Slot :=
  mkSlot (phase b) (convergence b) (targetConvergence b) (lastTextTime b) v (releaseSpeed b) (dissolveMode b) (maxConvergence b) (physicsOverrides b) (charData b) (formationPending b) (formationStartTime b) (animType b) (sweepDir b) (currentSweepX b) (currentSweepY b) (currentSweepZ b).
Definition set_releaseSpeed (v : Q) (b : Slot) : Slot :=
  mkSlot (phase b) (convergence b) (targetConvergence b) (lastTextTime b) (holdDurationOverride b) v (dissolveMode b) (maxConvergence b) (physicsOverrides b) (charData b) (formationPending b) (formationStartTime b) (animType b) (sweepDir b) (currentSweepX b) (currentSweepY b) (currentSweepZ b).
Definition set_dissolveMode (v : option string) (b : Slot) : Slot :=
  mkSlot (phase b) (convergence b) (targetConvergence b) (lastTextTime b) (holdDurationOverride b) (releaseSpeed b) v (maxConvergence b) (physicsOverrides b) (charData b) (formationPending b) (formationStartTime b) (animType b) (sweepDir b) (currentSweepX b) (currentSweepY b) (currentSweepZ b).
Definition set_maxConvergence (v : Q) (b : Slot) : Slot :=
  mkSlot (phase b) (convergence b) (targetConvergence b) (lastTextTime b) (holdDurationOverride b) (releaseSpeed b) (dissolveMode b) v (physicsOverrides b) (charData b) (formationPending b) (formationStartTime b) (animType b) (sweepDir b) (currentSweepX b) (currentSweepY b) (currentSweepZ b).
Definition set_physicsOverrides (v : option Overrides) (b : Slot) : Slot :=
  mkSlot (phase b) (convergence b) (targetConvergence b) (lastTextTime b) (holdDurationOverride b) (releaseSpeed b) (dissolveMode b) (maxConvergence b) v (charData b) (formationPending b) (formationStartTime b) (animType b) (sweepDir b) (currentSweepX b) (currentSweepY b) (currentSweepZ b).
Definition set_charData (v : option (list CharRec)) (b : Slot) : Slot :=
  mkSlot (phase b) (convergence b) (targetConvergence b) (lastTextTime b) (holdDurationOverride b) (releaseSpeed b) (dissolveMode b) (maxConvergence b) (physicsOverrides b) v (formationPending b) (formationStartTime b) (animType b) (sweepDir b) (currentSweepX b) (currentSweepY b) (currentSweepZ b).
Definition set_formationPending (v : bool) (b : Slot) : Slot :=
  mkSlot (phase b) (convergence b) (targetConvergence b) (lastTextTime b) (holdDurationOverride b) (releaseSpeed b) (dissolveMode b) (maxConvergence b) (physicsOverrides b) (charData b) v (formationStartTime b) (animType b) (sweepDir b) (currentSweepX b) (currentSweepY b) (currentSweepZ b).
Definition set_formationStartTime (v : Q) (b : Slot) : Slot :=
  mkSlot (phase b) (convergence b) (targetConvergence b) (lastTextTime b) (holdDurationOverride b) (releaseSpeed b) (dissolveMode b) (maxConvergence b) (physicsOverrides b) (charData b) (formationPending b) v (animType b) (sweepDir b) (currentSweepX b) (currentSweepY b) (currentSweepZ b).
Definition set_animType (v : option string) (b : Slot) : Slot :=
  mkSlot (phase b) (convergence b) (targetConvergence b) (lastTextTime b) (holdDurationOverride b) (releaseSpeed b) (dissolveMode b) (maxConvergence b) (physicsOverrides b) (charData b) (formationPending b) (formationStartTime b) v (sweepDir b) (currentSweepX b) (currentSweepY b) (currentSweepZ b).
Definition set_sweepDir (v : V3 Q) (b : Slot) : Slot :=
  mkSlot (phase b) (convergence b) (targetConvergence b) (lastTextTime b) (holdDurationOverride b) (releaseSpeed b) (dissolveMode b) (maxConvergence b) (physicsOverrides b) (charData b) (formationPending b) (formationStartTime b) (animType b) v (currentSweepX b) (currentSweepY b) (currentSweepZ b).
Definition set_currentSweepX (v : Q) (b : Slot) : Slot :=
  mkSlot (phase b) (convergence b) (targetConvergence b) (lastTextTime b) (holdDurationOverride b) (releaseSpeed b) (dissolveMode b) (maxConvergence b) (physicsOverrides b) (charData b) (formationPending b) (formationStartTime b) (animType b) (sweepDir b) v (currentSweepY b) (currentSweepZ b).
Definition set_currentSweepY (v : Q) (b : Slot) : Slot :=
  mkSlot (phase b) (convergence b) (targetConvergence b) (lastTextTime b) (holdDurationOverride b) (releaseSpeed b) (dissolveMode b) (maxConvergence b) (physicsOverrides b) (charData b) (formationPending b) (formationStartTime b) (animType b) (sweepDir b) (currentSweepX b) v (currentSweepZ b).
Definition set_currentSweepZ (v : Q) (b : Slot) : Slot :=
  mkSlot (phase b) (convergence b) (targetConvergence b) (lastTextTime b) (holdDurationOverride b) (releaseSpeed b) (dissolveMode b) (maxConvergence b) (physicsOverrides b) (charData b) (formationPending b) (formationStartTime b) (animType b) (sweepDir b) (currentSweepX b) (currentSweepY b) v.

Definition set_count (v : Z) (s : Engine) : Engine :=
  mkEngine v (textHoldDuration s) (convUpScale s) (convDnScale s) (pointSize s) (currentText s) (textIndex s) (flowPatternIdx s) (main s) (slotB s) (currentFlowPattern s) (lastAnimUpdate s) (macro s) (pendingFlowPattern s) (pendingFlowOptions s) (targetWorldQuat s) (splitPoint s) (groupBPatternActive s) (uniforms s) (targetBuffer s).
Definition set_textHoldDuration (v : Q) (s : Engine) : Engine :=
  mkEngine (count s) v (convUpScale s) (convDnScale s) (pointSize s) (currentText s) (textIndex s) (flowPatternIdx s) (main s) (slotB s) (currentFlowPattern s) (lastAnimUpdate s) (macro s) (pendingFlowPattern s) (pendingFlowOptions s) (targetWorldQuat s) (splitPoint s) (groupBPatternActive s) (uniforms s) (targetBuffer s).
Definition set_convUpScale (v : Q) (s : Engine) : Engine :=
  mkEngine (count s) (textHoldDuration s) v (convDnScale s) (pointSize s) (currentText s) (textIndex s) (flowPatternIdx s) (main s) (slotB s) (currentFlowPattern s) (lastAnimUpdate s) (macro s) (pendingFlowPattern s) (pendingFlowOptions s) (targetWorldQuat s) (splitPoint s) (groupBPatternActive s) (uniforms s) (targetBuffer s).
Definition set_convDnScale (v : Q) (s : Engine) : Engine :=
  mkEngine (count s) (textHoldDuration s) (convUpScale s) v (pointSize s) (currentText s) (textIndex s) (flowPatternIdx s) (main s) (slotB s) (currentFlowPattern s) (lastAnimUpdate s) (macro s) (pendingFlowPattern s) (pendingFlowOptions s) (targetWorldQuat s) (splitPoint s) (groupBPatternActive s) (uniforms s) (targetBuffer s).
Definition set_pointSize (v : Q) (s : Engine) : Engine :=
  mkEngine (count s) (textHoldDuration s) (convUpScale s) (convDnScale s) v (currentText s) (textIndex s) (flowPatternIdx s) (main s) (slotB s) (currentFlowPattern s) (lastAnimUpdate s) (macro s) (pendingFlowPattern s) (pendingFlowOptions s) (targetWorldQuat s) (splitPoint s) (groupBPatternActive s) (uniforms s) (targetBuffer s).
Definition set_currentText (v : string) (s : Engine) : Engine :=
  mkEngine (count s) (textHoldDuration s) (convUpScale s) (convDnScale s) (pointSize s) v (textIndex s) (flowPatternIdx s) (main s) (slotB s) (currentFlowPattern s) (lastAnimUpdate s) (macro s) (pendingFlowPattern s) (pendingFlowOptions s) (targetWorldQuat s) (splitPoint s) (groupBPatternActive s) (uniforms s) (targetBuffer s).
Definition set_textIndex (v : nat) (s : Engine) : Engine :=
  mkEngine (count s) (textHoldDuration s) (convUpScale s) (convDnScale s) (pointSize s) (currentText s) v (flowPatternIdx s) (main s) (slotB s) (currentFlowPattern s) (lastAnimUpdate s) (macro s) (pendingFlowPattern s) (pendingFlowOptions s) (targetWorldQuat s) (splitPoint s) (groupBPatternActive s) (uniforms s) (targetBuffer s).
Definition set_flowPatternIdx (v : nat) (s : Engine) : Engine :=
  mkEngine (count s) (textHoldDuration s) (convUpScale s) (convDnScale s) (pointSize s) (currentText s) (textIndex s) v (main s) (slotB s) (currentFlowPattern s) (lastAnimUpdate s) (macro s) (pendingFlowPattern s) (pendingFlowOptions s) (targetWorldQuat s) (splitPoint s) (groupBPatternActive s) (uniforms s) (targetBuffer s).
Definition set_main (v : Slot) (s : Engine) : Engine :=
  mkEngine (count s) (textHoldDuration s) (convUpScale s) (convDnScale s) (pointSize s) (currentText s) (textIndex s) (flowPatternIdx s) v (slotB s) (currentFlowPattern s) (lastAnimUpdate s) (macro s) (pendingFlowPattern s) (pendingFlowOptions s) (targetWorldQuat s) (splitPoint s) (groupBPatternActive s) (uniforms s) (targetBuffer s).
Definition set_slotB (v : Slot) (s : Engine) : Engine :=
  mkEngine (count s) (textHoldDuration s) (convUpScale s) (convDnScale s) (pointSize s) (currentText s) (textIndex s) (flowPatternIdx s) (main s) v (currentFlowPattern s) (lastAnimUpdate s) (macro s) (pendingFlowPattern s) (pendingFlowOptions s) (targetWorldQuat s) (splitPoint s) (groupBPatternActive s) (uniforms s) (targetBuffer s).
Definition set_currentFlowPattern (v : string) (s : Engine) : Engine :=
  mkEngine (count s) (textHoldDuration s) (convUpScale s) (convDnScale s) (pointSize s) (currentText s) (textIndex s) (flowPatternIdx s) (main s) (slotB s) v (lastAnimUpdate s) (macro s) (pendingFlowPattern s) (pendingFlowOptions s) (targetWorldQuat s) (splitPoint s) (groupBPatternActive s) (uniforms s) (targetBuffer s).
Definition set_lastAnimUpdate (v : option Q) (s : Engine) : Engine :=
  mkEngine (count s) (textHoldDuration s) (convUpScale s) (convDnScale s) (pointSize s) (currentText s) (textIndex s) (flowPatternIdx s) (main s) (slotB s) (currentFlowPattern s) v (macro s) (pendingFlowPattern s) (pendingFlowOptions s) (targetWorldQuat s) (splitPoint s) (groupBPatternActive s) (uniforms s) (targetBuffer s).
Definition set_macro (v : Macro) (s : Engine) : Engine :=
  mkEngine (count s) (textHoldDuration s) (convUpScale s) (convDnScale s) (pointSize s) (currentText s) (textIndex s) (flowPatternIdx s) (main s) (slotB s) (currentFlowPattern s) (lastAnimUpdate s) v (pendingFlowPattern s) (pendingFlowOptions s) (targetWorldQuat s) (splitPoint s) (groupBPatternActive s) (uniforms s) (targetBuffer s).
Definition set_pendingFlowPattern (v : option string) (s : Engine) : Engine :=
  mkEngine (count s) (textHoldDuration s) (convUpScale s) (convDnScale s) (pointSize s) (currentText s) (textIndex s) (flowPatternIdx s) (main s) (slotB s) (currentFlowPattern s) (lastAnimUpdate s) (macro s) v (pendingFlowOptions s) (targetWorldQuat s) (splitPoint s) (groupBPatternActive s) (uniforms s) (targetBuffer s).
Definition set_pendingFlowOptions (v : Options) (s : Engine) : Engine :=
  mkEngine (count s) (textHoldDuration s) (convUpScale s) (convDnScale s) (pointSize s) (currentText s) (textIndex s) (flowPatternIdx s) (main s) (slotB s) (currentFlowPattern s) (lastAnimUpdate s) (macro s) (pendingFlowPattern s) v (targetWorldQuat s) (splitPoint s) (groupBPatternActive s) (uniforms s) (targetBuffer s).
Definition set_targetWorldQuat (v : option WorldQuat) (s : Engine) : Engine :=
  mkEngine (count s) (textHoldDuration s) (convUpScale s) (convDnScale s) (pointSize s) (currentText s) (textIndex s) (flowPatternIdx s) (main s) (slotB s) (currentFlowPattern s) (lastAnimUpdate s) (macro s) (pendingFlowPattern s) (pendingFlowOptions s) v (splitPoint s) (groupBPatternActive s) (uniforms s) (targetBuffer s).
Definition set_splitPoint (v : Z) (s : Engine) : Engine :=
  mkEngine (count s) (textHoldDuration s) (convUpScale s) (convDnScale s) (pointSize s) (currentText s) (textIndex s) (flowPatternIdx s) (main s) (slotB s) (currentFlowPattern s) (lastAnimUpdate s) (macro s) (pendingFlowPattern s) (pendingFlowOptions s) (targetWorldQuat s) v (groupBPatternActive s) (uniforms s) (targetBuffer s).
Definition set_groupBPatternActive (v : bool) (s : Engine) : Engine :=
  mkEngine (count s) (textHoldDuration s) (convUpScale s) (convDnScale s) (pointSize s) (currentText s) (textIndex s) (flowPatternIdx s) (main s) (slotB s) (currentFlowPattern s) (lastAnimUpdate s) (macro s) (pendingFlowPattern s) (pendingFlowOptions s) (targetWorldQuat s) (splitPoint s) v (uniforms s) (targetBuffer s).
Definition set_uniforms (v : Uniforms Q) (s : Engine) : Engine :=
  mkEngine (count s) (textHoldDuration s) (convUpScale s) (convDnScale s) (pointSize s) (currentText s) (textIndex s) (flowPatternIdx s) (main s) (slotB s) (currentFlowPattern s) (lastAnimUpdate s) (macro s) (pendingFlowPattern s) (pendingFlowOptions s) (targetWorldQuat s) (splitPoint s) (groupBPatternActive s) v (targetBuffer s).
Definition set_targetBuffer (v : list TargetWrite) (s : Engine) : Engine :=
  mkEngine (count s) (textHoldDuration s) (convUpScale s) (convDnScale s) (pointSize s) (currentText s) (textIndex s) (flowPatternIdx s) (main s) (slotB s) (currentFlowPattern s) (lastAnimUpdate s) (macro s) (pendingFlowPattern s) (pendingFlowOptions s) (targetWorldQuat s) (splitPoint s) (groupBPatternActive s) (uniforms s) v.

Definition onMain (f : Slot -> Slot) (s : Engine) : Engine :=
  set_main (f (main s)) s.

Definition onSlotB (f : Slot -> Slot) (s : Engine) : Engine :=
  set_slotB (f (slotB s)) s.

(** [this._uniforms.k.value = v] *)
Definition setFloat (k : UFloat) (v : Q) (s : Engine) : Engine :=
  set_uniforms (setF k v (uniforms s)) s.

Definition setInt (k : UInt) (v : Z) (s : Engine) : Engine :=
  set_uniforms (setI k v (uniforms s)) s.

Definition setVec (k : UVec) (v : V3 Q) (s : Engine) : Engine :=
  set_uniforms (setV k v (uniforms s)) s.

(** Newest write first. *)
Definition writeTargets (ws : list TargetWrite) (s : Engine) : Engine :=
  set_targetBuffer (ws ++ targetBuffer s) s.

Definition Qnat (n : nat) : Q := inject_Z (Z.of_nat n).

(** ** Construction *)

(** The constructor's [params]. *)
Record Params : Type := mkParams {
  prm_count : option Z;
  prm_spring : option Q; prm_damping : option Q;
  prm_noiseScale : option Q; prm_noiseStrength : option Q;
  prm_pointSize : option Q;
  prm_textHoldDuration : option Q;
  prm_convUpScale : option Q; prm_convDnScale : option Q
}.

Definition noParams : Params :=
  mkParams None None None None None None None None None.

(** The literal the constructor stores in [this._slotB] and that
    [setFlowTargets] assigns back onto it. *)
Definition initSlotB : Slot :=
  mkSlot Flow 0 0.1 0 None 1.0 None 1.0 None None false (-1) None
         zero3 0 0 0.

(** The main slot as the constructor leaves it. *)
Definition initMain : Slot :=
  mkSlot Flow 0.0 0.0 0 None 1.0 None 1.0 None None false (-1)
         (Some "directSnap") zero3 0 0 0.

(** [this._macro] as the constructor leaves it. *)
Definition initMacro : Macro :=
  mkMacro 0.00015 0.10 0.012 0.993 0.0 0.0 0.0 0.025 0.004 0.6.

(** The uniforms as [init] creates them. *)
Definition initUniforms (COUNT : Z) (params : Params) : Uniforms Q :=
  mkUniforms
    (fun k => match k with
       | uDeltaTime => 0.016
       | uSpringStrength => nullish (prm_spring params) 0.005
       | uDamping => nullish (prm_damping params) 0.988
       | uNoiseScale => nullish (prm_noiseScale params) 0.15
       | uNoiseStrength => nullish (prm_noiseStrength params) 0.0003
       | uTextParticleRatio | uTextPerChar | uFlowScaleB | uFlowScale
       | uLayerScale0 | uLayerScale1 | uLayerScale2 | uLayerScale3 => 1.0
       | uPointSize => nullish (prm_pointSize params) 1.0
       | _ => 0
       end)
    (fun k => match k with
       | uNumLayers => 1%Z
       | uGroupSplit => COUNT
       | _ => 0%Z
       end)
    (fun k => match k with
       | uCameraPos => mkV3 0 0 5
       | _ => zero3
       end).

(** [new GPUParticleSystem(params)] followed by the part of [init()] that
    precedes its closing [setMode('flow')]. *)
Definition construct (params : Params) : Engine :=
  let COUNT := match prm_count params with
               | Some n => if (n =? 0)%Z then 1000000%Z else n
               | None => 1000000%Z
               end in
  mkEngine COUNT
    (nullish (prm_textHoldDuration params) 2.5)
    (nullish (prm_convUpScale params) 1.0)
    (nullish (prm_convDnScale params) 1.0)
    (nullish (prm_pointSize params) 1.0)
    "" 0%nat 0%nat initMain initSlotB "organic" None initMacro
    None noOptions None COUNT false (initUniforms COUNT params) [].

(** ** Target writers *)

(** The slice a character loop really writes: [j < cd.count] and
    [cd.startIdx + j < this.count]. *)
Definition writtenSlice (COUNT : Z) (cd : CharRec) : Z :=
  Z.max 0 (Z.min (cnt cd) (COUNT - startIdx cd)).

(** [_applyAllCharTargets(charData)]: characters without sampled points
    are skipped. *)
Definition applyAllCharTargets (chars : list CharRec) (s : Engine) : Engine :=
  let ws := flat_map (fun cd =>
              if (nPoints cd =? 0)%Z then []
              else [WChar (startIdx cd) (writtenSlice (count s) cd)]) chars in
  writeTargets (rev ws) s.

(** [_setupFormation(animName)] *)
Definition setupFormation (animName : string) (s : Engine) : Engine :=
  writeTargets [WFormation animName] s.

(** [_resetToSingleLayer()] *)
Definition resetToSingleLayer (s : Engine) : Engine :=
  s |> setInt uNumLayers 1%Z
    |> setVec uFlowOrigin zero3
    |> setFloat uFlowScale 1.0.

(** [GPU_PATTERN_IDS[name]] when truthy. *)
Definition gpuPatternId (name : string) : option Z :=
  match lookup name GPU_PATTERN_IDS with
  | Some gpuId => if (gpuId =? 0)%Z then None else Some gpuId
  | None => None
  end.

(** ** Flow targets *)

(** [setFlowTargets(pattern, options)] *)
Definition setFlowTargets (pattern : string) (options : Options) (s : Engine) : Engine :=
  let s := s
    |> setFloat uFlattenZ 0.0
    |> setInt uBgPatternId 0%Z
    |> setFloat uTextParticleRatio 1.0
    |> setFloat uTextPerChar 1.0
    |> set_targetWorldQuat (Some QuatIdentity)
    |> set_currentFlowPattern pattern
    (* Reset group split *)
    |> set_splitPoint (count s)
    |> setInt uGroupSplit (count s)
    |> setFloat uConvergenceB 0
    |> setFloat uSweepXB 0
    |> setFloat uSweepYB 0
    |> setFloat uSweepZB 0
    |> setInt uGPUPatternIdB 0%Z
    |> setVec uFlowOriginB zero3
    |> setFloat uFlowScaleB 1.0
    |> set_groupBPatternActive false
    |> set_slotB initSlotB
    (* Per-lyric physics overrides (flow mode) *)
    |> onMain (set_physicsOverrides (extractPhysicsOverrides options)) in
  match gpuPatternId pattern with
  | Some gpuId => s |> setInt uGPUPatternId gpuId
  | None =>
      let gen := if hasKey pattern FLOW_PATTERN_GENERATORS
                 then pattern else "organic" in
      s |> setInt uGPUPatternId 0%Z
        |> writeTargets [WFlowGenerator gen]
  end.

(** [setFlowOrigin(x, y, z)] *)
Definition setFlowOrigin (x y z : Q) (s : Engine) : Engine :=
  setVec uFlowOrigin (mkV3 x y z) s.

(** [setFlowScale(scale)] *)
Definition setFlowScale (scale : Q) (s : Engine) : Engine :=
  setFloat uFlowScale scale s.

(** An element of the [layers] argument of [setFlowTargetsMultiLayer]. *)
Record Layer : Type := mkLayer {
  l_pattern : string;
  l_origin : option (V3 Q);
  l_scale : option Q
}.

Definition layerPatterns : list UInt :=
  [uLayerPatternId0; uLayerPatternId1; uLayerPatternId2; uLayerPatternId3].
Definition layerOrigins : list UVec :=
  [uLayerOrigin0; uLayerOrigin1; uLayerOrigin2; uLayerOrigin3].
Definition layerScales : list UFloat :=
  [uLayerScale0; uLayerScale1; uLayerScale2; uLayerScale3].

(** [GPU_PATTERN_IDS[name] || GPU_PATTERN_IDS.organic || 1] *)
Definition layerGpuId (name : string) : Z :=
  match gpuPatternId name with
  | Some gpuId => gpuId
  | None => match gpuPatternId "organic" with
            | Some gpuId => gpuId
            | None => 1%Z
            end
  end.

(** The body of the loop [for (let l = 0; l < 4; l++)] for one [l]. *)
Definition setLayer (layers : list Layer) (numLayers l : nat) (s : Engine) : Engine :=
  let pat := nth l layerPatterns uLayerPatternId3 in
  let org := nth l layerOrigins uLayerOrigin3 in
  let scl := nth l layerScales uLayerScale3 in
  match (if (l <? numLayers)%nat then nth_error layers l else None) with
  | Some layer =>
      s |> setInt pat (layerGpuId (l_pattern layer))
        |> setVec org (nullish (l_origin layer) zero3)
        |> setFloat scl (nullish (l_scale layer) 1.0)
  | None =>
      s |> setInt pat 0%Z
        |> setFloat scl 1.0
        |> setVec org zero3
  end.

(** [setFlowTargetsMultiLayer(layers)] *)
Definition setFlowTargetsMultiLayer (layers : list Layer) (s : Engine) : Engine :=
  match layers with
  | [] => s
  | first :: _ =>
      let numLayers := Nat.min (length layers) 4 in
      s |> setInt uNumLayers (Z.of_nat numLayers)
        |> setInt uGPUPatternId (layerGpuId (l_pattern first))
        |> set_currentFlowPattern (l_pattern first)
        |> setLayer layers numLayers 0
        |> setLayer layers numLayers 1
        |> setLayer layers numLayers 2
        |> setLayer layers numLayers 3
  end.

(** ** Text targets *)

(** [_getDefaultAnimation()] *)
Definition getDefaultAnimation (s : Engine) : string :=
  let anims := keys TEXT_ANIMATIONS in
  nth (textIndex s mod length anims) anims "directSnap".

(** [viewDir && (viewDir[0] !== 0 || viewDir[1] !== 0 || viewDir[2] !== 1)] *)
Definition isAnamorphic (viewDir : option (V3 Q)) : bool :=
  match viewDir with
  | Some d => negb (Qeq_bool (vx d) 0) || negb (Qeq_bool (vy d) 0)
              || negb (Qeq_bool (vz d) 1)
  | None => false
  end.

(** The loop that assigns particle indices to the sampled characters:
    [c] is the index of the first element of [sampled]. *)
Fixpoint assignSlices (groupStart groupCount perChar : Z) (nChars : Z)
    (c : Z) (sampled : list Z) : list CharRec :=
  match sampled with
  | [] => []
  | pts :: rest =>
      mkChar (groupStart + c * perChar)
             (if (c <? nChars - 1)%Z then perChar else groupCount - c * perChar)
             false pts
        :: assignSlices groupStart groupCount perChar nChars (c + 1) rest
  end.

(** [setShadowSculptureTarget(textA, textB, options)] *)
Definition setShadowSculptureTarget (textA textB : string) (options : Options)
    (s : Engine) : Engine :=
  if negb (truthy textA) || negb (truthy textB) then s else
  s |> setFloat uFlattenZ 0.0
    |> setInt uGPUPatternId 0%Z
    |> resetToSingleLayer
    |> set_currentText (textA ++ "|" ++ textB)
    |> onMain (set_lastTextTime 0)
    |> set_textIndex (S (textIndex s))
    (* Per-lyric convergence control *)
    |> onMain (set_maxConvergence (nullish (o_maxConvergence options) 1.0))
    |> onMain (set_holdDurationOverride (o_holdDuration options))
    |> onMain (set_releaseSpeed (nullish (o_releaseSpeed options) 1.0))
    |> onMain (set_dissolveMode (o_dissolveMode options))
    |> onMain (set_physicsOverrides (extractPhysicsOverrides options))
    |> writeTargets [WSculpture textA textB]
    (* No per-char animation *)
    |> onMain (set_charData None)
    |> onMain (set_formationPending false)
    |> onMain (set_animType (Some "sculpture"))
    |> onMain (set_phase Text)
    |> onMain (set_targetConvergence 1.0)
    |> onMain (set_sweepDir zero3).

Section Rasteriser.

(** [sampleTextPositionsPerChar(text, {...})] draws on a canvas; of its
    result the engine state keeps, per character, the number of sampled
    points.  The arguments are the text, the options bag and
    [maxPointsPerChar]. *)
Variable sampleTextPositionsPerChar : string -> Options -> Z -> list Z.

(** [setTextTarget(text, options)] *)
Definition setTextTarget (text : string) (options : Options) (s : Engine) : Engine :=
  if negb (truthy text) then s else
  (* Group split *)
  let particleGroup := nullish (o_particleGroup options) 0%Z in
  let s :=
    if (particleGroup =? 1)%Z then
      s |> set_splitPoint (count s / 2)
        |> setInt uGroupSplit (count s / 2)
        |> set_groupBPatternActive false
    else if (particleGroup =? 0)%Z && truthyOpt (o_groupBPattern options) then
      s |> set_splitPoint (count s / 2)
        |> setInt uGroupSplit (count s / 2)
        |> set_groupBPatternActive true
    else if (particleGroup =? 0)%Z && groupBPatternActive s then
      s |> set_splitPoint (count s)
        |> setInt uGroupSplit (count s)
        |> setInt uGPUPatternIdB 0%Z
        |> set_groupBPatternActive false
    else s in
  let groupStart := if (particleGroup =? 1)%Z then splitPoint s else 0%Z in
  let groupEnd := if (particleGroup =? 1)%Z then count s else splitPoint s in
  let groupCount := (groupEnd - groupStart)%Z in
  let s := s
    |> setInt uGPUPatternId 0%Z
    |> resetToSingleLayer
    |> set_currentText text
    |> set_textIndex (S (textIndex s))
    (* Per-lyric physics overrides (latest lyric wins globally) *)
    |> onMain (set_physicsOverrides (extractPhysicsOverrides options)) in
  let animName := orElse (o_animation options) (getDefaultAnimation s) in
  let s := s |> onMain (set_animType (Some animName)) in
  let anamorphic := isAnamorphic (o_viewDirection options) in
  let nChars := Z.of_nat (String.length text) in
  (* Dual mode backgroundPattern: only valid for group 0 *)
  let s :=
    if (particleGroup =? 0)%Z then
      if truthyOpt (o_backgroundPattern options) then
        match gpuPatternId (orElse (o_backgroundPattern options) "") with
        | Some bgId =>
            s |> setInt uBgPatternId bgId
              |> setFloat uTextParticleRatio (nullish (o_textRatio options) 0.6)
              |> setFloat uTextPerChar (inject_Z (count s / nChars))
        | None => s
        end
      else
        s |> setInt uBgPatternId 0%Z
          |> setFloat uTextParticleRatio 1.0
          |> setFloat uTextPerChar 1.0
    else s in
  (* Per-character sampling, then particle indices within the group *)
  let sampled := sampleTextPositionsPerChar text options
                   (Z.min 30000 (groupCount / nChars)) in
  let perChar := (groupCount / nChars)%Z in
  let chars := assignSlices groupStart groupCount perChar nChars 0 sampled in
  (* Anamorphic world rotation *)
  let s := s
    |> set_targetWorldQuat
         (Some (if anamorphic
                then QuatFromView (nullish (o_viewDirection options) zero3)
                else QuatIdentity))
    |> setFloat uFlattenZ (if anamorphic then 0.0 else 1.0) in
  let sweep := nth (textIndex s mod length sweepDirs) sweepDirs zero3 in
  if (particleGroup =? 1)%Z then
    (* Slot B (group 1) *)
    s |> onSlotB (set_charData (Some chars))
      |> onSlotB (set_formationStartTime (-1))
      |> onSlotB (set_formationPending false)
      |> onSlotB (set_animType (Some animName))
      |> onSlotB (set_sweepDir sweep)
      |> onSlotB (set_holdDurationOverride (o_holdDuration options))
      |> onSlotB (set_releaseSpeed (nullish (o_releaseSpeed options) 1.0))
      |> onSlotB (set_dissolveMode (o_dissolveMode options))
      |> onSlotB (set_maxConvergence (nullish (o_maxConvergence options) 1.0))
      |> onSlotB (set_physicsOverrides (extractPhysicsOverrides options))
      |> onSlotB (set_lastTextTime 0)
      |> onSlotB (set_targetConvergence 1.0)
      (* Always directSnap for group B *)
      |> applyAllCharTargets chars
      |> onSlotB (set_phase Text)
  else
    (* Main slot (group 0) *)
    let s := s
      |> onMain (set_lastTextTime 0)
      |> onMain (set_maxConvergence (nullish (o_maxConvergence options) 1.0))
      |> onMain (set_holdDurationOverride (o_holdDuration options))
      |> onMain (set_releaseSpeed (nullish (o_releaseSpeed options) 1.0))
      |> onMain (set_dissolveMode (o_dissolveMode options))
      |> onMain (set_charData (Some chars))
      |> onMain (set_formationStartTime (-1))
      |> onMain (set_formationPending true)
      |> onMain (set_animType (Some animName))
      |> onMain (set_sweepDir sweep)
      |> onMain (set_targetConvergence 1.0) in
    let s :=
      if String.eqb animName "directSnap" then
        s |> applyAllCharTargets chars
          |> onMain (set_formationPending false)
          |> onMain (set_phase Text)
      else
        s |> setupFormation animName
          |> onMain (set_phase Forming) in
    (* Group B GPU animation alongside group 0 text *)
    if truthyOpt (o_groupBPattern options) then
      match gpuPatternId (orElse (o_groupBPattern options) "") with
      | Some bgId =>
          let bConv := nullish (o_groupBConvergence options) 0.4 in
          s |> setInt uGPUPatternIdB bgId
            |> setVec uFlowOriginB
                 match o_groupBOrigin options with
                 | Some (x, y, z) => mkV3 (nullish x 0) (nullish y 0) (nullish z 0)
                 | None => zero3
                 end
            |> setFloat uFlowScaleB (nullish (o_groupBScale options) 1.0)
            |> onSlotB (set_phase Text)
            |> onSlotB (set_lastTextTime 0)
            |> onSlotB (set_targetConvergence bConv)
            |> onSlotB (set_maxConvergence bConv)
            |> onSlotB (set_holdDurationOverride (o_holdDuration options))
            |> onSlotB (set_releaseSpeed 1.0)
            |> onSlotB (set_charData None)
            |> onSlotB (set_dissolveMode None)
            |> onSlotB (set_physicsOverrides None)
      | None => s
      end
    else s.

(** [setText(text, options)] *)
Definition setText (text : string) (options : Options) (s : Engine) : Engine :=
  setTextTarget text options s.

End Rasteriser.

(** ** Mode switching *)

Scheme Equality for Phase.

(** [x < y] on host numbers. *)
Definition Qltb (x y : Q) : bool :=
  if Qlt_le_dec x y then true else false.

Definition holdingText (p : Phase) : bool :=
  Phase_beq p Text || Phase_beq p Forming.

(** [setMode(mode, pattern, options)] *)
Definition setMode (mode : string) (pattern : option string) (options : Options)
    (s : Engine) : Engine :=
  let s :=
    if String.eqb mode "text" || String.eqb mode "forming" then
      s |> setInt uGPUPatternId 0%Z
        |> resetToSingleLayer
        |> onMain (set_targetConvergence 1.0)
        |> onMain (set_sweepDir
                     (nth (textIndex s mod length sweepDirs) sweepDirs zero3))
    else if String.eqb mode "flow" then
      let s := s |> onMain (set_sweepDir zero3) in
      if holdingText (phase (main s)) then
        (* Defer flow target *)
        s |> set_pendingFlowPattern
               (if truthyOpt pattern then pattern else None)
          |> set_pendingFlowOptions options
      else
        let s := s |> onMain (set_targetConvergence 0.10) in
        if truthyOpt pattern then
          s |> setFlowTargets (orElse pattern "") options
        else
          s |> setFlowTargets
                 (nth (flowPatternIdx s mod length FLOW_PATTERN_GENERATORS)
                      FLOW_PATTERN_GENERATORS "organic") options
            |> set_flowPatternIdx (S (flowPatternIdx s))
    else
      s |> setFloat uFlattenZ 0.0
        |> onMain (set_targetConvergence 0.0)
        |> onMain (set_sweepDir zero3) in
  if negb (String.eqb mode "text") && negb (String.eqb mode "forming")
  then s |> set_currentText ""
  else s.

(** [init()]: the state after construction and the closing
    [setMode('flow')]. *)
Definition init (params : Params) : Engine :=
  construct params |> setMode "flow" None noOptions.

(** [snapToTargets()] (the copy of the target buffer into the position
    buffer happens on buffers that are not part of this record). *)
Definition snapToTargets (s : Engine) : Engine :=
  s |> onMain (set_convergence (targetConvergence (main s)))
    |> setFloat uConvergence (targetConvergence (main s)).

(** [setParams(params)], for the keys that reach the state after [init]. *)
Definition setParams (newPointSize : option Q) (mode : option string)
    (s : Engine) : Engine :=
  let s := match newPointSize with
           | Some v => s |> set_pointSize v |> setFloat uPointSize v
           | None => s
           end in
  if truthyOpt mode then setMode (orElse mode "") None noOptions s else s.

(** [onProjectionChange(isOrtho)] *)
Definition onProjectionChange (isOrtho : bool) (s : Engine) : Engine :=
  setFloat uIsOrtho (if isOrtho then 1 else 0) s.

(** ** The per-frame tick *)

(** The argument of [update]. *)
Record Tick : Type := mkTick {
  deltaTime : Q;
  elapsedTime : Q;
  musicTime : option Q;
  camera : option (V3 Q)
    (** the camera position, expressed in the local frame of the particle
        group (the source applies the inverse of the world rotation) *)
}.

(** [const t = musicTime || elapsedTime] *)
Definition authoredTime (tk : Tick) : Q :=
  orElseQ (musicTime tk) (elapsedTime tk).

(** The loop [for (const p of MACRO_PHASES) if (t < p.end) { phase = p; break; }]
    over the remaining rows, starting from the default [dflt]. *)
Fixpoint activeRowFrom (t : Q) (rows : list MacroRow) (dflt : MacroRow) : MacroRow :=
  match rows with
  | [] => dflt
  | p :: rest => if Qltb t (p_end p) then p else activeRowFrom t rest dflt
  end.

Definition activeRow (t : Q) : MacroRow :=
  activeRowFrom t MACRO_PHASES lastRow.

(** [const rate = 0.005] *)
Definition rate : Q := 0.005.

(** [const ovRate = ov?.lerpRate ?? rate] *)
Definition ovRate (ov : option Overrides) : Q :=
  nullish (optField ov ov_lerpRate) rate.

(** One line of the macro easing:
    [m.x += ((ov?.k ?? ambient) - m.x) * (ov?.k != null ? ovRate : rate)]. *)
Definition easeScalar (ov : option Overrides) (k : Overrides -> option Q)
    (ambient value : Q) : Q :=
  value + (nullish (optField ov k) ambient - value)
          * (if notNull (optField ov k) then ovRate ov else rate).

(** The ten lines of the macro easing. *)
Definition easeMacro (ov : option Overrides) (row : MacroRow) (m : Macro) : Macro :=
  mkMacro
    (easeScalar ov ov_noiseStrength (p_noiseStr row) (m_noiseStr m))
    (easeScalar ov ov_noiseScale (p_noiseScl row) (m_noiseScl m))
    (easeScalar ov ov_spring (p_spring row) (m_spring m))
    (easeScalar ov ov_damping (p_damp row) (m_damp m))
    (easeScalar ov ov_vortex (p_vortex row) (m_vortex m))
    (easeScalar ov ov_wave (p_wave row) (m_wave m))
    (easeScalar ov ov_gravity 0 (m_gravity m))
    (easeScalar ov ov_convUp (p_convUp row) (m_convUp m))
    (easeScalar ov ov_convDn (p_convDn row) (m_convDn m))
    (easeScalar ov ov_pointScale (p_pointScale row) (m_pointScale m)).

(** The head of [update]: clock and camera uniforms. *)
Definition clockStage (tk : Tick) (s : Engine) : Engine :=
  let s := s |> setFloat uDeltaTime (Qmin (deltaTime tk) 0.022)
             |> setFloat uTime (elapsedTime tk) in
  match camera tk with
  | Some position => s |> setVec uCameraPos position
  | None => s
  end.

(** Macro phase progression. *)
Definition macroStage (tk : Tick) (s : Engine) : Engine :=
  let m := easeMacro (physicsOverrides (main s)) (activeRow (authoredTime tk))
                     (macro s) in
  s |> set_macro m
    |> setFloat uNoiseStrength (m_noiseStr m)
    |> setFloat uNoiseScale (m_noiseScl m)
    |> setFloat uSpringStrength (m_spring m)
    |> setFloat uDamping (m_damp m)
    |> setFloat uVortexStrength (m_vortex m)
    |> setFloat uWaveStrength (m_wave m)
    |> setFloat uGravity (m_gravity m)
    |> setFloat uWavePhase (elapsedTime tk * 3.0).

Definition isDown (mode : option string) : bool :=
  match mode with Some str => String.eqb str "down" | None => false end.

(** Dissolve boost, then the point size. *)
Definition dissolveStage (s : Engine) : Engine :=
  let s :=
    if Phase_beq (phase (main s)) Releasing && isDown (dissolveMode (main s)) then
      let progress := 0.3 + 0.7 * Qmax 0 (1.0 - convergence (main s) / 0.8) in
      s |> setFloat uGravity (uf (uniforms s) uGravity + 0.0018 * progress)
        |> setFloat uNoiseStrength
             (uf (uniforms s) uNoiseStrength + 0.0012 * progress)
    else s in
  s |> setFloat uPointSize (pointSize s * m_pointScale (macro s)).

(** Asymmetric convergence with the per-lyric clamp, for one slot: [up]
    and [dn] are the rising speed and the falling speed before the
    release-speed multiplier. *)
Definition advanceConvergence (up dn : Q) (b : Slot) : Slot :=
  let isRising := Qltb (convergence b) (targetConvergence b) in
  let convSpeed := if isRising then up else dn * releaseSpeed b in
  let c := convergence b + (targetConvergence b - convergence b) * convSpeed in
  let c := if Qltb (maxConvergence b) 1.0 then Qmin c (maxConvergence b) else c in
  set_convergence c b.

(** Sweep interpolation for one slot. *)
Definition advanceSweep (b : Slot) : Slot :=
  b |> set_currentSweepX
         (currentSweepX b + (vx (sweepDir b) - currentSweepX b) * 0.025)
    |> set_currentSweepY
         (currentSweepY b + (vy (sweepDir b) - currentSweepY b) * 0.025)
    |> set_currentSweepZ
         (currentSweepZ b + (vz (sweepDir b) - currentSweepZ b) * 0.025).

(** Asymmetric convergence and sweep of the main slot. *)
Definition convergenceStage (s : Engine) : Engine :=
  let s := s |> onMain (advanceConvergence
                          (m_convUp (macro s) * convUpScale s)
                          (m_convDn (macro s) * convDnScale s)) in
  let s := s |> setFloat uConvergence (convergence (main s)) in
  let s := s |> onMain advanceSweep in
  s |> setFloat uSweepX (currentSweepX (main s))
    |> setFloat uSweepY (currentSweepY (main s))
    |> setFloat uSweepZ (currentSweepZ (main s)).

(** Text time tracking of one slot:
    [if (lastTextTime === 0 && phase === 'text') lastTextTime = elapsedTime]. *)
Definition trackTextTime (elapsed : Q) (b : Slot) : Slot :=
  if Phase_beq (phase b) Text && Qeq_bool (lastTextTime b) 0
  then set_lastTextTime elapsed b else b.

(** The hold duration in force: the override, else the engine default. *)
Definition holdDur (dflt : Q) (b : Slot) : Q :=
  nullish (holdDurationOverride b) dflt.

(** Text hold to releasing, for one slot. *)
Definition holdCheck (dflt elapsed : Q) (b : Slot) : Slot :=
  if Phase_beq (phase b) Text && Qltb 0 (lastTextTime b) then
    if Qltb (holdDur dflt b) (elapsed - lastTextTime b)
    then b |> set_phase Releasing |> set_targetConvergence 0
    else b
  else b.

(** The guard of the releasing-to-flow rule. *)
Definition released (b : Slot) : bool :=
  Phase_beq (phase b) Releasing && Qltb (convergence b) 0.02.

(** Slot B (group 1) independent phase management. *)
Definition slotBStage (tk : Tick) (s : Engine) : Engine :=
  if (splitPoint s <? count s)%Z then
    let s := s |> onSlotB (advanceConvergence (m_convUp (macro s))
                                              (m_convDn (macro s))) in
    let s := s |> setFloat uConvergenceB (convergence (slotB s)) in
    let s := s |> onSlotB advanceSweep in
    let s := s
      |> setFloat uSweepXB (currentSweepX (slotB s))
      |> setFloat uSweepYB (currentSweepY (slotB s))
      |> setFloat uSweepZB (currentSweepZ (slotB s)) in
    let s := s
      |> onSlotB (trackTextTime (elapsedTime tk))
      |> onSlotB (holdCheck (textHoldDuration s) (elapsedTime tk)) in
    if released (slotB s) then
      s |> onSlotB (set_phase Flow)
        |> onSlotB (set_lastTextTime 0)
        |> onSlotB (set_targetConvergence 0.1)
        |> onSlotB (set_physicsOverrides None)
        |> onSlotB (set_dissolveMode None)
        |> onSlotB (set_maxConvergence 1.0)
        |> onSlotB (set_holdDurationOverride None)
        |> onSlotB (set_releaseSpeed 1.0)
    else s
  else s.

(** [TEXT_ANIMATIONS[animType] || TEXT_ANIMATIONS.directSnap] *)
Definition animDef (anim : option string) : Q * Q :=
  match anim with
  | Some name => nullish (lookup name TEXT_ANIMATIONS) (0.0, 0.0)
  | None => (0.0, 0.0)
  end.

(** The reveal loop over the characters from index [c] on; returns the
    updated records, the slices written (in order) and [allRevealed]. *)
Fixpoint revealLoop (COUNT : Z) (elapsed delay stagger : Q) (c : nat)
    (chars : list CharRec) : list CharRec * list TargetWrite * bool :=
  match chars with
  | [] => ([], [], true)
  | cd :: rest =>
      let '(rest', ws, allRevealed) :=
        revealLoop COUNT elapsed delay stagger (S c) rest in
      if revealed cd then (cd :: rest', ws, allRevealed)
      else if Qle_bool (delay + Qnat c * stagger) elapsed then
        (* _revealChar(c) *)
        (mkChar (startIdx cd) (cnt cd) true (nPoints cd) :: rest',
         ((if (nPoints cd =? 0)%Z then []
           else [WChar (startIdx cd) (writtenSlice COUNT cd)]) ++ ws)%list,
         allRevealed)
      else (cd :: rest', ws, false)
  end.

(** Per-character formation to text reveal (main slot). *)
Definition formationStage (tk : Tick) (s : Engine) : Engine :=
  match (if formationPending (main s) then charData (main s) else None) with
  | Some chars =>
      let s := if Qltb (formationStartTime (main s)) 0
               then s |> onMain (set_formationStartTime (elapsedTime tk))
               else s in
      let elapsed := elapsedTime tk - formationStartTime (main s) in
      let '(delay, stagger) := animDef (animType (main s)) in
      let '(chars', ws, allRevealed) :=
        revealLoop (count s) elapsed delay stagger 0 chars in
      let s := s |> onMain (set_charData (Some chars'))
                 |> writeTargets (rev ws) in
      if allRevealed then
        s |> onMain (set_formationPending false)
          |> onMain (set_phase Text)
      else s
  | None => s
  end.

(** [!this._lastAnimUpdate || elapsedTime - this._lastAnimUpdate > 0.25] *)
Definition animDue (elapsed : Q) (lastUpdate : option Q) : bool :=
  match lastUpdate with
  | None => true
  | Some l => Qeq_bool l 0 || Qltb 0.25 (elapsed - l)
  end.

(** CPU-animated flow patterns, refreshed every quarter second. *)
Definition animatedFlowStage (tk : Tick) (s : Engine) : Engine :=
  if Phase_beq (phase (main s)) Flow
     && (ui (uniforms s) uGPUPatternId =? 0)%Z
     && hasKey (currentFlowPattern s) FLOW_PATTERN_ANIMATORS
  then
    if animDue (elapsedTime tk) (lastAnimUpdate s) then
      s |> set_lastAnimUpdate (Some (elapsedTime tk))
        |> writeTargets [WFlowAnimator (currentFlowPattern s) (elapsedTime tk)]
    else s
  else s.

(** Text time tracking (main slot). *)
Definition textTimeStage (tk : Tick) (s : Engine) : Engine :=
  s |> onMain (trackTextTime (elapsedTime tk)).

(** First half of the 2-stage dissolve: text hold to releasing. *)
Definition holdStage (tk : Tick) (s : Engine) : Engine :=
  s |> onMain (holdCheck (textHoldDuration s) (elapsedTime tk)).

(** Second half of the 2-stage dissolve: releasing to flow. *)
Definition releaseStage (s : Engine) : Engine :=
  if released (main s) then
    let s := s
      |> onMain (set_phase Flow)
      |> onMain (set_lastTextTime 0)
      |> set_currentText ""
      |> onMain (set_physicsOverrides None)
      |> onMain (set_dissolveMode None)
      |> onMain (set_maxConvergence 1.0)
      |> onMain (set_holdDurationOverride None)
      |> onMain (set_releaseSpeed 1.0)
      |> setInt uBgPatternId 0%Z
      |> setFloat uTextParticleRatio 1.0
      |> setFloat uTextPerChar 1.0
      |> set_targetWorldQuat (Some QuatIdentity)
      |> resetToSingleLayer in
    (* Use pending flow target if one was queued during text hold *)
    let nextPattern := orElse (pendingFlowPattern s) "organic" in
    let nextOptions := pendingFlowOptions s in
    s |> set_pendingFlowPattern None
      |> set_pendingFlowOptions noOptions
      |> setFlowTargets nextPattern nextOptions
      |> onMain (set_targetConvergence 0.10)
      |> onMain (set_sweepDir zero3)
  else s.

(** The state in which [update] reaches the 2-stage dissolve. *)
Definition beforeDissolve (tk : Tick) (s : Engine) : Engine :=
  s |> clockStage tk
    |> macroStage tk
    |> dissolveStage
    |> convergenceStage
    |> slotBStage tk
    |> formationStage tk
    |> animatedFlowStage tk
    |> textTimeStage tk.

(** [update({ deltaTime, elapsedTime, musicTime })] *)
Definition update (tk : Tick) (s : Engine) : Engine :=
  s |> beforeDissolve tk
    |> holdStage tk
    |> releaseStage.

(** ** Call sequences *)

(** The public methods that change the state. *)
Inductive Command : Type :=
| CallSetText (text : string) (options : Options)
| CallSetShadowSculptureTarget (textA textB : string) (options : Options)
| CallSetFlowTargets (pattern : option string) (options : Options)
| CallSetFlowOrigin (x y z : Q)
| CallSetFlowScale (scale : Q)
| CallSetFlowTargetsMultiLayer (layers : list Layer)
| CallSnapToTargets
| CallSetMode (mode : string) (pattern : option string) (options : Options)
| CallUpdate (tk : Tick)
| CallSetParams (newPointSize : option Q) (mode : option string)
| CallOnProjectionChange (isOrtho : bool).

Section Calls.

Variable sampleTextPositionsPerChar : string -> Options -> Z -> list Z.

Definition call (c : Command) (s : Engine) : Engine :=
  match c with
  | CallSetText text options =>
      setText sampleTextPositionsPerChar text options s
  | CallSetShadowSculptureTarget textA textB options =>
      setShadowSculptureTarget textA textB options s
  | CallSetFlowTargets pattern options =>
      (* the parameter default: pattern = 'organic' *)
      setFlowTargets (nullish pattern "organic") options s
  | CallSetFlowOrigin x y z => setFlowOrigin x y z s
  | CallSetFlowScale scale => setFlowScale scale s
  | CallSetFlowTargetsMultiLayer layers => setFlowTargetsMultiLayer layers s
  | CallSnapToTargets => snapToTargets s
  | CallSetMode mode pattern options => setMode mode pattern options s
  | CallUpdate tk => update tk s
  | CallSetParams newPointSize mode => setParams newPointSize mode s
  | CallOnProjectionChange isOrtho => onProjectionChange isOrtho s
  end.

(** A sequence of calls, first call first. *)
Definition run (cs : list Command) (s : Engine) : Engine :=
  fold_left (fun st c => call c st) cs s.

End Calls.

(** ** The compute kernel *)

(** [_buildComputeShader]: one invocation of [computeUpdate] for the
    particle of index [i].  Each [const] of the shader graph is read as
    the value of its expression at the place where it is declared. *)
Module Kernel.

Local Open Scope R_scope.

Definition vadd (a b : V3 R) : V3 R :=
  mkV3 (vx a + vx b) (vy a + vy b) (vz a + vz b).
Definition vsub (a b : V3 R) : V3 R :=
  mkV3 (vx a - vx b) (vy a - vy b) (vz a - vz b).
Definition vscale (a : V3 R) (k : R) : V3 R :=
  mkV3 (vx a * k) (vy a * k) (vz a * k).
Definition vdiv (a : V3 R) (k : R) : V3 R :=
  mkV3 (vx a / k) (vy a / k) (vz a / k).
Definition vlength (a : V3 R) : R :=
  sqrt (vx a * vx a + vy a * vy a + vz a * vz a).
Definition normalize (a : V3 R) : V3 R := vdiv a (vlength a).
Definition cross (a b : V3 R) : V3 R :=
  mkV3 (vy a * vz b - vz a * vy b)
       (vz a * vx b - vx a * vz b)
       (vx a * vy b - vy a * vx b).

Definition clamp (x lo hi : R) : R := Rmin (Rmax x lo) hi.
Definition mix (a b t : R) : R := a * (1 - t) + b * t.
Definition vmix (a b : V3 R) (t : R) : V3 R :=
  mkV3 (mix (vx a) (vx b) t) (mix (vy a) (vy b) t) (mix (vz a) (vz b) t).
Definition smoothstep (e0 e1 x : R) : R :=
  let t := clamp ((x - e0) / (e1 - e0)) 0 1 in
  t * t * (3 - 2 * t).
Definition toFloat (b : bool) : R := if b then 1 else 0.
Definition Rltb (x y : R) : bool := if Rlt_dec x y then true else false.
Definition Rleb (x y : R) : bool := if Rle_dec x y then true else false.
(** [x.mod(y)] on floats *)
Definition fmod (x y : R) : R := x - y * IZR (Int_part (x / y)).

(** The storage buffers' elements for one particle. *)
Record Particle : Type := mkParticle {
  pos : V3 R;
  vel : V3 R;
  target : V3 R;
  life_x : R;   (** remaining *)
  life_y : R    (** total *)
}.

Section Intrinsics.

(** [hash(x)] on a float and [hash(vec2(x, y))]. *)
Variable hash : R -> R.
Variable hash2 : R -> R -> R.
(** [mx_noise_vec3(p)] *)
Variable mx_noise_vec3 : V3 R -> V3 R.
(** [buildGPUTargetSection(i, target, time, patternId, COUNT)]: the new
    value of [target]. *)
Variable buildGPUTargetSection : Z -> V3 R -> R -> Z -> Z -> V3 R.

Variable u : Uniforms R.
Variable COUNT : Z.

(** [float(i).greaterThanEqual(u.uGroupSplit).toFloat()] *)
Definition inGroupB (i : Z) : R := toFloat (ui u uGroupSplit <=? i)%Z.

Definition effConv (i : Z) : R :=
  mix (uf u uConvergence) (uf u uConvergenceB) (inGroupB i).
Definition effSweep (i : Z) : V3 R :=
  mkV3 (mix (uf u uSweepX) (uf u uSweepXB) (inGroupB i))
       (mix (uf u uSweepY) (uf u uSweepYB) (inGroupB i))
       (mix (uf u uSweepZ) (uf u uSweepZB) (inGroupB i)).

(** Pattern id, origin and scale after the multi-layer block. *)
Definition effLayer (i : Z) : Z * V3 R * R :=
  if (1 <? ui u uNumLayers)%Z then
    let layerId := (i mod ui u uNumLayers)%Z in
    if (layerId <? 1)%Z then
      (ui u uLayerPatternId0, uv u uLayerOrigin0, uf u uLayerScale0)
    else if (layerId <? 2)%Z then
      (ui u uLayerPatternId1, uv u uLayerOrigin1, uf u uLayerScale1)
    else if (layerId <? 3)%Z then
      (ui u uLayerPatternId2, uv u uLayerOrigin2, uf u uLayerScale2)
    else
      (ui u uLayerPatternId3, uv u uLayerOrigin3, uf u uLayerScale3)
  else (ui u uGPUPatternId, uv u uFlowOrigin, uf u uFlowScale).

(** Dual mode: the per-character background split. *)
Definition isBgParticle (i : Z) : bool :=
  let _tpc := Rmax (uf u uTextPerChar) 1 in
  let posInChar := fmod (IZR i) _tpc in
  (0 <? ui u uBgPatternId)%Z && Rleb (uf u uTextParticleRatio) (posInChar / _tpc).

Definition effPatternId (i : Z) : Z :=
  if isBgParticle i then ui u uBgPatternId else fst (fst (effLayer i)).
Definition effOrigin (i : Z) : V3 R := snd (fst (effLayer i)).
Definition effScale (i : Z) : R := snd (effLayer i).

(** The value of [target] after the two pattern blocks. *)
Definition resolveTarget (i : Z) (tgt : V3 R) : V3 R :=
  let t := uf u uTime in
  let tgt :=
    if (0 <? effPatternId i)%Z then
      vadd (vscale (buildGPUTargetSection i tgt t (effPatternId i) COUNT)
                   (effScale i))
           (effOrigin i)
    else tgt in
  if Rltb (1/2) (inGroupB i) && (0 <? ui u uGPUPatternIdB)%Z then
    vadd (vscale (buildGPUTargetSection i tgt t (ui u uGPUPatternIdB) COUNT)
                 (uf u uFlowScaleB))
         (uv u uFlowOriginB)
  else tgt.

(** [hash(float(i).mul(0.137))] *)
Definition particleHash (i : Z) : R := hash (IZR i * 0.137).

Definition sweepDelay (i : Z) (p : V3 R) : R :=
  vx p * vx (effSweep i) + vy p * vy (effSweep i) + vz p * vz (effSweep i).

(** Text attraction. *)
Definition effectiveAttraction (i : Z) (p : V3 R) : R :=
  clamp (effConv i - sweepDelay i p * 0.03 - particleHash i * 0.01) 0 1.

(** The life reset: the position a dead particle is moved to. *)
Definition raw (i : Z) : V3 R :=
  let t := uf u uTime in
  mkV3 (hash2 (IZR i + 500) t - 0.5)
       (hash2 (IZR i + 1500) t - 0.5)
       (hash2 (IZR i + 2500) t - 0.5).

Definition farR (i : Z) : R :=
  2.5 + hash2 (IZR i + 3500) (uf u uTime) * 2.

Definition shellPos (i : Z) : V3 R :=
  let rawLen := Rmax (vlength (raw i)) 0.001 in
  vscale (vdiv (raw i) rawLen) (farR i).

Definition targetPos (i : Z) (tgt : V3 R) (ea : R) : V3 R :=
  let targetJitter := vscale (vscale (raw i) 0.02) (Rmax (1 - ea) 0.05) in
  vadd tgt targetJitter.

(** [attractSq.mul(0.8).add(effectiveAttraction.mul(0.2))] *)
Definition blend (ea : R) : R := ea * ea * 0.8 + ea * 0.2.

Definition resetPos (i : Z) (tgt : V3 R) (ea : R) : V3 R :=
  vadd (shellPos i)
       (vscale (vsub (targetPos i tgt ea) (shellPos i)) (blend ea)).

(** The force steps of [computeUpdate], from the curl noise to the hard Z
    clamp: the position and the velocity as they stand before the life
    reset. *)
Definition integrate (i : Z) (p : Particle) : V3 R * V3 R :=
  let t := uf u uTime in
  let pos0 := pos p in
  let vel0 := vel p in
  let tgt := resolveTarget i (target p) in
  let dir := vsub tgt pos0 in
  let particleVariation := particleHash i * 1.4 + 0.3 in
  let ea := effectiveAttraction i pos0 in
  (* Multi-octave curl noise *)
  let n1 := mx_noise_vec3
              (vadd (vscale pos0 (uf u uNoiseScale)) (mkV3 (t * 0.08) (t * 0.08) (t * 0.08))) in
  let n2 := mx_noise_vec3
              (vadd (vscale pos0 (uf u uNoiseScale * 2.3)) (mkV3 (t * 0.14) (t * 0.14) (t * 0.14))) in
  let n3 := mx_noise_vec3
              (vadd (vscale pos0 (uf u uNoiseScale * 5.1)) (mkV3 (t * 0.22) (t * 0.22) (t * 0.22))) in
  let multiNoise := vadd (vadd n1 (vscale n2 0.4)) (vscale n3 0.15) in
  let noiseSuppress := Rmax (1 - ea) 0 in
  let vel1 := vadd vel0 (vscale (vscale (vscale multiNoise (uf u uNoiseStrength)) 1.5) noiseSuppress) in
  (* Vortex field *)
  let vCenter := mkV3 (sin (t * 0.07) * 1.2) (cos (t * 0.11) * 0.8) (sin (t * 0.09) * 0.5) in
  let toV := vsub pos0 vCenter in
  let vDist := Rmax (vlength toV) 0.01 in
  let vAxis := normalize (mkV3 (sin (t * 0.05)) (cos (t * 0.03)) (sin (t * 0.07 + 1))) in
  let vForce := cross (vdiv toV vDist) vAxis in
  let vFalloff := smoothstep 0 1.5 vDist * smoothstep 5 2 vDist in
  let vortexSuppress := Rmax (1 - ea) 0 in
  let vel2 := vadd vel1 (vscale (vscale (vscale vForce (uf u uVortexStrength)) vFalloff) vortexSuppress) in
  (* Concentric wave ripple *)
  let wOrigin := mkV3 (sin (t * 0.13) * 2) (cos (t * 0.09) * 1.5) 0 in
  let wDir := vsub pos0 wOrigin in
  let wDist := Rmax (vlength wDir) 0.01 in
  let wPhase := wDist * 3 - uf u uWavePhase in
  let wPush := sin wPhase * uf u uWaveStrength / Rmax wDist 0.5 in
  let vel3 := vadd vel2 (vscale (vdiv wDir wDist) wPush) in
  (* Background particle attraction reduction *)
  let bgMul := mix 1 0.15 (toFloat (isBgParticle i)) in
  (* Direct position convergence *)
  let globalPull := ea * 0.08 * bgMul in
  let pos1 := vadd pos0 (vscale dir globalPull) in
  (* Drift *)
  let driftSuppress := Rmax (1 - ea) 0 in
  let driftP := vx pos1 * 0.6 + vy pos1 * 0.4 + t * 0.2 in
  let vel4 := mkV3 (vx vel3 + sin driftP * 0.00004 * driftSuppress)
                   (vy vel3 + sin (driftP + 1.571) * 0.00003 * driftSuppress
                            - 0.000008 * driftSuppress)
                   (vz vel3) in
  let gentleBias := uf u uSpringStrength * ea * particleVariation * 1.5 * bgMul in
  let vel5 := vadd vel4 (vscale dir gentleBias) in
  let dist := vlength dir in
  let proximity := smoothstep 5 0 dist in
  let lingerRate := uf u uSpringStrength * ea * proximity * particleVariation * 10 * bgMul in
  let pos2 := vadd pos1 (vscale dir lingerRate) in
  (* Near-text velocity suppression *)
  let vel6 := vscale vel5 (1 - ea * proximity * 0.95) in
  (* Camera repulsion *)
  let toCam := vsub pos2 (uv u uCameraPos) in
  let camDist := Rmax (vlength toCam) 0.01 in
  let camRepulseBase := smoothstep 0.8 0 camDist * 0.0004 in
  let camRepulse := camRepulseBase * mix 1 0.2 (uf u uIsOrtho) in
  let vel7 := vadd vel6 (vscale (vdiv toCam camDist) camRepulse) in
  (* Spherical soft boundary *)
  let posRelOrigin := vsub pos2 (effOrigin i) in
  let distFC := vlength posRelOrigin in
  let overDist := Rmax (distFC - 6) 0 in
  let vel8 := vadd vel7 (vscale (vdiv (vscale posRelOrigin (-1)) (Rmax distFC 0.01))
                                (overDist * 0.006)) in
  (* Gravity *)
  let vel9 := mkV3 (vx vel8) (vy vel8 - uf u uGravity) (vz vel8) in
  (* Velocity clamp *)
  let velMag := vlength vel9 in
  let maxVel := 0.08 in
  let overMax := toFloat (Rltb maxVel velMag) in
  let vel10 := vmix vel9 (vscale (vdiv vel9 (Rmax velMag 0.0001)) maxVel) overMax in
  (* Damping + integrate *)
  let vel11 := vscale vel10 (uf u uDamping) in
  let pos3 := vadd pos2 (vscale vel11 (uf u uDeltaTime * 60)) in
  (* Non-anamorphic text: suppress Z-scatter *)
  let flatZ := uf u uFlattenZ in
  let vel12 := mkV3 (vx vel11) (vy vel11) (vz vel11 * (1 - flatZ * 0.85)) in
  let pos4 := mkV3 (vx pos3) (vy pos3)
                   (vz pos3 + (vz tgt - vz pos3) * (flatZ * 0.12)) in
  (* Flat plane mode: hard Z-clamp *)
  let pos5 := mkV3 (vx pos4) (vy pos4) (mix (vz pos4) (vz tgt) flatZ) in
  let vel13 := mkV3 (vx vel12) (vy vel12) (vz vel12 * (1 - flatZ)) in
  (pos5, vel13).

(** [computeUpdate]: target resolution, life decrement, the force steps,
    then the life reset. *)
Definition computeUpdate (i : Z) (p : Particle) : Particle :=
  let tgt := resolveTarget i (target p) in
  let life1 := life_x p - uf u uDeltaTime in
  let ea := effectiveAttraction i (pos p) in
  let pos5 := fst (integrate i p) in
  let vel13 := snd (integrate i p) in
  (* Life reset *)
  let isDead := toFloat (Rltb life1 0) in
  let pos6 := vadd pos5 (vscale (vsub (resetPos i tgt ea) pos5) isDead) in
  let life2 := life1 + life_y p * isDead in
  mkParticle pos6 vel13 tgt life2 (life_y p).

End Intrinsics.

(** Uploading the host uniforms to the device. *)
Definition upload (h : Uniforms Q) : Uniforms R :=
  mkUniforms (fun k => Q2R (uf h k)) (ui h) (fun k => v3map Q2R (uv h k)).

End Kernel.

(** ** Vocabulary of the statements *)

(** The state in which [update] reaches the releasing-to-flow rule. *)
Definition atRelease (tk : Tick) (s : Engine) : Engine :=
  s |> beforeDissolve tk |> holdStage tk.

(** The fields that no stage of [update] before the releasing-to-flow rule
    assigns. *)
Definition sameSetup (s s' : Engine) : Prop :=
  count s' = count s
  /\ textHoldDuration s' = textHoldDuration s
  /\ convUpScale s' = convUpScale s
  /\ convDnScale s' = convDnScale s
  /\ pointSize s' = pointSize s
  /\ splitPoint s' = splitPoint s
  /\ currentFlowPattern s' = currentFlowPattern s
  /\ pendingFlowPattern s' = pendingFlowPattern s
  /\ pendingFlowOptions s' = pendingFlowOptions s.

(** The convergence speed [convSpeed] of one slot. *)
Definition convSpeed (up dn : Q) (b : Slot) : Q :=
  if Qltb (convergence b) (targetConvergence b) then up else dn * releaseSpeed b.

(** One eased scalar, as the specification words it: the new value, the
    value it is eased toward and the rate. *)
Definition easedToward (old new targetValue easeRate : Q) : Prop :=
  new = old + (targetValue - old) * easeRate.

(** One scalar of the macro state under the override rule: eased toward
    the override at the caller's rate when the override supplies it,
    toward the ambient value at the rate 0.005 otherwise. *)
Definition easedUnder (ov : option Overrides) (k : Overrides -> option Q)
    (ambient old new : Q) : Prop :=
  match optField ov k with
  | Some v => easedToward old new v (nullish (optField ov ov_lerpRate) 0.005)
  | None => easedToward old new ambient 0.005
  end.

(** [row] is the first row of the table whose end time exceeds [t]. *)
Definition firstRowAfter (t : Q) (row : MacroRow) : Prop :=
  exists before after,
    MACRO_PHASES = (before ++ row :: after)%list
    /\ t < p_end row
    /\ Forall (fun p => p_end p <= t) before.

(** ** Example inputs *)

(** A rasteriser that samples a hundred points for every character. *)
Definition uniformRaster (text : string) (_ : Options) (_ : Z) : list Z :=
  map (fun _ => 100%Z) (list_ascii_of_string text).

(** A 16 ms frame at the elapsed time [t], without music clock or camera. *)
Definition frameAt (t : Q) : Tick := mkTick 0.016 t None None.

(** A frame fifty seconds after the start whose music clock reads 0: the
    playback position before the track has started. *)
Definition beforePlayback : Tick := mkTick 0.016 50 (Some 0) None.

(** A frame fifty seconds after the start, twenty seconds into the track. *)
Definition midSong : Tick := mkTick 0.016 50 (Some 20) None.

(** The options bag [options] with its physics keys replaced. *)
Definition withPhysics (ov : Overrides) (options : Options) : Options :=
  mkOptions (o_animation options) (o_viewDirection options)
    (o_maxConvergence options) (o_holdDuration options)
    (o_releaseSpeed options) (o_dissolveMode options)
    (o_backgroundPattern options) (o_textRatio options)
    (o_particleGroup options) (o_groupBPattern options)
    (o_groupBConvergence options) (o_groupBOrigin options)
    (o_groupBScale options) ov (o_raster options).

(** [{ animation: 'directSnap' }] *)
Definition directSnap : Options :=
  mkOptions (Some "directSnap") None None None None None None None None None
            None None None noOverrides [].

(** [{ animation: 'directSnap', convUp: 3, lerpRate: 1 }] *)
Definition overshootOptions : Options :=
  withPhysics
    (mkOverrides None None None None None None None None (Some 3) None (Some 1))
    directSnap.

(** The engine one frame after [setText('A', overshootOptions)]. *)
Definition overshootRun : Engine :=
  run uniformRaster
    [CallSetText "A" overshootOptions; CallUpdate (frameAt 1)]
    (init noParams).

(** [{ animation: 'directSnap', holdDuration: 1, releaseSpeed: 4,
       convDn: 0.5, lerpRate: 1 }] *)
Definition undershootOptions : Options :=
  mkOptions (Some "directSnap") None None (Some 1) (Some 4) None None None
    None None None None None
    (mkOverrides None None None None None None None None None (Some 0.5) (Some 1))
    [].

(** The engine after the text above has been held and released for one
    frame. *)
Definition undershootRun : Engine :=
  run uniformRaster
    [CallSetText "A" undershootOptions; CallUpdate (frameAt 1);
     CallUpdate (frameAt 3); CallUpdate (frameAt 3.016)]
    (init noParams).

(** A slot in mid-release, halfway down. *)
Definition halfReleased : Slot :=
  mkSlot Releasing 0.5 0 1 None 1.0 None 0.8 None None false (-1)
         (Some "directSnap") zero3 0 0 0.

(** [{ animation: 'directSnap', holdDuration: 1, releaseSpeed: 250 }] *)
Definition briefHold : Options :=
  mkOptions (Some "directSnap") None None (Some 1) (Some 250) None None None
            None None None None None noOverrides [].

(** [{ spring: 0.5 }] *)
Definition springOptions : Options :=
  withPhysics
    (mkOverrides (Some 0.5) None None None None None None None None None None)
    noOptions.

(** A text is set and held; [setMode('flow', 'galaxySpin', { spring: 0.5 })]
    arrives during the hold; the hold expires. *)
Definition queuedRun : Engine :=
  run uniformRaster
    [CallSetText "A" briefHold; CallUpdate (frameAt 1);
     CallSetMode "flow" (Some "galaxySpin") springOptions;
     CallUpdate (frameAt 3)]
    (init noParams).

(** [{ animation: 'directSnap', maxConvergence: 0.01, holdDuration: 1 }] *)
Definition faintOptions : Options :=
  mkOptions (Some "directSnap") None (Some 0.01) (Some 1) None None None None
            None None None None None noOverrides [].

(** A text that never converges beyond 0.01, one frame into its hold. *)
Definition faintRun : Engine :=
  run uniformRaster
    [CallSetText "AB" faintOptions; CallUpdate (frameAt 1)]
    (init noParams).

(** A text with the default hold, one frame into its hold. *)
Definition heldRun : Engine :=
  run uniformRaster
    [CallSetText "AB" directSnap; CallUpdate (frameAt 1)]
    (init noParams).

(** The pattern [setMode('flow', pattern, ...)] hands to [setFlowTargets]
    when it does not defer: the requested one, or the next of the cycle. *)
Definition requestedPattern (pattern : option string) (s : Engine) : string :=
  if truthyOpt pattern then orElse pattern ""
  else nth (flowPatternIdx s mod length FLOW_PATTERN_GENERATORS)
           FLOW_PATTERN_GENERATORS "organic".

(** The generator [setFlowTargets] runs for a pattern without GPU id. *)
Definition cpuGenerator (pattern : string) : string :=
  if hasKey pattern FLOW_PATTERN_GENERATORS then pattern else "organic".

(** Slot B cannot enter [Forming] on the way from [s] to [s']. *)
Definition keepsBOutOfForming (s s' : Engine) : Prop :=
  phase (slotB s') = Forming -> phase (slotB s) = Forming.

(** The writes of [_applyAllCharTargets(chars)] on an engine of [COUNT]
    particles, newest first: the slice of every character that has sampled
    points. *)
Definition charWrites (COUNT : Z) (chars : list CharRec) : list TargetWrite :=
  rev (flat_map (fun cd =>
         if (nPoints cd =? 0)%Z then []
         else [WChar (startIdx cd) (writtenSlice COUNT cd)]) chars).

(** The phase changes the per-tick logic of a slot can make. *)
Definition tickTransition (p p' : Phase) : Prop :=
  p' = p
  \/ (p = Text /\ p' = Releasing)
  \/ (p = Releasing /\ p' = Flow)
  \/ (p = Text /\ p' = Flow).

(** [{ animation: 'waveReveal', particleGroup: 1 }] *)
Definition groupBOptions : Options :=
  mkOptions (Some "waveReveal") None None None None None None None
            (Some 1%Z) None None None None noOverrides [].

(** ** Example inputs for the kernel *)

(** The convergence and the sweep vector the kernel selects for a
    particle, by index range. *)
Definition groupConvergence (u : Uniforms R) (i : Z) : R :=
  if (ui u uGroupSplit <=? i)%Z then uf u uConvergenceB else uf u uConvergence.

Definition groupSweep (u : Uniforms R) (i : Z) : V3 R :=
  if (ui u uGroupSplit <=? i)%Z
  then mkV3 (uf u uSweepXB) (uf u uSweepYB) (uf u uSweepZB)
  else mkV3 (uf u uSweepX) (uf u uSweepY) (uf u uSweepZ).

(** Uniforms of an engine that shows CPU-written targets in a single
    group, with the convergence [c] and no sweep. *)
Definition plainUniforms (c : R) : Uniforms R :=
  mkUniforms
    (fun k => match k with
       | uDeltaTime => 0.016%R
       | uConvergence => c
       | uDamping => 0.988%R
       | uTextParticleRatio | uTextPerChar | uFlowScaleB | uFlowScale
       | uLayerScale0 | uLayerScale1 | uLayerScale2 | uLayerScale3
       | uPointSize => 1%R
       | _ => 0%R
       end)
    (fun k => match k with
       | uNumLayers => 1%Z
       | uGroupSplit => 1000%Z
       | _ => 0%Z
       end)
    (fun _ => mkV3 0%R 0%R 0%R).

(** Intrinsics for the examples: a hash that is 1 on arguments up to 1000
    and 1/2 above, a constant hash, no noise, and a pattern section that
    leaves the target alone. *)
Definition stepHash2 (a _ : R) : R :=
  if Rle_dec a 1000%R then 1%R else (1/2)%R.
Definition halfHash2 (_ _ : R) : R := (1/2)%R.
Definition zeroHash (_ : R) : R := 0%R.
Definition noNoise (_ : V3 R) : V3 R := mkV3 0%R 0%R 0%R.
Definition keepTarget (_ : Z) (tgt : V3 R) (_ : R) (_ _ : Z) : V3 R := tgt.

(** A particle at the origin whose life has run out, with its target at
    (3, 0, 0). *)
Definition expiring : Kernel.Particle :=
  Kernel.mkParticle (mkV3 0%R 0%R 0%R) (mkV3 0%R 0%R 0%R) (mkV3 3%R 0%R 0%R)
                    0%R 5%R.

(** The particle above after one kernel invocation without attraction,
    and after one with full attraction and a hash that is 1/2 throughout. *)
Definition respawnedFar : Kernel.Particle :=
  Kernel.computeUpdate zeroHash stepHash2 noNoise keepTarget
    (plainUniforms 0%R) 1000 0 expiring.
Definition respawnedOnTarget : Kernel.Particle :=
  Kernel.computeUpdate zeroHash halfHash2 noNoise keepTarget
    (plainUniforms 1%R) 1000 0 expiring.

(** A single layer with an origin offset and a scale, and the uniforms
    the kernel sees after it has been set on a fresh engine. *)
Definition loneLayer : Layer :=
  mkLayer "galaxySpin" (Some (mkV3 1 0 0)) (Some 2).
Definition loneLayerUniforms : Uniforms R :=
  Kernel.upload (uniforms (setFlowTargetsMultiLayer [loneLayer] (init noParams))).

(** The layer a particle belongs to, as the specification words it. *)
Definition layerOf (layers : list Layer) (i : Z) : option Layer :=
  nth_error layers (Z.to_nat (i mod Z.of_nat (Nat.min (length layers) 4))).

(** What the kernel is to use for a layer: pattern id, origin, scale. *)
Definition layerSetting (layer : Layer) : Z * V3 R * R :=
  (layerGpuId (l_pattern layer),
   v3map Q2R (nullish (l_origin layer) zero3),
   Q2R (nullish (l_scale layer) 1.0)).

(** ** Vocabulary of the further properties *)

(** The character records tile the index range from [start] to [stop]:
    each slice begins where the previous one ends and none is negative. *)
Fixpoint tiles (start stop : Z) (chars : list CharRec) : Prop :=
  match chars with
  | [] => start = stop
  | cd :: rest =>
      startIdx cd = start /\ (0 <= cnt cd)%Z
      /\ tiles (start + cnt cd) stop rest
  end.

(** The split index is either the particle count (no split) or half of
    it, and the split uniform agrees with it. *)
Definition splitConsistent (s : Engine) : Prop :=
  (splitPoint s = count s \/ splitPoint s = (count s / 2)%Z)
  /\ ui (uniforms s) uGroupSplit = splitPoint s.

(** The convergence and sweep uniforms of a group agree with its slot. *)
Definition mainUniformsSynced (s : Engine) : Prop :=
  uf (uniforms s) uConvergence = convergence (main s)
  /\ uf (uniforms s) uSweepX = currentSweepX (main s)
  /\ uf (uniforms s) uSweepY = currentSweepY (main s)
  /\ uf (uniforms s) uSweepZ = currentSweepZ (main s).

(** [n] ticks of the easing of one macro scalar under fixed overrides and
    a fixed ambient value. *)
Definition easeTicks (ov : option Overrides) (k : Overrides -> option Q)
    (ambient : Q) (n : nat) (value : Q) : Q :=
  Nat.iter n (easeScalar ov k ambient) value.

(** The reveal time of the character of index [c]. *)
Definition revealTime (delay stagger : Q) (c : nat) : Q :=
  delay + Qnat c * stagger.

(** A three-character text in formation, started at time 2 with the
    animation 'typewriter' (delay 0, stagger 0.18). *)
Definition formingRun : Engine :=
  run uniformRaster
    [CallSetText "ABC"
       (mkOptions (Some "typewriter") None None None None None None None None
                  None None None None noOverrides []);
     CallUpdate (frameAt 2)]
    (init noParams).

(** The particle count, the split index and the split uniform. *)
Definition splitView (s : Engine) : Z * Z * Z :=
  (count s, splitPoint s, ui (uniforms s) uGroupSplit).

(** The convergence and sweep of the main slot, and the uniforms that
    carry them to the kernel. *)
Definition mainView (s : Engine) : Q * Q * Q * Q * (Q * Q * Q * Q) :=
  (convergence (main s), currentSweepX (main s), currentSweepY (main s),
   currentSweepZ (main s),
   (uf (uniforms s) uConvergence, uf (uniforms s) uSweepX,
    uf (uniforms s) uSweepY, uf (uniforms s) uSweepZ)).

(** The same for group B. *)
Definition slotBView (s : Engine) : Q * Q * Q * Q * (Q * Q * Q * Q) :=
  (convergence (slotB s), currentSweepX (slotB s), currentSweepY (slotB s),
   currentSweepZ (slotB s),
   (uf (uniforms s) uConvergenceB, uf (uniforms s) uSweepXB,
    uf (uniforms s) uSweepYB, uf (uniforms s) uSweepZB)).

Definition slotBUniformsSynced (s : Engine) : Prop :=
  uf (uniforms s) uConvergenceB = convergence (slotB s)
  /\ uf (uniforms s) uSweepXB = currentSweepX (slotB s)
  /\ uf (uniforms s) uSweepYB = currentSweepY (slotB s)
  /\ uf (uniforms s) uSweepZB = currentSweepZ (slotB s).

(** The value a macro scalar is eased toward, and the rate of the easing. *)
Definition easeTarget (ov : option Overrides) (k : Overrides -> option Q)
    (ambient : Q) : Q :=
  nullish (optField ov k) ambient.

Definition easeRate (ov : option Overrides) (k : Overrides -> option Q) : Q :=
  if notNull (optField ov k) then ovRate ov else rate.

(** A second text, set for group B while the first is held. *)
Definition splitRun : Engine :=
  run uniformRaster [CallSetText "CD" groupBOptions] heldRun.

(** The convergence and sweep of one slot. *)
Definition slotView (b : Slot) : Q * Q * Q * Q :=
  (convergence b, currentSweepX b, currentSweepY b, currentSweepZ b).

(** The state in which [update] reaches the text-time tracking. *)
Definition beforeTextTime (tk : Tick) (s : Engine) : Engine :=
  s |> clockStage tk
    |> macroStage tk
    |> dissolveStage
    |> convergenceStage
    |> slotBStage tk
    |> formationStage tk
    |> animatedFlowStage tk.

(** The start time the formation block works with: the recorded one, or
    the current time on the first tick of a formation. *)
Definition formationStart (tk : Tick) (s : Engine) : Q :=
  if Qltb (formationStartTime (main s)) 0 then elapsedTime tk
  else formationStartTime (main s).

(** [cd'] is the record [cd], possibly revealed since. *)
Definition revealedFrom (cd cd' : CharRec) : Prop :=
  startIdx cd' = startIdx cd /\ cnt cd' = cnt cd /\ nPoints cd' = nPoints cd
  /\ (revealed cd = true -> revealed cd' = true).

(** A text set on a fresh engine, before any tick. *)
Definition freshText : Engine :=
  run uniformRaster [CallSetText "AB" directSnap] (init noParams).

(** The uniforms that decide how the kernel resolves and flattens
    targets. *)
Definition targetView (s : Engine) : Q * (Z * Z * Z * Z * Z) :=
  (uf (uniforms s) uFlattenZ,
   (ui (uniforms s) uGPUPatternId, ui (uniforms s) uNumLayers,
    ui (uniforms s) uBgPatternId, ui (uniforms s) uGroupSplit,
    ui (uniforms s) uGPUPatternIdB)).

(** A live particle away from its target, with some velocity. *)
Definition drifting : Kernel.Particle :=
  Kernel.mkParticle (mkV3 1%R 2%R 3%R) (mkV3 0%R 0%R 1%R) (mkV3 0%R 0%R 0.5%R)
                    5%R 5%R.

(** A pattern section that sends every target to the origin. *)
Definition toOrigin (_ : Z) (_ : V3 R) (_ : R) (_ _ : Z) : V3 R :=
  mkV3 0%R 0%R 0%R.

(** * The caller: lyric scheduling

    The player ([MVEngine]) owns the lyric list and drives the particle
    engine from it: [_processLyrics] on every frame, [seekToTime] on a
    seek. *)

(** One entry of [this.lyrics].  The keys that the player hands on under
    the same names ([animation], [viewDirection], [maxConvergence], ...,
    the physics keys and the rasteriser keys) are kept as an options bag
    in [ly_keys]. *)
Record Lyric : Type := mkLyric {
  ly_index : Z;
  ly_time : Q;
  ly_text : option string;
  ly_textB : option string;
  ly_mode : option string;
  ly_pattern : option string;
  ly_layers : option (list Layer);
  ly_origin : option (option Q * option Q * option Q);
  ly_scale : option Q;
  ly_keys : Options
}.

(** [data.lyrics.map((lyric, index) => ({ ...lyric, index, fired: false }))],
    from the position [index] on. *)
Fixpoint loadLyricsFrom (index : Z) (data : list Lyric) : list Lyric :=
  match data with
  | [] => []
  | lyric :: rest =>
      mkLyric index (ly_time lyric) (ly_text lyric) (ly_textB lyric)
              (ly_mode lyric) (ly_pattern lyric) (ly_layers lyric)
              (ly_origin lyric) (ly_scale lyric) (ly_keys lyric)
        :: loadLyricsFrom (index + 1) rest
  end.

Definition loadLyrics (data : list Lyric) : list Lyric :=
  loadLyricsFrom 0 data.

(** [this.firedLyricIndices], a [Set] of indices: [has], [add], [delete]. *)
Definition setHas (x : Z) (set : list Z) : bool := existsb (Z.eqb x) set.
Definition setAdd (x : Z) (set : list Z) : list Z :=
  if setHas x set then set else (set ++ [x])%list.
Definition setDelete (x : Z) (set : list Z) : list Z :=
  filter (fun y => negb (Z.eqb x y)) set.

(** The player's state, as far as the lyrics go. *)
Record Player : Type := mkPlayer {
  lyrics : list Lyric;
  firedLyricIndices : list Z;
  flowLookahead : option Q;        (** [this._flowLookahead] *)
  lyricsEnabled : bool;
  bdSeeking : bool;
  engine : Engine                  (** the first active component with [setText] *)
}.

Definition set_fired (f : list Z) (p : Player) : Player :=
  mkPlayer (lyrics p) f (flowLookahead p) (lyricsEnabled p) (bdSeeking p)
           (engine p).
Definition set_engine (e : Engine) (p : Player) : Player :=
  mkPlayer (lyrics p) (firedLyricIndices p) (flowLookahead p)
           (lyricsEnabled p) (bdSeeking p) e.

(** [_resetLyricsFromTime(time)] *)
Definition resetLyricsFromTime (time : Q) (p : Player) : Player :=
  set_fired
    (map ly_index (filter (fun lyric => Qle_bool (ly_time lyric) time) (lyrics p)))
    p.

(** [_resetLyricsInRange(startTime, endTime)] *)
Definition resetLyricsInRange (startTime endTime : Q) (p : Player) : Player :=
  set_fired
    (fold_left
       (fun fired lyric =>
          if Qle_bool startTime (ly_time lyric) && Qltb (ly_time lyric) endTime
          then setDelete (ly_index lyric) fired else fired)
       (lyrics p) (firedLyricIndices p))
    p.

(** [lyric.text && lyric.text.length > 0] *)
Definition hasText (lyric : Lyric) : bool := truthyOpt (ly_text lyric).

(** [lyric.mode === 'flow'] *)
Definition isFlow (lyric : Lyric) : bool :=
  match ly_mode lyric with Some m => String.eqb m "flow" | None => false end.

(** The effective fire time of a lyric: text fires 1.5 s early, flow
    [flowLookahead] early. *)
Definition effectiveTime (p : Player) (lyric : Lyric) : Q :=
  let textLookahead := 1.5 in
  let flowLookahead := orElseQ (flowLookahead p) 0 in
  if hasText lyric then ly_time lyric - textLookahead
  else if isFlow lyric then ly_time lyric - flowLookahead
  else ly_time lyric.

(** The loop of [_getActiveLyricAtTime] over the remaining lyrics;
    [bestTime = None] stands for [-Infinity]. *)
Fixpoint getActiveFrom (p : Player) (time : Q) (rest : list Lyric)
    (best : option Lyric) (bestTime : option Q) : option Lyric :=
  match rest with
  | [] => best
  | lyric :: rest' =>
      let eff := effectiveTime p lyric in
      if Qle_bool eff time
         && match bestTime with Some b => Qltb b eff | None => true end
      then getActiveFrom p time rest' (Some lyric) (Some eff)
      else getActiveFrom p time rest' best bestTime
  end.

(** [_getActiveLyricAtTime(time)] *)
Definition getActiveLyricAtTime (time : Q) (p : Player) : option Lyric :=
  getActiveFrom p time (lyrics p) None None.

(** [physicsOpts]: the physics keys of the lyric that are not null. *)
Definition physicsOpts (lyric : Lyric) : Options :=
  mkOptions None None None None None None None None None None None None None
            (o_physics (ly_keys lyric)) [].

(** The options the player builds for [setShadowSculptureTarget]. *)
Definition sculptureOptions (lyric : Lyric) : Options :=
  mkOptions None None (o_maxConvergence (ly_keys lyric))
            (o_holdDuration (ly_keys lyric)) (o_releaseSpeed (ly_keys lyric))
            None None None None None None None None
            (o_physics (ly_keys lyric)) [].

(** The options the player builds for [setText]. *)
Definition textOptions (lyric : Lyric) : Options :=
  let k := ly_keys lyric in
  mkOptions (o_animation k) (o_viewDirection k) (o_maxConvergence k)
            (o_holdDuration k) (o_releaseSpeed k) (o_dissolveMode k)
            (o_backgroundPattern k) (o_textRatio k)
            (Some (nullish (o_particleGroup k) 0%Z))
            (o_groupBPattern k) (o_groupBConvergence k) (o_groupBOrigin k)
            (o_groupBScale k) (o_physics k) (o_raster k).

(** [lyric.mode === 'sculpture' && lyric.textB] *)
Definition isSculpture (lyric : Lyric) : bool :=
  match ly_mode lyric with
  | Some m => String.eqb m "sculpture" && truthyOpt (ly_textB lyric)
  | None => false
  end.

(** The calls one lyric makes on the particle engine, shared by
    [_processLyrics] and [_reapplyLyric]. *)
Definition lyricCalls (lyric : Lyric) : list Command :=
  match ly_layers lyric with
  | Some layers =>
      (* Multi-layer flow *)
      [CallSetFlowTargetsMultiLayer layers; CallSetMode "flow" None noOptions]
  | None =>
      (* Single-layer origin/scale *)
      (match ly_origin lyric with
       | Some (x, y, z) =>
           [CallSetFlowOrigin (orElseQ x 0) (orElseQ y 0) (orElseQ z 0)]
       | None => []
       end)
      ++ (match ly_scale lyric with
          | Some scale => [CallSetFlowScale scale]
          | None => []
          end)
      ++ (if isSculpture lyric then
            [CallSetShadowSculptureTarget (nullish (ly_text lyric) "")
               (nullish (ly_textB lyric) "") (sculptureOptions lyric)]
          else if hasText lyric then
            [CallSetText (nullish (ly_text lyric) "") (textOptions lyric)]
          else [])
      ++ [CallSetMode (orElse (ly_mode lyric) "text") (ly_pattern lyric)
                      (physicsOpts lyric)]
  end%list.

(** [_reapplyLyric(lyric, seekTime)]: the calls on the engine. *)
Definition reapplyCalls (lyric : Lyric) (seekTime : Q) : list Command :=
  (lyricCalls lyric
   ++ (if hasText lyric && Qle_bool (ly_time lyric) seekTime
       then [CallSnapToTargets] else []))%list.

Section Player.

Variable sampleTextPositionsPerChar : string -> Options -> Z -> list Z.

Definition reapplyLyric (lyric : Lyric) (seekTime : Q) (p : Player) : Player :=
  set_engine
    (run sampleTextPositionsPerChar (reapplyCalls lyric seekTime) (engine p)) p.

(** The loop of [_processLyrics] over the remaining lyrics. *)
Fixpoint processFrom (currentTime : Q) (rest : list Lyric) (p : Player) : Player :=
  match rest with
  | [] => p
  | lyric :: rest' =>
      if setHas (ly_index lyric) (firedLyricIndices p) then
        processFrom currentTime rest' p
      else if Qle_bool (effectiveTime p lyric) currentTime then
        processFrom currentTime rest'
          (p |> set_fired (setAdd (ly_index lyric) (firedLyricIndices p))
             |> set_engine (run sampleTextPositionsPerChar (lyricCalls lyric)
                                (engine p)))
      else processFrom currentTime rest' p
  end.

(** [_processLyrics(currentTime)] *)
Definition processLyrics (currentTime : Q) (p : Player) : Player :=
  if negb (lyricsEnabled p) || bdSeeking p then p
  else processFrom currentTime (lyrics p) p.

(** [seekToTime(time)], as far as the lyrics and the engine go. *)
Definition seekToTime (time : Q) (p : Player) : Player :=
  let clamped := Qmax 0 time in
  let p := resetLyricsFromTime clamped p in
  match getActiveLyricAtTime clamped p with
  | Some active => reapplyLyric active clamped p
  | None => p
  end.

End Player.

(** The lyrics that a pass of [_processLyrics] at [currentTime] sends to
    the engine, in order: [fired] is the set as it stands when the pass
    reaches [rest]. *)
Fixpoint dueFrom (p : Player) (currentTime : Q) (rest : list Lyric)
    (fired : list Z) : list Lyric :=
  match rest with
  | [] => []
  | lyric :: rest' =>
      if setHas (ly_index lyric) fired then dueFrom p currentTime rest' fired
      else if Qle_bool (effectiveTime p lyric) currentTime then
        lyric :: dueFrom p currentTime rest' (setAdd (ly_index lyric) fired)
      else dueFrom p currentTime rest' fired
  end.

(** Example lyrics: a flow pattern at 0 s, a text at 10 s, a text at 20 s. *)
Definition flowLyric : Lyric :=
  mkLyric 0 0 None None (Some "flow") (Some "galaxySpin") None None None
          noOptions.
Definition helloLyric : Lyric :=
  mkLyric 1 10 (Some "HELLO") None None None None None None directSnap.
Definition worldLyric : Lyric :=
  mkLyric 2 20 (Some "WORLD") None None None None None None directSnap.

Definition examplePlayer : Player :=
  mkPlayer (loadLyrics [flowLyric; helloLyric; worldLyric]) [] None true false
           (init noParams).

(** [r] is the lyric that should be active at [time] among [ls]: the
    first one of greatest effective time among those whose effective time
    is not after [time]; none when every effective time is after [time]. *)
Definition activeAt (p : Player) (time : Q) (ls : list Lyric)
    (r : option Lyric) : Prop :=
  match r with
  | None => Forall (fun l => time < effectiveTime p l) ls
  | Some best =>
      exists before after,
        ls = (before ++ best :: after)%list
        /\ effectiveTime p best <= time
        /\ Forall (fun l => effectiveTime p l <= time ->
                            effectiveTime p l < effectiveTime p best) before
        /\ Forall (fun l => effectiveTime p l <= time ->
                            effectiveTime p l <= effectiveTime p best) after
  end.

(** * CPU generators ([flowPatterns.js]) *)

(** ** [kochCurve] *)

(** One element of [points]: [[x1, y1, x2, y2]]. *)
Definition Segment : Type := (Q * Q * Q * Q)%type.

(** [koch(x1, y1, x2, y2, depth)]; the array [points] that the calls push
    to is threaded through. *)
Fixpoint koch (x1 y1 x2 y2 : Q) (depth : nat) (points : list Segment)
    : list Segment :=
  match depth with
  | O => (points ++ [(x1, y1, x2, y2)])%list
  | S depth' =>
      let dx := x2 - x1 in
      let dy := y2 - y1 in
      let ax := x1 + dx / 3 in
      let ay := y1 + dy / 3 in
      let bx := x1 + dx * 2 / 3 in
      let by' := y1 + dy * 2 / 3 in
      let px := (ax + bx) / 2 - (by' - ay) * 0.866 in
      let py := (ay + by') / 2 + (bx - ax) * 0.866 in
      points |> koch x1 y1 ax ay depth'
             |> koch ax ay px py depth'
             |> koch px py bx by' depth'
             |> koch bx by' x2 y2 depth'
  end.

(** [points] after the three calls of [kochCurve]. *)
Definition kochPoints : list Segment :=
  let s := 1.0 in
  [] |> koch (- s) (- s * 0.577) s (- s * 0.577) 4
     |> koch s (- s * 0.577) 0 (s * 1.155) 4
     |> koch 0 (s * 1.155) (- s) (- s * 0.577) 4.

(** The segments run head to tail from [start] to [stop]. *)
Fixpoint chain (start : Q * Q) (segments : list Segment) (stop : Q * Q) : Prop :=
  match segments with
  | [] => start = stop
  | (x1, y1, x2, y2) :: rest => (x1, y1) = start /\ chain (x2, y2) rest stop
  end.

(** ** [fractalTree] *)

From Equations Require Import Equations.

(** One element of [branches]: [{ x, y, z, ex, ey, ez }]. *)
Record Branch : Type := mkBranch {
  b_x : R; b_y : R; b_z : R; b_ex : R; b_ey : R; b_ez : R
}.

Section FractalTree.

Local Open Scope R_scope.

(** [gen(x, y, z, angle, angleZ, len, depth)]; the array [branches] that
    the calls push to is threaded through.  The recursion ends because
    [depth] grows up to 7. *)
Equations gen (x y z angle angleZ len : R) (depth : nat)
    (branches : list Branch) : list Branch by wf (8 - depth)%nat lt :=
gen x y z angle angleZ len depth branches
  with (7 <? depth)%nat || (5000 <? Z.of_nat (length branches))%Z => {
  | true => branches
  | false with Compare_dec.lt_dec depth 7 => {
    | left _ =>
        let ex := x + cos angle * cos angleZ * len in
        let ey := y + sin angleZ * len in
        let ez := z + sin angle * cos angleZ * len in
        let nl := len * 0.67 in
        gen ex ey ez (angle + 0.2) (angleZ - 0.1) nl (depth + 1)
          (gen ex ey ez (angle - 0.5) (angleZ + 0.2) nl (depth + 1)
             (gen ex ey ez (angle + 0.5) (angleZ + 0.3) nl (depth + 1)
                (branches ++ [mkBranch x y z ex ey ez])))
    | right _ =>
        let ex := x + cos angle * cos angleZ * len in
        let ey := y + sin angleZ * len in
        let ez := z + sin angle * cos angleZ * len in
        (branches ++ [mkBranch x y z ex ey ez])%list
    }
  }.
Next Obligation.
  intros. do 7 (destruct depth as [ | depth ]; [ cbn; lia | ]). lia.
Qed.
Next Obligation.
  intros. do 7 (destruct depth as [ | depth ]; [ cbn; lia | ]). lia.
Qed.
Next Obligation.
  intros. do 7 (destruct depth as [ | depth ]; [ cbn; lia | ]). lia.
Qed.

(** [branches] after the call [gen(0, -2, 0, 0, Math.PI / 2, 1.0, 0)] of
    [fractalTree]. *)
Definition fractalTreeBranches : list Branch :=
  gen 0 (-2) 0 0 (PI / 2) 1.0 0 [].

End FractalTree.

(** The number of nodes of a ternary tree with [levels] levels. *)
Fixpoint treeSize (levels : nat) : nat :=
  match levels with
  | O => O
  | S k => (1 + 3 * treeSize k)%nat
  end.

(** The uniforms of the multi-layer block. *)
Definition layerView (s : Engine)
    : Z * (Z * Z * Z * Z) * (V3 Q * V3 Q * V3 Q * V3 Q) * (Q * Q * Q * Q) :=
  (ui (uniforms s) uNumLayers,
   (ui (uniforms s) uLayerPatternId0, ui (uniforms s) uLayerPatternId1,
    ui (uniforms s) uLayerPatternId2, ui (uniforms s) uLayerPatternId3),
   (uv (uniforms s) uLayerOrigin0, uv (uniforms s) uLayerOrigin1,
    uv (uniforms s) uLayerOrigin2, uv (uniforms s) uLayerOrigin3),
   (uf (uniforms s) uLayerScale0, uf (uniforms s) uLayerScale1,
    uf (uniforms s) uLayerScale2, uf (uniforms s) uLayerScale3)).

(** A lyric with two layers. *)
Definition twoLayers : list Layer :=
  [mkLayer "galaxySpin" (Some (mkV3 1 0 0)) (Some 2);
   mkLayer "vortexDrain" None None].
Definition layeredLyric : Lyric :=
  mkLyric 0 0 None None None None (Some twoLayers) None None noOptions.

(** * GPU flow patterns ([gpuFlowPatterns]) *)

Section GPUPatterns.

Local Open Scope R_scope.
Import Kernel.

(** [hash(vec2(x, y))] *)
Variable hash2 : R -> R -> R.

(** [floor], [ceil], [fract], [step(edge, x)] and [pow] of the shading
    language; [pow] is taken on positive bases, and is 0 at 0. *)
Definition floorR (x : R) : R := IZR (Int_part x).
Definition ceilR (x : R) : R := - IZR (Int_part (- x)).
Definition fract (x : R) : R := x - floorR x.
Definition step (edge x : R) : R := toFloat (Rleb edge x).
Definition pow (x y : R) : R := if Rle_dec x 0 then 0 else Rpower x y.

(** Deterministic per-particle random [[0, 1]]. *)
Definition h (fi : R) (seed : Z) : R := hash2 fi (IZR seed).
(** Per-particle random [[-0.5, 0.5]]. *)
Definition hn (fi : R) (seed : Z) : R := hash2 fi (IZR seed) - 0.5.

(** Fibonacci sphere distribution. *)
Definition fibSphere (fi N r : R) : V3 R :=
  let theta := fract (fi * 2.399963) * 6.2831853 in
  let cosP := 1 - fi / N * 2 in
  let sinP := sqrt (1 - cosP * cosP) in
  mkV3 (sinP * cos theta * r) (sinP * sin theta * r) (cosP * r).

(** Random spherical point (hash-based). *)
Definition randSphere (fi radius : R) (seedBase : Z) : V3 R :=
  let r1 := h fi seedBase in
  let r2 := h fi (seedBase + 1) in
  let r3 := h fi (seedBase + 2) in
  let theta := r1 * 6.2831853 in
  let cosP := r2 * 2 - 1 in
  let sinP := sqrt (1 - cosP * cosP) in
  let r := pow r3 0.333333 * radius in
  mkV3 (sinP * cos theta * r) (sinP * sin theta * r) (cosP * r).

(** Random spherical surface point. *)
Definition randSphereSurface (fi radius : R) (seedBase : Z) : V3 R :=
  let r1 := h fi seedBase in
  let r2 := h fi (seedBase + 1) in
  let theta := r1 * 6.2831853 in
  let cosP := r2 * 2 - 1 in
  let sinP := sqrt (1 - cosP * cosP) in
  mkV3 (sinP * cos theta * radius) (sinP * sin theta * radius) (cosP * radius).

(** 2: cubeWave *)
Definition cubeWave (fi N time : R) : V3 R :=
  let cubes := 10 in
  let cubeSize := 0.5 in
  let spacing := 1.0 in
  let cycleTime := 3.0 in
  let perCube := ceilR (N / cubes) in
  let c := clamp (floorR (fi / perCube)) 0 9 in
  let cx := (c - cubes * 0.5) * spacing in
  let delay := c * 0.2 in
  let t := fmod (time - delay) cycleTime in
  let scale := clamp (Rmin (t / 0.5) (Rmin 1.0 (1 - (t - 1.5) / 0.5))) 0.0 1.0
               * step t 2.0 in
  let s := cubeSize * scale in
  let isSmall := step s 0.01 in
  mkV3 (cx + mix (hn fi 1 * s) (hn fi 4 * 3) isSmall)
       (mix (hn fi 2 * s) (hn fi 5 * 3) isSmall)
       (mix (hn fi 3 * s) (hn fi 6 * 3) isSmall).

(** 3: rollingWave *)
Definition rollingWave (fi sideF time : R) : V3 R :=
  let side := sideF in
  let sc := 0.8 in
  let x := (fmod fi side - side * 0.5) / side * 8 in
  let z := (floorR (fi / side) - side * 0.5) / side * 8 in
  let y := sin (x * 1.5 - time * 2) * 0.6 + sin (z * 1.2 - time * 1.3) * 0.3 in
  mkV3 (x * sc) (y * sc) (z * sc).

(** 4: orbiting *)
Definition orbiting (fi N time : R) : V3 R :=
  let rings := 8 in
  let perRing := ceilR (N / rings) in
  let r := clamp (floorR (fi / perRing)) 0 7 in
  let j := fmod fi perRing in
  let radius := 0.5 + r * 0.3 in
  let speed := (1.0 + r * 0.3) * mix 1 (-1) (fmod r 2) in
  let tilt := r / rings * (3.14159 * 0.5) in
  let angle := j / perRing * 6.2831853 + time * speed in
  let x := cos angle * radius in
  let y0 := sin angle * radius in
  mkV3 x (y0 * cos tilt) (y0 * sin tilt).

(** 5: breathingSphere *)
Definition breathingSphere (fi N time : R) : V3 R :=
  let r := 1.5 + sin (time * 1.5) * 0.8 in
  fibSphere fi N r.

(** 6: pendulumWave *)
Definition pendulumWave (fi N time : R) : V3 R :=
  let pendulums := 20 in
  let perP := ceilR (N / pendulums) in
  let p := clamp (floorR (fi / perP)) 0 19 in
  let j := fmod fi perP in
  let freq := 0.8 + p * 0.08 in
  let angle := sin (time * freq) * 1.2 in
  let len := 2.0 in
  let px := (p - pendulums * 0.5) * 0.3 in
  let bobX := px + sin angle * len in
  let bobY := - cos angle * len in
  let t := j / perP in
  let isString := step t 0.3 in
  let st := t / 0.3 in
  let strX := px + (bobX - px) * st + hn fi 1 * 0.02 in
  let strY := 1.5 + (bobY - 1.5) * st in
  let strZ := hn fi 2 * 0.02 in
  let bobSp := randSphereSurface fi 0.12 3 in
  mkV3 (mix (bobX + vx bobSp) strX isString)
       (mix (bobY + vy bobSp) strY isString)
       (mix (vz bobSp) strZ isString).

(** 7: galaxySpin *)
Definition galaxySpin (fi N time : R) : V3 R :=
  let arms := 3 in
  let sc := 1.6 in
  let arm := fmod fi arms in
  let t := fi / N * 8 in
  let angle := t + arm / arms * 6.2831853 + time * 0.15 in
  let r := sqrt t * 0.45 in
  let jx := hn fi 1 * 0.06 * sqrt (r + 0.1) in
  let jy := hn fi 2 * 0.06 * sqrt (r + 0.1) in
  mkV3 ((cos angle * r + jx) * sc) (hn fi 3 * 0.1) ((sin angle * r + jy) * sc).

(** 8: vortexDrain *)
Definition vortexDrain (fi N time : R) : V3 R :=
  let t := fi / N in
  let baseR := 0.3 + t * 2.5 in
  let speed := 2.0 / (baseR + 0.3) in
  let angle := t * 37.699 + time * speed in
  let y := - t * 2 + 1 + sin (time * 0.5) * 0.3 in
  mkV3 (cos angle * baseR) y (sin angle * baseR).

(** 9: ripplePool *)
Definition ripplePool (fi sideF time : R) : V3 R :=
  let side := sideF in
  let x := (fmod fi side - side * 0.5) / side * 6 in
  let z := (floorR (fi / side) - side * 0.5) / side * 6 in
  let s1x := sin (time * 0.3) * 1.5 in
  let s1z := cos (time * 0.4) * 1.5 in
  let s2x := cos (time * 0.5) * 1.5 in
  let s2z := sin (time * 0.6) * 1.5 in
  let d1 := sqrt ((x - s1x) * (x - s1x) + (z - s1z) * (z - s1z)) in
  let d2 := sqrt ((x - s2x) * (x - s2x) + (z - s2z) * (z - s2z)) in
  let d3 := sqrt (x * x + z * z) in
  let y := sin (d1 * 3 - time * 4) * 0.2 / (d1 + 0.5)
           + sin (d2 * 3 - time * 4) * 0.2 / (d2 + 0.5)
           + sin (d3 * 3 - time * 4) * 0.2 / (d3 + 0.5) in
  mkV3 x y z.

(** 10: flowField *)
Definition flowField (fi N time : R) : V3 R :=
  let a := fi * 0.001 + 17 in
  let startX := sin a * 2.5 in
  let startY := sin (a * 1.3 + 14) * 2.5 in
  let startZ := sin (a * 1.7 + 30) * 1.5 in
  let flowT := fmod (fi / N + time * 0.1) 1.0 in
  mkV3 (startX + sin (startY * 2 + time * 0.5) * flowT * 2)
       (startY + sin (startX * 2 + time * 0.3 + 1.5708) * flowT * 1.5)
       (startZ + sin (time * 0.4 + startX) * flowT).

(** 11: auroraCurtain *)
Definition auroraCurtain (fi N time : R) : V3 R :=
  let t := fi / N in
  let curtainX := t * 6 - 3 in
  let waveY := sin (curtainX * 1.5 + time * 0.4) * 0.3 in
  let curtainH := h fi 1 * 2.5 + 0.5 in
  let sway := sin (time * 0.6 + curtainX * 0.8) * 0.3 in
  let fold := sin (curtainX * 3 - time * 0.7) * 0.2 in
  let shimmer := sin (time * 3 + fi * 0.01) * 0.03 in
  let py := curtainH + waveY + shimmer in
  let pz := fold + sway + sin (curtainH * 2 - time) * 0.1 in
  mkV3 (curtainX * 0.5) py pz.

(** 12: perlinFlow3d *)
Definition perlinFlow3d (fi time : R) : V3 R :=
  let baseP := randSphere fi 2.5 1 in
  let freq := 1.5 in
  let flowX := sin (vy baseP * freq + time * 0.5)
               * cos (vz baseP * freq - time * 0.3) in
  let flowY := sin (vz baseP * freq + time * 0.4)
               * cos (vx baseP * freq - time * 0.2) in
  let flowZ := sin (vx baseP * freq + time * 0.3)
               * cos (vy baseP * freq - time * 0.4) in
  let amplitude := 0.6 in
  mkV3 (vx baseP + flowX * amplitude) (vy baseP + flowY * amplitude)
       (vz baseP + flowZ * amplitude).

(** 13: flowingSilk *)
Definition flowingSilk (fi sideF : R) : V3 R :=
  let side := sideF in
  let ix := (fmod fi side / side - 0.5) * 5 in
  let iz := (floorR (fi / side) / side - 0.5) * 4 in
  let drape1 := sin (ix * 1.5) * 0.4 in
  let drape2 := cos (iz * 2) * 0.2 in
  let fold := sin (ix * 4 + iz * 3) * 0.1 in
  mkV3 (ix * 0.4) (drape1 + drape2 + fold) (iz * 0.5).

(** [buildGPUTargetSection(i, target, time, patternId, COUNT)]: the new
    value of [target]. *)
Definition buildGPUTargetSection (i : Z) (target : V3 R) (time : R)
    (patternId COUNT : Z) : V3 R :=
  let fi := IZR i in
  let N := IZR COUNT in
  let sqrtN := ceilR (sqrt (IZR COUNT)) in
  let sideF := sqrtN in
  if (patternId =? 1)%Z then randSphere fi 3.5 1
  else if (patternId =? 2)%Z then cubeWave fi N time
  else if (patternId =? 3)%Z then rollingWave fi sideF time
  else if (patternId =? 4)%Z then orbiting fi N time
  else if (patternId =? 5)%Z then breathingSphere fi N time
  else if (patternId =? 6)%Z then pendulumWave fi N time
  else if (patternId =? 7)%Z then galaxySpin fi N time
  else if (patternId =? 8)%Z then vortexDrain fi N time
  else if (patternId =? 9)%Z then ripplePool fi sideF time
  else if (patternId =? 10)%Z then flowField fi N time
  else if (patternId =? 11)%Z then auroraCurtain fi N time
  else if (patternId =? 12)%Z then perlinFlow3d fi time
  else if (patternId =? 13)%Z then flowingSilk fi sideF
  else target.

End GPUPatterns.

(** A sculpture lyric. *)
Definition sculptureLyric : Lyric :=
  mkLyric 0 0 (Some "A") (Some "B") (Some "sculpture") None None None None
          noOptions.

(** * Properties *)

(** ** Comparisons *)

(** Linear arithmetic over the host numbers and over the kernel numbers. *)
Ltac qlra := Lqa.lra.
Ltac rlra := Lra.lra.

Lemma Qltb_true x y : Qltb x y = true <-> x < y.
Proof.
  unfold Qltb. destruct (Qlt_le_dec x y) as [Hlt | Hle]; split; intro H;
    try reflexivity; try assumption; try discriminate.
  exfalso. apply (Qlt_not_le _ _ H Hle).
Qed.

Lemma Qltb_false x y : Qltb x y = false <-> y <= x.
Proof.
  unfold Qltb. destruct (Qlt_le_dec x y) as [Hlt | Hle]; split; intro H;
    try reflexivity; try assumption; try discriminate.
  exfalso. apply (Qlt_not_le _ _ Hlt H).
Qed.

Lemma Phase_beq_eq p q : Phase_beq p q = true <-> p = q.
Proof. destruct p, q; simpl; split; intro H; try reflexivity; discriminate. Qed.

(** ** Which fields a stage assigns *)

Ltac case_if :=
  match goal with
  | |- context [if ?c then _ else _] => destruct c eqn:?
  | |- context [match ?c with Some _ => _ | None => _ end] => destruct c eqn:?
  end.

Ltac stage_frame := repeat case_if; cbn; repeat split; reflexivity.

Lemma sameSetup_refl s : sameSetup s s.
Proof. unfold sameSetup. repeat split; reflexivity. Qed.

Lemma sameSetup_trans s1 s2 s3 :
  sameSetup s1 s2 -> sameSetup s2 s3 -> sameSetup s1 s3.
Proof.
  unfold sameSetup. intros H1 H2.
  decompose [and] H1. decompose [and] H2.
  repeat split; congruence.
Qed.

Lemma clockStage_setup tk s : sameSetup s (clockStage tk s).
Proof. unfold clockStage, sameSetup. stage_frame. Qed.

Lemma macroStage_setup tk s : sameSetup s (macroStage tk s).
Proof. unfold macroStage, sameSetup. stage_frame. Qed.

Lemma dissolveStage_setup s : sameSetup s (dissolveStage s).
Proof. unfold dissolveStage, sameSetup. stage_frame. Qed.

Lemma convergenceStage_setup s : sameSetup s (convergenceStage s).
Proof. unfold convergenceStage, sameSetup. stage_frame. Qed.

Lemma slotBStage_setup tk s : sameSetup s (slotBStage tk s).
Proof. unfold slotBStage, sameSetup. stage_frame. Qed.

Lemma formationStage_setup tk s : sameSetup s (formationStage tk s).
Proof.
  unfold formationStage, sameSetup.
  destruct (formationPending (main s)); [ | stage_frame ].
  destruct (charData (main s)) as [chars | ]; [ | stage_frame ].
  destruct (animDef _) as [delay stagger].
  destruct (revealLoop _ _ _ _ _ _) as [[chars' ws] allRevealed].
  stage_frame.
Qed.

Lemma animatedFlowStage_setup tk s : sameSetup s (animatedFlowStage tk s).
Proof. unfold animatedFlowStage, sameSetup. stage_frame. Qed.

Lemma textTimeStage_setup tk s : sameSetup s (textTimeStage tk s).
Proof. unfold textTimeStage, sameSetup. stage_frame. Qed.

Lemma holdStage_setup tk s : sameSetup s (holdStage tk s).
Proof. unfold holdStage, sameSetup. stage_frame. Qed.

Lemma beforeDissolve_setup tk s : sameSetup s (beforeDissolve tk s).
Proof.
  unfold beforeDissolve.
  eapply sameSetup_trans; [ | apply textTimeStage_setup ].
  eapply sameSetup_trans; [ | apply animatedFlowStage_setup ].
  eapply sameSetup_trans; [ | apply formationStage_setup ].
  eapply sameSetup_trans; [ | apply slotBStage_setup ].
  eapply sameSetup_trans; [ | apply convergenceStage_setup ].
  eapply sameSetup_trans; [ | apply dissolveStage_setup ].
  eapply sameSetup_trans; [ | apply macroStage_setup ].
  apply clockStage_setup.
Qed.

Lemma atRelease_setup tk s : sameSetup s (atRelease tk s).
Proof.
  unfold atRelease.
  eapply sameSetup_trans; [ apply beforeDissolve_setup | apply holdStage_setup ].
Qed.

(** ** The macro state through a tick *)

Lemma clockStage_main tk s : main (clockStage tk s) = main s.
Proof. unfold clockStage. stage_frame. Qed.

Lemma clockStage_macro tk s : macro (clockStage tk s) = macro s.
Proof. unfold clockStage. stage_frame. Qed.

Lemma macroStage_main tk s : main (macroStage tk s) = main s.
Proof. reflexivity. Qed.

Lemma macroStage_macro tk s :
  macro (macroStage tk s)
  = easeMacro (physicsOverrides (main s)) (activeRow (authoredTime tk)) (macro s).
Proof. reflexivity. Qed.

Lemma dissolveStage_main s : main (dissolveStage s) = main s.
Proof. unfold dissolveStage. stage_frame. Qed.

Lemma dissolveStage_macro s : macro (dissolveStage s) = macro s.
Proof. unfold dissolveStage. stage_frame. Qed.

Lemma convergenceStage_macro s : macro (convergenceStage s) = macro s.
Proof. reflexivity. Qed.

Lemma slotBStage_main tk s : main (slotBStage tk s) = main s.
Proof. unfold slotBStage. stage_frame. Qed.

Lemma slotBStage_macro tk s : macro (slotBStage tk s) = macro s.
Proof. unfold slotBStage. stage_frame. Qed.

Lemma formationStage_macro tk s : macro (formationStage tk s) = macro s.
Proof.
  unfold formationStage.
  destruct (formationPending (main s)); [ | reflexivity ].
  destruct (charData (main s)) as [chars | ]; [ | reflexivity ].
  destruct (animDef _) as [delay stagger].
  destruct (revealLoop _ _ _ _ _ _) as [[chars' ws] allRevealed].
  stage_frame.
Qed.

Lemma animatedFlowStage_main tk s : main (animatedFlowStage tk s) = main s.
Proof. unfold animatedFlowStage. stage_frame. Qed.

Lemma animatedFlowStage_macro tk s : macro (animatedFlowStage tk s) = macro s.
Proof. unfold animatedFlowStage. stage_frame. Qed.

Lemma setFlowTargets_macro pattern options s :
  macro (setFlowTargets pattern options s) = macro s.
Proof. unfold setFlowTargets. stage_frame. Qed.

Lemma onMain_macro f s : macro (onMain f s) = macro s.
Proof. reflexivity. Qed.

Lemma releaseStage_macro s : macro (releaseStage s) = macro s.
Proof.
  unfold releaseStage. destruct (released (main s)); [ | reflexivity ].
  rewrite !onMain_macro, setFlowTargets_macro. reflexivity.
Qed.

Lemma beforeDissolve_macro tk s :
  macro (beforeDissolve tk s)
  = easeMacro (physicsOverrides (main s)) (activeRow (authoredTime tk)) (macro s).
Proof.
  unfold beforeDissolve, textTimeStage.
  rewrite onMain_macro, animatedFlowStage_macro, formationStage_macro,
    slotBStage_macro, convergenceStage_macro, dissolveStage_macro,
    macroStage_macro, clockStage_main, clockStage_macro.
  reflexivity.
Qed.

Lemma update_macro tk s :
  macro (update tk s)
  = easeMacro (physicsOverrides (main s)) (activeRow (authoredTime tk)) (macro s).
Proof.
  unfold update. rewrite releaseStage_macro. unfold holdStage.
  rewrite onMain_macro. apply beforeDissolve_macro.
Qed.

(** ** The active macro row *)

Lemma activeRowFrom_spec t dflt rows :
  (exists before after,
      rows = (before ++ activeRowFrom t rows dflt :: after)%list
      /\ t < p_end (activeRowFrom t rows dflt)
      /\ Forall (fun p => p_end p <= t) before)
  \/ (Forall (fun p => p_end p <= t) rows /\ activeRowFrom t rows dflt = dflt).
Proof.
  induction rows as [ | p rest IH ]; simpl.
  - right. split; [ constructor | reflexivity ].
  - destruct (Qltb t (p_end p)) eqn:Hlt.
    + left. exists [], rest. repeat split.
      * apply Qltb_true. exact Hlt.
      * constructor.
    + apply Qltb_false in Hlt.
      destruct IH as [(before & after & Hrows & Hend & Hbefore) | [Hall Hd]].
      * left. exists (p :: before), after. repeat split.
        -- simpl. f_equal. exact Hrows.
        -- exact Hend.
        -- constructor; assumption.
      * right. split; [ constructor; assumption | exact Hd ].
Qed.

Lemma easeScalar_under ov k ambient old :
  easedUnder ov k ambient old (easeScalar ov k ambient old).
Proof.
  unfold easedUnder, easeScalar, easedToward, ovRate, rate.
  destruct (optField ov k) as [v | ]; reflexivity.
Qed.

(** C9, as the code has it.  On every tick the active macro row is the
    first row of [MACRO_PHASES] whose end time strictly exceeds the time
    [t = musicTime || elapsedTime] (the last row when there is none): [t]
    is the tick's authored [musicTime] when one is given and is not zero,
    and the tick's [elapsedTime] when none is given or when it is zero.
    Each of the ten scalars of the macro state is eased as
    [value += (targetValue - value) * rate]: toward the override value at
    the rate [lerpRate ?? 0.005] when the per-command physics overrides
    supply that scalar, toward the ambient value of the row (the constant
    0 for gravity, which the rows do not carry) at the rate 0.005
    otherwise. *)
Theorem C9_macro_easing (tk : Tick) (s : Engine) :
  let t := authoredTime tk in
  let row := activeRow t in
  let ov := physicsOverrides (main s) in
  let m := macro s in
  let m' := macro (update tk s) in
  ((forall mt, musicTime tk = Some mt -> ~ mt == 0 -> t = mt)
   /\ (forall mt, musicTime tk = Some mt -> mt == 0 -> t = elapsedTime tk)
   /\ (musicTime tk = None -> t = elapsedTime tk))
  /\ (firstRowAfter t row
      \/ (Forall (fun p => p_end p <= t) MACRO_PHASES
          /\ row = last MACRO_PHASES lastRow))
  /\ easedUnder ov ov_noiseStrength (p_noiseStr row) (m_noiseStr m) (m_noiseStr m')
  /\ easedUnder ov ov_noiseScale (p_noiseScl row) (m_noiseScl m) (m_noiseScl m')
  /\ easedUnder ov ov_spring (p_spring row) (m_spring m) (m_spring m')
  /\ easedUnder ov ov_damping (p_damp row) (m_damp m) (m_damp m')
  /\ easedUnder ov ov_vortex (p_vortex row) (m_vortex m) (m_vortex m')
  /\ easedUnder ov ov_wave (p_wave row) (m_wave m) (m_wave m')
  /\ easedUnder ov ov_gravity 0 (m_gravity m) (m_gravity m')
  /\ easedUnder ov ov_convUp (p_convUp row) (m_convUp m) (m_convUp m')
  /\ easedUnder ov ov_convDn (p_convDn row) (m_convDn m) (m_convDn m')
  /\ easedUnder ov ov_pointScale (p_pointScale row) (m_pointScale m) (m_pointScale m').
Proof.
  intros t row ov m m'.
  split; [ | split ].
  - unfold t, authoredTime, orElseQ.
    split; [ | split ].
    + intros mt Hmt Hnz. rewrite Hmt.
      destruct (Qeq_bool mt 0) eqn:Hz; [ | reflexivity ].
      apply Qeq_bool_eq in Hz. contradiction.
    + intros mt Hmt Hz. rewrite Hmt.
      apply Qeq_eq_bool in Hz. rewrite Hz. reflexivity.
    + intro Hmt. rewrite Hmt. reflexivity.
  - unfold row, activeRow, firstRowAfter.
    destruct (activeRowFrom_spec t lastRow MACRO_PHASES) as [H | [Hall Hd]].
    + left. exact H.
    + right. split; [ exact Hall | rewrite Hd; reflexivity ].
  - unfold m'. rewrite update_macro. fold t row ov m. unfold easeMacro.
    cbn [m_noiseStr m_noiseScl m_spring m_damp m_vortex m_wave m_gravity
         m_convUp m_convDn m_pointScale].
    repeat split; apply easeScalar_under.
Qed.

Lemma C9_macro_easing_witness :
  musicTime midSong = Some 20
  /\ ~ 20 == 0
  /\ authoredTime midSong = 20
  /\ musicTime beforePlayback = Some 0
  /\ authoredTime beforePlayback = elapsedTime beforePlayback
  /\ musicTime (frameAt 50) = None
  /\ authoredTime (frameAt 50) = elapsedTime (frameAt 50).
Proof.
  assert (H1 : musicTime midSong = Some 20) by reflexivity.
  assert (H2 : ~ 20 == 0) by (vm_compute; discriminate).
  assert (H3 : musicTime beforePlayback = Some 0) by reflexivity.
  assert (H4 : 0 == 0) by reflexivity.
  assert (H5 : musicTime (frameAt 50) = None) by reflexivity.
  split; [ exact H1 | ]. split; [ exact H2 | ].
  split;
    [ exact (proj1 (proj1 (C9_macro_easing midSong (init noParams))) 20 H1 H2)
    | ].
  split; [ exact H3 | ].
  split;
    [ exact (proj1 (proj2 (proj1 (C9_macro_easing beforePlayback
                                    (init noParams)))) 0 H3 H4)
    | ].
  split; [ exact H5 | ].
  exact (proj2 (proj2 (proj1 (C9_macro_easing (frameAt 50) (init noParams))))
           H5).
Defined.

(** C9, as stated, fails on a tick whose authored time is 0 while the
    wall clock has advanced: with [musicTime = 0] and [elapsedTime = 50] on
    a fresh engine without overrides, the first row whose end time exceeds
    the authored time 0 is the one ending at 11, but the code selects by
    the elapsed time 50 and takes the row ending at 66, which is not the
    first row ending after 0, and the noise strength is eased toward
    0.00030, not toward 0.00008. *)
Lemma C9_counterexample :
  let s := init noParams in
  let claimed := nth 0 MACRO_PHASES lastRow in
  let used := nth 3 MACRO_PHASES lastRow in
  musicTime beforePlayback = Some 0
  /\ elapsedTime beforePlayback = 50
  /\ physicsOverrides (main s) = None
  /\ firstRowAfter 0 claimed
  /\ p_end claimed = 11
  /\ p_end used = 66
  /\ activeRow (authoredTime beforePlayback) = used
  /\ ~ firstRowAfter 0 (activeRow (authoredTime beforePlayback))
  /\ ~ p_noiseStr claimed == p_noiseStr used
  /\ ~ m_noiseStr (macro (update beforePlayback s))
       == m_noiseStr (macro s)
          + (p_noiseStr claimed - m_noiseStr (macro s)) * 0.005
  /\ ~ easedUnder (physicsOverrides (main s)) ov_noiseStrength
         (p_noiseStr claimed)
         (m_noiseStr (macro s)) (m_noiseStr (macro (update beforePlayback s)))
  /\ easedUnder (physicsOverrides (main s)) ov_noiseStrength
       (p_noiseStr used)
       (m_noiseStr (macro s)) (m_noiseStr (macro (update beforePlayback s))).
Proof.
  intros s claimed used.
  assert (Hne : ~ m_noiseStr (macro (update beforePlayback s))
                  == m_noiseStr (macro s)
                     + (p_noiseStr claimed - m_noiseStr (macro s)) * 0.005).
  { rewrite (update_macro beforePlayback s). vm_compute. discriminate. }
  split; [ reflexivity | ]. split; [ reflexivity | ].
  split; [ vm_compute; reflexivity | ].
  split.
  { exists [], (tl MACRO_PHASES).
    split; [ reflexivity | ].
    split; [ vm_compute; reflexivity | constructor ]. }
  split; [ reflexivity | ]. split; [ reflexivity | ].
  split; [ vm_compute; reflexivity | ].
  split.
  { intros (before & after & Heq & _ & Hall).
    unfold MACRO_PHASES in Heq.
    destruct before as [ | p before ]; cbn [app] in Heq.
    - injection Heq as Hrow _. vm_compute in Hrow. discriminate Hrow.
    - injection Heq as Hp _. apply Forall_inv in Hall. rewrite <- Hp in Hall.
      vm_compute in Hall. apply Hall. reflexivity. }
  split; [ vm_compute; discriminate | ].
  split; [ exact Hne | ].
  split.
  - intro H. apply Hne.
    assert (Hov : optField (physicsOverrides (main s)) ov_noiseStrength = None)
      by (vm_compute; reflexivity).
    unfold easedUnder in H. rewrite Hov in H. unfold easedToward in H.
    rewrite H. reflexivity.
  - rewrite (update_macro beforePlayback s). vm_compute. reflexivity.
Qed.

(** ** Convergence through a tick *)

Lemma convergence_advance up dn b :
  convergence (advanceConvergence up dn b)
  = let c := convergence b + (targetConvergence b - convergence b) * convSpeed up dn b in
    if Qltb (maxConvergence b) 1.0 then Qmin c (maxConvergence b) else c.
Proof. reflexivity. Qed.

Lemma advanceConvergence_frame up dn b :
  let b' := advanceConvergence up dn b in
  phase b' = phase b /\ targetConvergence b' = targetConvergence b
  /\ maxConvergence b' = maxConvergence b /\ lastTextTime b' = lastTextTime b
  /\ holdDurationOverride b' = holdDurationOverride b
  /\ releaseSpeed b' = releaseSpeed b.
Proof. repeat split; reflexivity. Qed.

Lemma advanceSweep_convergence b :
  convergence (advanceSweep b) = convergence b.
Proof. reflexivity. Qed.

Lemma convergenceStage_convergence s :
  convergence (main (convergenceStage s))
  = convergence (advanceConvergence (m_convUp (macro s) * convUpScale s)
                                    (m_convDn (macro s) * convDnScale s) (main s)).
Proof. reflexivity. Qed.

Lemma trackTextTime_convergence t b :
  convergence (trackTextTime t b) = convergence b.
Proof. unfold trackTextTime. case_if; reflexivity. Qed.

Lemma holdCheck_convergence d t b :
  convergence (holdCheck d t b) = convergence b.
Proof. unfold holdCheck. repeat case_if; reflexivity. Qed.

Lemma formationStage_convergence tk s :
  convergence (main (formationStage tk s)) = convergence (main s).
Proof.
  unfold formationStage.
  destruct (formationPending (main s)); [ | reflexivity ].
  destruct (charData (main s)) as [chars | ]; [ | reflexivity ].
  destruct (animDef _) as [delay stagger].
  destruct (revealLoop _ _ _ _ _ _) as [[chars' ws] allRevealed].
  repeat case_if; reflexivity.
Qed.

Lemma setFlowTargets_convergence pattern options s :
  convergence (main (setFlowTargets pattern options s)) = convergence (main s).
Proof. unfold setFlowTargets. repeat case_if; reflexivity. Qed.

Lemma releaseStage_convergence s :
  convergence (main (releaseStage s)) = convergence (main s).
Proof.
  unfold releaseStage. destruct (released (main s)); [ | reflexivity ].
  unfold setFlowTargets. repeat case_if; reflexivity.
Qed.

Lemma beforeDissolve_convergence tk s :
  convergence (main (beforeDissolve tk s))
  = convergence (advanceConvergence
                   (m_convUp (macro (macroStage tk s)) * convUpScale s)
                   (m_convDn (macro (macroStage tk s)) * convDnScale s) (main s)).
Proof.
  unfold beforeDissolve, textTimeStage.
  change (convergence (main (onMain ?f ?x))) with (convergence (f (main x))).
  rewrite trackTextTime_convergence, animatedFlowStage_main,
    formationStage_convergence, slotBStage_main, convergenceStage_convergence.
  rewrite dissolveStage_macro, dissolveStage_main.
  destruct (dissolveStage_setup (macroStage tk (clockStage tk s)))
    as (_ & _ & Hup & Hdn & _).
  destruct (macroStage_setup tk (clockStage tk s)) as (_ & _ & Hup' & Hdn' & _).
  destruct (clockStage_setup tk s) as (_ & _ & Hup'' & Hdn'' & _).
  rewrite Hup, Hdn, Hup', Hdn', Hup'', Hdn''.
  rewrite !macroStage_macro, macroStage_main, clockStage_main, clockStage_macro.
  reflexivity.
Qed.

(** The main slot's convergence after a tick is the one computed by the
    asymmetric-convergence block from the macro state eased on that tick. *)
Lemma update_main_convergence tk s :
  convergence (main (update tk s))
  = convergence (advanceConvergence
                   (m_convUp (macro (update tk s)) * convUpScale s)
                   (m_convDn (macro (update tk s)) * convDnScale s) (main s)).
Proof.
  rewrite update_macro. unfold update.
  rewrite releaseStage_convergence. unfold holdStage.
  change (convergence (main (onMain ?f ?x))) with (convergence (f (main x))).
  rewrite holdCheck_convergence, beforeDissolve_convergence, macroStage_macro.
  reflexivity.
Qed.

(** The same block run for group B whenever the split is active. *)
Lemma slotBStage_convergence tk s :
  (splitPoint s < count s)%Z ->
  convergence (slotB (slotBStage tk s))
  = convergence (advanceConvergence (m_convUp (macro s)) (m_convDn (macro s))
                                    (slotB s)).
Proof.
  intro Hsplit. unfold slotBStage.
  apply Z.ltb_lt in Hsplit. rewrite Hsplit.
  case_if; cbn [slotB onSlotB set_slotB setFloat set_uniforms];
    cbn [convergence set_phase set_lastTextTime set_targetConvergence
         set_physicsOverrides set_dissolveMode set_maxConvergence
         set_holdDurationOverride set_releaseSpeed];
    rewrite ?holdCheck_convergence, ?trackTextTime_convergence; reflexivity.
Qed.

Lemma convergence_blend (c t k : Q) :
  0 <= k <= 1 -> 0 <= c <= 1 -> 0 <= t <= 1 ->
  0 <= c + (t - c) * k <= 1.
Proof.
  intros Hk Hc Ht.
  assert (H1 : 0 <= c * (1 - k)) by (apply Qmult_le_0_compat; qlra).
  assert (H2 : 0 <= t * k) by (apply Qmult_le_0_compat; qlra).
  assert (H3 : 0 <= (1 - c) * (1 - k)) by (apply Qmult_le_0_compat; qlra).
  assert (H4 : 0 <= (1 - t) * k) by (apply Qmult_le_0_compat; qlra).
  split; qlra.
Qed.

(** C7, as the code has it.  The asymmetric-convergence block, which
    [update] runs for the main slot and for slot B, clamps the convergence
    from above when the ceiling [maxConvergence] is below 1.0, and only
    then; there is no clamp at 0.  The value lies within
    [[0, maxConvergence]] provided that the convergence, its target and the
    convergence speed of the tick lie within [[0, 1]] and the ceiling is not
    negative. *)
Theorem C7_convergence_clamp (up dn : Q) (b : Slot) :
  let b' := advanceConvergence up dn b in
  (maxConvergence b < 1.0 -> convergence b' <= maxConvergence b)
  /\ (0 <= convSpeed up dn b <= 1 ->
      0 <= convergence b <= 1 ->
      0 <= targetConvergence b <= 1 ->
      0 <= maxConvergence b ->
      0 <= convergence b' <= maxConvergence b).
Proof.
  intro b'. unfold b'. rewrite convergence_advance. cbv zeta.
  split.
  - intro Hmax. apply Qltb_true in Hmax. rewrite Hmax. apply Q.le_min_r.
  - intros Hk Hc Ht Hm.
    pose proof (convergence_blend _ _ _ Hk Hc Ht) as [Hlo Hhi].
    destruct (Qltb (maxConvergence b) 1.0) eqn:Hmax.
    + split; [ apply Q.min_glb; assumption | apply Q.le_min_r ].
    + apply Qltb_false in Hmax. split; [ exact Hlo | qlra ].
Qed.

Lemma C7_convergence_clamp_witness :
  maxConvergence halfReleased < 1.0
  /\ 0 <= convSpeed 0.1 0.25 halfReleased <= 1
  /\ convergence (advanceConvergence 0.1 0.25 halfReleased) <= 0.8
  /\ 0 <= convergence (advanceConvergence 0.1 0.25 halfReleased).
Proof.
  assert (Hmax : maxConvergence halfReleased < 1.0) by (vm_compute; reflexivity).
  assert (Hk : 0 <= convSpeed 0.1 0.25 halfReleased <= 1)
    by (split; vm_compute; discriminate).
  assert (Hc : 0 <= convergence halfReleased <= 1)
    by (split; vm_compute; discriminate).
  assert (Ht : 0 <= targetConvergence halfReleased <= 1)
    by (split; vm_compute; discriminate).
  assert (Hm : 0 <= maxConvergence halfReleased) by (vm_compute; discriminate).
  split; [ exact Hmax | ]. split; [ exact Hk | ].
  split.
  - exact (proj1 (C7_convergence_clamp 0.1 0.25 halfReleased) Hmax).
  - exact (proj1 (proj2 (C7_convergence_clamp 0.1 0.25 halfReleased) Hk Hc Ht Hm)).
Defined.

(** C7, as stated, fails: one frame after a text whose options carry
    [convUp: 3, lerpRate: 1] the convergence of the main slot is 3, above
    the ceiling 1.0; after the release of a text with
    [releaseSpeed: 4, convDn: 0.5, lerpRate: 1] it is negative. *)
Lemma C7_counterexample :
  ~ (0 <= convergence (main overshootRun)
     /\ convergence (main overshootRun) <= maxConvergence (main overshootRun))
  /\ convergence (main overshootRun) == 3
  /\ maxConvergence (main overshootRun) == 1
  /\ convergence (main undershootRun) < 0.
Proof.
  split; [ | split; [ | split ] ].
  - intros [_ H]. vm_compute in H. apply H. reflexivity.
  - vm_compute. reflexivity.
  - vm_compute. reflexivity.
  - vm_compute. reflexivity.
Qed.

(** ** The two-stage dissolve *)

Lemma holdCheck_fires d t b :
  phase b = Text -> 0 < lastTextTime b -> holdDur d b < t - lastTextTime b ->
  holdCheck d t b = b |> set_phase Releasing |> set_targetConvergence 0.
Proof.
  intros Hp Hl Hh. unfold holdCheck.
  apply Qltb_true in Hl, Hh. rewrite Hp, Hl, Hh. reflexivity.
Qed.

Lemma holdCheck_waits d t b :
  t - lastTextTime b <= holdDur d b -> holdCheck d t b = b.
Proof.
  intro Hh. unfold holdCheck. apply Qltb_false in Hh. rewrite Hh.
  case_if; reflexivity.
Qed.

Lemma holdCheck_phase d t b :
  phase (holdCheck d t b) = phase b
  \/ (phase b = Text /\ phase (holdCheck d t b) = Releasing).
Proof.
  unfold holdCheck.
  destruct (Phase_beq (phase b) Text) eqn:Hp; [ | left; reflexivity ].
  apply Phase_beq_eq in Hp.
  repeat case_if; cbn [andb]; try (left; reflexivity).
  right. split; [ exact Hp | reflexivity ].
Qed.

Lemma update_unfold tk s : update tk s = releaseStage (atRelease tk s).
Proof. reflexivity. Qed.

Lemma released_true b :
  released b = true <-> phase b = Releasing /\ convergence b < 0.02.
Proof.
  unfold released. rewrite andb_true_iff, Phase_beq_eq, Qltb_true. reflexivity.
Qed.

Lemma released_false b :
  released b = false <-> phase b <> Releasing \/ 0.02 <= convergence b.
Proof.
  unfold released. rewrite andb_false_iff, Qltb_false.
  split; intros [H | H]; try (right; exact H); left.
  - intro Hp. apply Phase_beq_eq in Hp. congruence.
  - destruct (Phase_beq (phase b) Releasing) eqn:Hp; [ | reflexivity ].
    apply Phase_beq_eq in Hp. contradiction.
Qed.

Lemma releaseStage_idle s : released (main s) = false -> releaseStage s = s.
Proof. intro H. unfold releaseStage. rewrite H. reflexivity. Qed.

(** The releasing-to-flow rule, once its guard holds. *)
Lemma releaseStage_fires s :
  released (main s) = true ->
  releaseStage s
  = (s |> onMain (set_phase Flow)
       |> onMain (set_lastTextTime 0)
       |> set_currentText ""
       |> onMain (set_physicsOverrides None)
       |> onMain (set_dissolveMode None)
       |> onMain (set_maxConvergence 1.0)
       |> onMain (set_holdDurationOverride None)
       |> onMain (set_releaseSpeed 1.0)
       |> setInt uBgPatternId 0%Z
       |> setFloat uTextParticleRatio 1.0
       |> setFloat uTextPerChar 1.0
       |> set_targetWorldQuat (Some QuatIdentity)
       |> resetToSingleLayer
       |> set_pendingFlowPattern None
       |> set_pendingFlowOptions noOptions
       |> setFlowTargets (orElse (pendingFlowPattern s) "organic")
                         (pendingFlowOptions s)
       |> onMain (set_targetConvergence 0.10)
       |> onMain (set_sweepDir zero3)).
Proof. intro H. unfold releaseStage. rewrite H. reflexivity. Qed.

(** The main slot after the releasing-to-flow rule has fired. *)
Lemma releaseStage_main s :
  released (main s) = true ->
  main (releaseStage s)
  = mkSlot Flow (convergence (main s)) 0.10 0 None 1.0 None 1.0
      (extractPhysicsOverrides (pendingFlowOptions s))
      (charData (main s)) (formationPending (main s))
      (formationStartTime (main s)) (animType (main s)) zero3
      (currentSweepX (main s)) (currentSweepY (main s)) (currentSweepZ (main s)).
Proof.
  intro H. rewrite (releaseStage_fires s H). unfold setFlowTargets.
  repeat case_if; reflexivity.
Qed.

(** The flow pattern the releasing-to-flow rule applies. *)
Lemma releaseStage_applies s :
  released (main s) = true ->
  let nextPattern := orElse (pendingFlowPattern s) "organic" in
  currentFlowPattern (releaseStage s) = nextPattern
  /\ ui (uniforms (releaseStage s)) uGPUPatternId
     = nullish (gpuPatternId nextPattern) 0%Z
  /\ targetBuffer (releaseStage s)
     = match gpuPatternId nextPattern with
       | Some _ => targetBuffer s
       | None =>
           WFlowGenerator (if hasKey nextPattern FLOW_PATTERN_GENERATORS
                           then nextPattern else "organic") :: targetBuffer s
       end
  /\ pendingFlowPattern (releaseStage s) = None
  /\ pendingFlowOptions (releaseStage s) = noOptions.
Proof.
  intros H nextPattern. rewrite (releaseStage_fires s H). fold nextPattern.
  unfold setFlowTargets.
  destruct (gpuPatternId nextPattern) as [gpuId | ];
    [ | destruct (hasKey nextPattern FLOW_PATTERN_GENERATORS) ];
    repeat split; reflexivity.
Qed.

(** C1, as the code has it.  On the tick in which the main slot reaches
    the releasing-to-flow rule in phase [Releasing] with a convergence
    below 0.02, [update] sets the phase to [Flow] and [targetConvergence]
    to 0.10, resets [maxConvergence] to 1.0, the hold-duration override to
    none, [releaseSpeed] to 1.0 and [dissolveMode] to none, and applies the
    flow pattern queued by [setMode('flow', ...)] during the hold, or
    'organic' if none was queued.  The physics overrides are not left at
    none: applying the pattern re-seeds them from the options queued with
    it (they end as none when those options carry no physics key). *)
Theorem C1_releasing_to_flow (tk : Tick) (s : Engine) :
  phase (main (atRelease tk s)) = Releasing ->
  convergence (main (atRelease tk s)) < 0.02 ->
  let s' := update tk s in
  let nextPattern := orElse (pendingFlowPattern s) "organic" in
  phase (main s') = Flow
  /\ targetConvergence (main s') = 0.10
  /\ maxConvergence (main s') = 1.0
  /\ holdDurationOverride (main s') = None
  /\ releaseSpeed (main s') = 1.0
  /\ dissolveMode (main s') = None
  /\ physicsOverrides (main s') = extractPhysicsOverrides (pendingFlowOptions s)
  /\ currentFlowPattern s' = nextPattern
  /\ ui (uniforms s') uGPUPatternId = nullish (gpuPatternId nextPattern) 0%Z
  /\ targetBuffer s'
     = match gpuPatternId nextPattern with
       | Some _ => targetBuffer (atRelease tk s)
       | None =>
           WFlowGenerator (if hasKey nextPattern FLOW_PATTERN_GENERATORS
                           then nextPattern else "organic")
             :: targetBuffer (atRelease tk s)
       end
  /\ pendingFlowPattern s' = None.
Proof.
  intros Hphase Hconv s' nextPattern.
  assert (Hrel : released (main (atRelease tk s)) = true)
    by (apply released_true; split; assumption).
  destruct (atRelease_setup tk s) as (_ & _ & _ & _ & _ & _ & _ & Hpat & Hopt).
  unfold s'. rewrite update_unfold.
  pose proof (releaseStage_main _ Hrel) as Hmain.
  destruct (releaseStage_applies _ Hrel) as (Hcur & Hid & Hbuf & Hpend & _).
  rewrite Hpat in Hcur, Hid, Hbuf. rewrite Hopt in Hmain.
  fold nextPattern in Hcur, Hid, Hbuf.
  rewrite Hmain.
  repeat split; try reflexivity; assumption.
Qed.

Lemma C1_releasing_to_flow_witness :
  phase (main (atRelease (frameAt 3.016) queuedRun)) = Releasing
  /\ convergence (main (atRelease (frameAt 3.016) queuedRun)) < 0.02
  /\ phase (main (update (frameAt 3.016) queuedRun)) = Flow
  /\ currentFlowPattern (update (frameAt 3.016) queuedRun) = "galaxySpin".
Proof.
  assert (H1 : phase (main (atRelease (frameAt 3.016) queuedRun)) = Releasing)
    by (vm_compute; reflexivity).
  assert (H2 : convergence (main (atRelease (frameAt 3.016) queuedRun)) < 0.02)
    by (vm_compute; reflexivity).
  split; [ exact H1 | ]. split; [ exact H2 | ].
  destruct (C1_releasing_to_flow (frameAt 3.016) queuedRun H1 H2)
    as (Hphase & _ & _ & _ & _ & _ & _ & Hcur & _).
  split; [ exact Hphase | exact Hcur ].
Defined.

(** C1, as stated, fails on the physics overrides: when the flow request
    queued during the hold carries [spring: 0.5], the tick that takes the
    main slot from releasing to flow leaves the overrides at
    [{ spring: 0.5 }], not at none. *)
Lemma C1_counterexample :
  phase (main queuedRun) = Releasing
  /\ phase (main (atRelease (frameAt 3.016) queuedRun)) = Releasing
  /\ convergence (main (atRelease (frameAt 3.016) queuedRun)) < 0.02
  /\ phase (main (update (frameAt 3.016) queuedRun)) = Flow
  /\ physicsOverrides (main (update (frameAt 3.016) queuedRun)) <> None.
Proof.
  repeat split; try (vm_compute; reflexivity).
  vm_compute. discriminate.
Qed.

(** ** What the methods leave alone *)

Lemma setFlowTargets_hold pattern options s :
  textHoldDuration (setFlowTargets pattern options s) = textHoldDuration s.
Proof. unfold setFlowTargets. repeat case_if; reflexivity. Qed.

Lemma setMode_hold mode pattern options s :
  textHoldDuration (setMode mode pattern options s) = textHoldDuration s.
Proof.
  unfold setMode.
  repeat case_if; cbn [textHoldDuration set_currentText set_flowPatternIdx];
    rewrite ?setFlowTargets_hold; reflexivity.
Qed.

Lemma releaseStage_hold s :
  textHoldDuration (releaseStage s) = textHoldDuration s.
Proof.
  unfold releaseStage. destruct (released (main s)); [ | reflexivity ].
  unfold setFlowTargets. repeat case_if; reflexivity.
Qed.

Lemma update_hold tk s : textHoldDuration (update tk s) = textHoldDuration s.
Proof.
  rewrite update_unfold, releaseStage_hold.
  destruct (atRelease_setup tk s) as (_ & H & _). exact H.
Qed.

Lemma setTextTarget_hold raster text options s :
  textHoldDuration (setTextTarget raster text options s) = textHoldDuration s.
Proof.
  unfold setTextTarget.
  destruct (truthy text); [ | reflexivity ]. cbn [negb].
  repeat case_if; reflexivity.
Qed.

Lemma setShadowSculptureTarget_hold textA textB options s :
  textHoldDuration (setShadowSculptureTarget textA textB options s)
  = textHoldDuration s.
Proof. unfold setShadowSculptureTarget. case_if; reflexivity. Qed.

Lemma setFlowTargetsMultiLayer_hold layers s :
  textHoldDuration (setFlowTargetsMultiLayer layers s) = textHoldDuration s.
Proof.
  unfold setFlowTargetsMultiLayer. destruct layers; [ reflexivity | ].
  unfold setLayer. repeat case_if; reflexivity.
Qed.

Lemma call_hold raster c s :
  textHoldDuration (call raster c s) = textHoldDuration s.
Proof.
  destruct c; cbn [call].
  - apply setTextTarget_hold.
  - apply setShadowSculptureTarget_hold.
  - apply setFlowTargets_hold.
  - reflexivity.
  - reflexivity.
  - apply setFlowTargetsMultiLayer_hold.
  - reflexivity.
  - apply setMode_hold.
  - apply update_hold.
  - unfold setParams. repeat case_if; rewrite ?setMode_hold; reflexivity.
  - reflexivity.
Qed.

Lemma run_hold raster cs s :
  textHoldDuration (run raster cs s) = textHoldDuration s.
Proof.
  revert s. induction cs as [ | c cs IH ]; intro s; [ reflexivity | ].
  change (run raster (c :: cs) s) with (run raster cs (call raster c s)).
  rewrite IH. apply call_hold.
Qed.

Lemma init_hold params :
  textHoldDuration (init params) = nullish (prm_textHoldDuration params) 2.5.
Proof. unfold init. rewrite setMode_hold. reflexivity. Qed.

Lemma hold_fired_convergence b :
  convergence (b |> set_phase Releasing |> set_targetConvergence 0)
  = convergence b.
Proof. reflexivity. Qed.

Lemma hold_fired_phase b :
  phase (b |> set_phase Releasing |> set_targetConvergence 0) = Releasing.
Proof. reflexivity. Qed.

Lemma hold_fired_target b :
  targetConvergence (b |> set_phase Releasing |> set_targetConvergence 0) = 0.
Proof. reflexivity. Qed.

Lemma atRelease_main tk s :
  main (atRelease tk s)
  = holdCheck (textHoldDuration s) (elapsedTime tk) (main (beforeDissolve tk s)).
Proof.
  unfold atRelease, holdStage.
  destruct (beforeDissolve_setup tk s) as (_ & H & _).
  change (main (onMain ?f ?x)) with (f (main x)). rewrite H. reflexivity.
Qed.

Lemma holdCheck_unrecorded d t b :
  lastTextTime b <= 0 -> holdCheck d t b = b.
Proof.
  intro Hl. unfold holdCheck. apply Qltb_false in Hl. rewrite Hl.
  rewrite andb_false_r. reflexivity.
Qed.

(** C2, as the code has it.  When the main slot reaches the 2-stage
    dissolve in phase [Text], the text is held as long as no positive
    [lastTextTime] is recorded or [elapsedTime - lastTextTime] does not
    exceed the hold duration (the per-command override if there is one,
    the engine default otherwise): [update] then leaves the main slot as
    it is, in phase [Text] with its [targetConvergence] and
    [lastTextTime].  On a tick where [lastTextTime] is positive and
    [elapsedTime - lastTextTime] strictly exceeds the hold duration,
    [update] changes the phase to [Releasing] and sets [targetConvergence]
    to 0.  The tick ends in that state when the convergence is at least
    0.02; when it is already below 0.02 the releasing-to-flow rule fires in
    the same call and the tick ends in [Flow] with the target 0.10.  The
    engine default is the constructor's [textHoldDuration ?? 2.5],
    whatever is called on the engine: 2.5 for an engine constructed
    without [textHoldDuration]. *)
Theorem C2_text_to_releasing (tk : Tick) (s : Engine) :
  let m := beforeDissolve tk s in
  let hold := nullish (holdDurationOverride (main m)) (textHoldDuration s) in
  let s' := update tk s in
  (phase (main m) = Text ->
   (0 < lastTextTime (main m) ->
    hold < elapsedTime tk - lastTextTime (main m) ->
    phase (main (atRelease tk s)) = Releasing
    /\ targetConvergence (main (atRelease tk s)) = 0
    /\ (0.02 <= convergence (main m) ->
        phase (main s') = Releasing /\ targetConvergence (main s') = 0)
    /\ (convergence (main m) < 0.02 ->
        phase (main s') = Flow /\ targetConvergence (main s') = 0.10))
   /\ (lastTextTime (main m) <= 0
       \/ elapsedTime tk - lastTextTime (main m) <= hold ->
       main s' = main m
       /\ phase (main s') = Text
       /\ targetConvergence (main s') = targetConvergence (main m)
       /\ lastTextTime (main s') = lastTextTime (main m)))
  /\ (forall raster cs,
        textHoldDuration (run raster cs (init noParams)) = 2.5)
  /\ (forall params raster cs,
        textHoldDuration (run raster cs (init params))
        = nullish (prm_textHoldDuration params) 2.5).
Proof.
  intros m hold s'. subst hold.
  split; [ | split ].
  - intro Hphase.
    pose proof (atRelease_main tk s) as Hcheck. fold m in Hcheck.
    unfold s'. rewrite update_unfold.
    clearbody m. split.
    + intros Hlast Hhold.
      assert (Hmain : main (atRelease tk s)
                      = main m |> set_phase Releasing
                               |> set_targetConvergence 0).
      { rewrite Hcheck. apply holdCheck_fires; assumption. }
      split; [ rewrite Hmain; apply hold_fired_phase | ].
      split; [ rewrite Hmain; apply hold_fired_target | ].
      split.
      * intro Hconv. rewrite releaseStage_idle.
        -- rewrite Hmain.
           split; [ apply hold_fired_phase | apply hold_fired_target ].
        -- apply released_false. right.
           rewrite Hmain, hold_fired_convergence. exact Hconv.
      * intro Hconv. rewrite releaseStage_main.
        -- split; reflexivity.
        -- apply released_true.
           rewrite Hmain, hold_fired_phase, hold_fired_convergence.
           split; [ reflexivity | exact Hconv ].
    + intro Hheld.
      assert (Hmain : main (atRelease tk s) = main m).
      { rewrite Hcheck. destruct Hheld as [Hl | Hh].
        - apply holdCheck_unrecorded. exact Hl.
        - apply holdCheck_waits. exact Hh. }
      rewrite releaseStage_idle.
      * rewrite Hmain. split; [ reflexivity | ].
        split; [ exact Hphase | ]. split; reflexivity.
      * apply released_false. left. rewrite Hmain, Hphase. discriminate.
  - intros raster cs. rewrite run_hold. apply init_hold.
  - intros params raster cs. rewrite run_hold. apply init_hold.
Qed.

Lemma C2_text_to_releasing_witness :
  (phase (main (beforeDissolve (frameAt 4) heldRun)) = Text
   /\ 0 < lastTextTime (main (beforeDissolve (frameAt 4) heldRun))
   /\ 2.5 < 4 - lastTextTime (main (beforeDissolve (frameAt 4) heldRun))
   /\ 0.02 <= convergence (main (beforeDissolve (frameAt 4) heldRun))
   /\ phase (main (update (frameAt 4) heldRun)) = Releasing
   /\ targetConvergence (main (update (frameAt 4) heldRun)) = 0)
  /\ (phase (main (beforeDissolve (frameAt 3) heldRun)) = Text
      /\ 3 - lastTextTime (main (beforeDissolve (frameAt 3) heldRun)) <= 2.5
      /\ phase (main (update (frameAt 3) heldRun)) = Text).
Proof.
  assert (H1 : phase (main (beforeDissolve (frameAt 4) heldRun)) = Text)
    by (vm_compute; reflexivity).
  assert (H2 : 0 < lastTextTime (main (beforeDissolve (frameAt 4) heldRun)))
    by (vm_compute; reflexivity).
  assert (H3 : nullish (holdDurationOverride
                          (main (beforeDissolve (frameAt 4) heldRun)))
                       (textHoldDuration heldRun)
               < elapsedTime (frameAt 4)
                 - lastTextTime (main (beforeDissolve (frameAt 4) heldRun)))
    by (vm_compute; reflexivity).
  assert (H4 : 0.02 <= convergence (main (beforeDissolve (frameAt 4) heldRun)))
    by (vm_compute; discriminate).
  assert (H5 : phase (main (beforeDissolve (frameAt 3) heldRun)) = Text)
    by (vm_compute; reflexivity).
  assert (H6 : elapsedTime (frameAt 3)
               - lastTextTime (main (beforeDissolve (frameAt 3) heldRun))
               <= nullish (holdDurationOverride
                             (main (beforeDissolve (frameAt 3) heldRun)))
                          (textHoldDuration heldRun))
    by (vm_compute; discriminate).
  split.
  - split; [ exact H1 | ]. split; [ exact H2 | ].
    split; [ vm_compute; reflexivity | ]. split; [ exact H4 | ].
    exact (proj1 (proj2 (proj2
             (proj1 (proj1 (C2_text_to_releasing (frameAt 4) heldRun) H1)
                H2 H3))) H4).
  - split; [ exact H5 | ]. split; [ vm_compute; discriminate | ].
    exact (proj1 (proj2
             (proj2 (proj1 (C2_text_to_releasing (frameAt 3) heldRun) H5)
                (or_intror H6)))).
Defined.

(** C2, as stated, fails when the held text has a convergence below 0.02:
    for a text set with [maxConvergence: 0.01] and [holdDuration: 1], whose
    [lastTextTime] was recorded at 1, the tick at 3 exceeds the hold, and
    [update] returns with the phase [Flow] and the target 0.10, not
    [Releasing] and 0. *)
Lemma C2_counterexample :
  phase (main faintRun) = Text
  /\ lastTextTime (main faintRun) == 1
  /\ holdDurationOverride (main faintRun) = Some 1
  /\ 1 < elapsedTime (frameAt 3) - lastTextTime (main faintRun)
  /\ phase (main (update (frameAt 3) faintRun)) <> Releasing
  /\ ~ targetConvergence (main (update (frameAt 3) faintRun)) == 0
  /\ phase (main (update (frameAt 3) faintRun)) = Flow.
Proof.
  repeat split; try (vm_compute; reflexivity); vm_compute; discriminate.
Qed.

(** ** Flow requests *)

Lemma setFlowTargets_applies pattern options s :
  let s' := setFlowTargets pattern options s in
  currentFlowPattern s' = pattern
  /\ ui (uniforms s') uGPUPatternId = nullish (gpuPatternId pattern) 0%Z
  /\ targetBuffer s'
     = match gpuPatternId pattern with
       | Some _ => targetBuffer s
       | None => WFlowGenerator (cpuGenerator pattern) :: targetBuffer s
       end
  /\ phase (main s') = phase (main s)
  /\ targetConvergence (main s') = targetConvergence (main s)
  /\ pendingFlowPattern s' = pendingFlowPattern s
  /\ pendingFlowOptions s' = pendingFlowOptions s
  /\ slotB s' = initSlotB
  /\ splitPoint s' = count s.
Proof.
  unfold setFlowTargets, cpuGenerator.
  destruct (gpuPatternId pattern) as [gpuId | ];
    [ | destruct (hasKey pattern FLOW_PATTERN_GENERATORS) ];
    repeat split; reflexivity.
Qed.

Lemma setMode_flow_deferred pattern options s :
  holdingText (phase (main s)) = true ->
  setMode "flow" pattern options s
  = s |> onMain (set_sweepDir zero3)
      |> set_pendingFlowPattern (if truthyOpt pattern then pattern else None)
      |> set_pendingFlowOptions options
      |> set_currentText "".
Proof.
  intro H. unfold setMode.
  change (String.eqb "flow" "text" || String.eqb "flow" "forming") with false.
  change (String.eqb "flow" "flow") with true.
  cbv iota.
  change (phase (main (onMain (set_sweepDir zero3) s))) with (phase (main s)).
  rewrite H. reflexivity.
Qed.

Lemma setMode_flow_immediate pattern options s :
  holdingText (phase (main s)) = false ->
  setMode "flow" pattern options s
  = (let s1 := s |> onMain (set_sweepDir zero3)
                 |> onMain (set_targetConvergence 0.10) in
     if truthyOpt pattern
     then s1 |> setFlowTargets (orElse pattern "") options
     else s1 |> setFlowTargets (requestedPattern pattern s) options
             |> set_flowPatternIdx (S (flowPatternIdx s)))
    |> set_currentText "".
Proof.
  intro H. unfold setMode, requestedPattern.
  change (String.eqb "flow" "text" || String.eqb "flow" "forming") with false.
  change (String.eqb "flow" "flow") with true.
  cbv iota.
  change (phase (main (onMain (set_sweepDir zero3) s))) with (phase (main s)).
  rewrite H. destruct (truthyOpt pattern); reflexivity.
Qed.

(** C3, as the code has it.  [setFlowTargets] applies the pattern at once
    in every phase: it has no deferral.  [setMode('flow', ...)] applies the
    requested pattern at once when the main slot is not holding text (in
    [Flow], and in [Releasing]); while the main slot is in [Text] or
    [Forming] it changes neither the target buffer nor any uniform and
    records the request as the pending flow pattern, which the
    releasing-to-flow rule then applies. *)
Theorem C3_flow_requests (pattern : option string) (options : Options) (s : Engine) :
  (forall p,
      let s' := setFlowTargets p options s in
      currentFlowPattern s' = p
      /\ ui (uniforms s') uGPUPatternId = nullish (gpuPatternId p) 0%Z
      /\ targetBuffer s'
         = match gpuPatternId p with
           | Some _ => targetBuffer s
           | None => WFlowGenerator (cpuGenerator p) :: targetBuffer s
           end
      /\ pendingFlowPattern s' = pendingFlowPattern s)
  /\ (holdingText (phase (main s)) = false ->
      let s' := setMode "flow" pattern options s in
      let p := requestedPattern pattern s in
      currentFlowPattern s' = p
      /\ ui (uniforms s') uGPUPatternId = nullish (gpuPatternId p) 0%Z
      /\ targetBuffer s'
         = match gpuPatternId p with
           | Some _ => targetBuffer s
           | None => WFlowGenerator (cpuGenerator p) :: targetBuffer s
           end
      /\ targetConvergence (main s') = 0.10
      /\ pendingFlowPattern s' = pendingFlowPattern s)
  /\ (holdingText (phase (main s)) = true ->
      let s' := setMode "flow" pattern options s in
      let queued := if truthyOpt pattern then pattern else None in
      targetBuffer s' = targetBuffer s
      /\ uniforms s' = uniforms s
      /\ currentFlowPattern s' = currentFlowPattern s
      /\ phase (main s') = phase (main s)
      /\ pendingFlowPattern s' = queued
      /\ pendingFlowOptions s' = options
      /\ (forall r,
            pendingFlowPattern r = queued ->
            released (main r) = true ->
            currentFlowPattern (releaseStage r) = orElse queued "organic")).
Proof.
  split; [ | split ].
  - intros p s'.
    destruct (setFlowTargets_applies p options s) as (H1 & H2 & H3 & _ & _ & H4 & _).
    repeat split; assumption.
  - intros H s' p. unfold s', p. rewrite (setMode_flow_immediate _ _ _ H).
    unfold requestedPattern. cbv zeta.
    destruct (truthyOpt pattern); unfold setFlowTargets, cpuGenerator;
      (match goal with
       | |- context [gpuPatternId ?q] =>
           destruct (gpuPatternId q) as [gpuId | ];
           [ | destruct (hasKey q FLOW_PATTERN_GENERATORS) ]
       end);
      repeat split; reflexivity.
  - intros H s' queued. unfold s'. rewrite (setMode_flow_deferred _ _ _ H).
    fold queued.
    repeat split; try reflexivity.
    intros r Hr Hrel.
    destruct (releaseStage_applies r Hrel) as (Hcur & _).
    rewrite Hr in Hcur. exact Hcur.
Qed.

Lemma C3_flow_requests_witness :
  holdingText (phase (main (init noParams))) = false
  /\ currentFlowPattern
       (setMode "flow" (Some "galaxySpin") noOptions (init noParams))
     = "galaxySpin"
  /\ holdingText (phase (main heldRun)) = true
  /\ pendingFlowPattern (setMode "flow" (Some "galaxySpin") noOptions heldRun)
     = Some "galaxySpin"
  /\ uniforms (setMode "flow" (Some "galaxySpin") noOptions heldRun)
     = uniforms heldRun.
Proof.
  assert (H1 : holdingText (phase (main (init noParams))) = false)
    by (vm_compute; reflexivity).
  assert (H2 : holdingText (phase (main heldRun)) = true)
    by (vm_compute; reflexivity).
  destruct (C3_flow_requests (Some "galaxySpin") noOptions (init noParams))
    as (_ & Himm & _).
  destruct (C3_flow_requests (Some "galaxySpin") noOptions heldRun)
    as (_ & _ & Hdef).
  destruct (Himm H1) as (Hcur & _).
  destruct (Hdef H2) as (_ & Huni & _ & _ & Hpend & _).
  split; [ exact H1 | ]. split; [ exact Hcur | ].
  split; [ exact H2 | ]. split; [ exact Hpend | exact Huni ].
Defined.

(** C3, as stated, fails for [setFlowTargets]: called while the main slot
    holds a text, it changes the pattern uniform at once (from 0, the text
    targets, to 7, galaxySpin) and records no pending flow pattern. *)
Lemma C3_counterexample :
  phase (main heldRun) = Text
  /\ ui (uniforms heldRun) uGPUPatternId = 0%Z
  /\ ui (uniforms (setFlowTargets "galaxySpin" noOptions heldRun)) uGPUPatternId
     = 7%Z
  /\ ui (uniforms (setFlowTargets "galaxySpin" noOptions heldRun)) uGPUPatternId
     <> ui (uniforms heldRun) uGPUPatternId
  /\ pendingFlowPattern (setFlowTargets "galaxySpin" noOptions heldRun) = None
  /\ phase (main (setFlowTargets "galaxySpin" noOptions heldRun)) = Text.
Proof.
  repeat split; try (vm_compute; reflexivity).
  vm_compute. discriminate.
Qed.

(** ** Text for group B *)

(** [setTextTarget] for [particleGroup: 1], with the branches resolved. *)
Lemma setTextTarget_group_B raster text options s :
  truthy text = true ->
  o_particleGroup options = Some 1%Z ->
  let half := (count s / 2)%Z in
  let groupCount := (count s - half)%Z in
  let nChars := Z.of_nat (String.length text) in
  let animName :=
    orElse (o_animation options)
           (nth (S (textIndex s) mod length (keys TEXT_ANIMATIONS))
                (keys TEXT_ANIMATIONS) "directSnap") in
  let chars :=
    assignSlices half groupCount (groupCount / nChars) nChars 0
      (raster text options (Z.min 30000 (groupCount / nChars))) in
  let anamorphic := isAnamorphic (o_viewDirection options) in
  setTextTarget raster text options s
  = s |> set_splitPoint half
      |> setInt uGroupSplit half
      |> set_groupBPatternActive false
      |> setInt uGPUPatternId 0%Z
      |> resetToSingleLayer
      |> set_currentText text
      |> set_textIndex (S (textIndex s))
      |> onMain (set_physicsOverrides (extractPhysicsOverrides options))
      |> onMain (set_animType (Some animName))
      |> set_targetWorldQuat
           (Some (if anamorphic
                  then QuatFromView (nullish (o_viewDirection options) zero3)
                  else QuatIdentity))
      |> setFloat uFlattenZ (if anamorphic then 0.0 else 1.0)
      |> onSlotB (set_charData (Some chars))
      |> onSlotB (set_formationStartTime (-1))
      |> onSlotB (set_formationPending false)
      |> onSlotB (set_animType (Some animName))
      |> onSlotB (set_sweepDir
                    (nth (S (textIndex s) mod length sweepDirs) sweepDirs zero3))
      |> onSlotB (set_holdDurationOverride (o_holdDuration options))
      |> onSlotB (set_releaseSpeed (nullish (o_releaseSpeed options) 1.0))
      |> onSlotB (set_dissolveMode (o_dissolveMode options))
      |> onSlotB (set_maxConvergence (nullish (o_maxConvergence options) 1.0))
      |> onSlotB (set_physicsOverrides (extractPhysicsOverrides options))
      |> onSlotB (set_lastTextTime 0)
      |> onSlotB (set_targetConvergence 1.0)
      |> applyAllCharTargets chars
      |> onSlotB (set_phase Text).
Proof.
  intros Htext Hgroup half groupCount nChars animName chars anamorphic.
  unfold setTextTarget. rewrite Htext, Hgroup.
  change (negb true) with false.
  change (nullish (Some 1%Z) 0%Z) with 1%Z.
  change (1 =? 1)%Z with true. change (1 =? 0)%Z with false.
  cbv iota. reflexivity.
Qed.

(** C8.  [setText] with [particleGroup: 1] and a non-empty text leaves the
    phase, the convergence and [targetConvergence] of the main slot
    unchanged (whatever that phase is, in particular while it holds a
    text), together with its ceiling, hold and release overrides, text time
    and character records; the new text state goes into slot B (phase
    [Text], target 1.0, the overrides of the call, the new character
    records) and the split index becomes [floor(count / 2)]. *)
Theorem C8_group_B_text
    (raster : string -> Options -> Z -> list Z)
    (text : string) (options : Options) (s : Engine) :
  truthy text = true ->
  o_particleGroup options = Some 1%Z ->
  let s' := setText raster text options s in
  let half := (count s / 2)%Z in
  let nChars := Z.of_nat (String.length text) in
  (phase (main s') = phase (main s)
   /\ convergence (main s') = convergence (main s)
   /\ targetConvergence (main s') = targetConvergence (main s)
   /\ maxConvergence (main s') = maxConvergence (main s)
   /\ holdDurationOverride (main s') = holdDurationOverride (main s)
   /\ releaseSpeed (main s') = releaseSpeed (main s)
   /\ dissolveMode (main s') = dissolveMode (main s)
   /\ lastTextTime (main s') = lastTextTime (main s)
   /\ charData (main s') = charData (main s)
   /\ formationPending (main s') = formationPending (main s))
  /\ (splitPoint s' = half /\ ui (uniforms s') uGroupSplit = half)
  /\ (phase (slotB s') = Text
      /\ convergence (slotB s') = convergence (slotB s)
      /\ targetConvergence (slotB s') = 1.0
      /\ maxConvergence (slotB s') = nullish (o_maxConvergence options) 1.0
      /\ holdDurationOverride (slotB s') = o_holdDuration options
      /\ releaseSpeed (slotB s') = nullish (o_releaseSpeed options) 1.0
      /\ dissolveMode (slotB s') = o_dissolveMode options
      /\ lastTextTime (slotB s') = 0
      /\ formationPending (slotB s') = false
      /\ charData (slotB s')
         = Some (assignSlices half (count s - half)
                   ((count s - half) / nChars) nChars 0
                   (raster text options
                      (Z.min 30000 ((count s - half) / nChars))))).
Proof.
  intros Htext Hgroup s' half nChars. unfold s', setText.
  rewrite (setTextTarget_group_B raster text options s Htext Hgroup).
  cbv zeta. fold half nChars.
  repeat split; reflexivity.
Qed.

Lemma C8_group_B_text_witness :
  truthy "CD" = true
  /\ o_particleGroup groupBOptions = Some 1%Z
  /\ phase (main heldRun) = Text
  /\ phase (main (setText uniformRaster "CD" groupBOptions heldRun)) = Text
  /\ phase (slotB (setText uniformRaster "CD" groupBOptions heldRun)) = Text
  /\ splitPoint (setText uniformRaster "CD" groupBOptions heldRun) = 500000%Z.
Proof.
  assert (H1 : truthy "CD" = true) by reflexivity.
  assert (H2 : o_particleGroup groupBOptions = Some 1%Z) by reflexivity.
  destruct (C8_group_B_text uniformRaster "CD" groupBOptions heldRun H1 H2)
    as ((Hphase & _) & (Hsplit & _) & (HphaseB & _)).
  split; [ exact H1 | ]. split; [ exact H2 | ].
  split; [ vm_compute; reflexivity | ].
  split; [ rewrite Hphase; vm_compute; reflexivity | ].
  split; [ exact HphaseB | ].
  rewrite Hsplit. vm_compute. reflexivity.
Defined.

(** ** Slot B never forms *)

Lemma keepsB_refl s : keepsBOutOfForming s s.
Proof. unfold keepsBOutOfForming. intro H. exact H. Qed.

Lemma keepsB_trans s1 s2 s3 :
  keepsBOutOfForming s1 s2 -> keepsBOutOfForming s2 s3 ->
  keepsBOutOfForming s1 s3.
Proof. unfold keepsBOutOfForming. intros H12 H23 H. apply H12, H23, H. Qed.

Lemma keepsB_same s s' : slotB s' = slotB s -> keepsBOutOfForming s s'.
Proof. unfold keepsBOutOfForming. intros H. rewrite H. intro HF. exact HF. Qed.

Lemma keepsB_phase s s' p :
  phase (slotB s') = p -> p <> Forming -> keepsBOutOfForming s s'.
Proof. unfold keepsBOutOfForming. intros H Hp HF. congruence. Qed.

Lemma trackTextTime_phase t b : phase (trackTextTime t b) = phase b.
Proof. unfold trackTextTime. case_if; reflexivity. Qed.

Lemma advance_phase up dn b :
  phase (advanceSweep (advanceConvergence up dn b)) = phase b.
Proof. reflexivity. Qed.

(** Slot B after its block of [update], when the split is active. *)
Lemma slotBStage_slotB tk s :
  (splitPoint s < count s)%Z ->
  let b1 := slotB s
            |> advanceConvergence (m_convUp (macro s)) (m_convDn (macro s))
            |> advanceSweep
            |> trackTextTime (elapsedTime tk)
            |> holdCheck (textHoldDuration s) (elapsedTime tk) in
  slotB (slotBStage tk s)
  = if released b1 then
      b1 |> set_phase Flow |> set_lastTextTime 0 |> set_targetConvergence 0.1
         |> set_physicsOverrides None |> set_dissolveMode None
         |> set_maxConvergence 1.0 |> set_holdDurationOverride None
         |> set_releaseSpeed 1.0
    else b1.
Proof.
  intros Hsplit b1. unfold slotBStage.
  apply Z.ltb_lt in Hsplit. rewrite Hsplit.
  change (released (slotB ?x)) with (released b1).
  destruct (released b1); reflexivity.
Qed.

Lemma slotBStage_idle tk s :
  (count s <= splitPoint s)%Z -> slotBStage tk s = s.
Proof.
  intro H. unfold slotBStage. apply Z.ltb_ge in H. rewrite H. reflexivity.
Qed.

Lemma tickTransition_slot dflt elapsed up dn b :
  let b1 := b |> advanceConvergence up dn |> advanceSweep
              |> trackTextTime elapsed |> holdCheck dflt elapsed in
  tickTransition (phase b)
    (phase (if released b1 then
              b1 |> set_phase Flow |> set_lastTextTime 0
                 |> set_targetConvergence 0.1 |> set_physicsOverrides None
                 |> set_dissolveMode None |> set_maxConvergence 1.0
                 |> set_holdDurationOverride None |> set_releaseSpeed 1.0
            else b1)).
Proof.
  intro b1.
  assert (Hb1 : phase b1 = phase b \/ (phase b = Text /\ phase b1 = Releasing)).
  { unfold b1.
    destruct (holdCheck_phase dflt elapsed
                (trackTextTime elapsed (advanceSweep (advanceConvergence up dn b))))
      as [H | [H1 H2]].
    - left. rewrite H, trackTextTime_phase. apply advance_phase.
    - right. rewrite trackTextTime_phase, advance_phase in H1.
      split; assumption. }
  clearbody b1. unfold tickTransition.
  destruct (released b1) eqn:Hrel.
  - apply released_true in Hrel. destruct Hrel as [Hrel _].
    change (phase (b1 |> set_phase Flow |> set_lastTextTime 0
                      |> set_targetConvergence 0.1 |> set_physicsOverrides None
                      |> set_dissolveMode None |> set_maxConvergence 1.0
                      |> set_holdDurationOverride None |> set_releaseSpeed 1.0))
      with Flow.
    destruct Hb1 as [H | [H1 H2]].
    + right. right. left. split; [ congruence | reflexivity ].
    + right. right. right. split; [ exact H1 | reflexivity ].
  - destruct Hb1 as [H | [H1 H2]].
    + left. exact H.
    + right. left. split; assumption.
Qed.

Lemma slotBStage_transition tk s :
  tickTransition (phase (slotB s)) (phase (slotB (slotBStage tk s))).
Proof.
  destruct (Z_lt_le_dec (splitPoint s) (count s)) as [Hlt | Hge].
  - rewrite (slotBStage_slotB tk s Hlt). apply tickTransition_slot.
  - rewrite (slotBStage_idle tk s Hge). left. reflexivity.
Qed.

Lemma tickTransition_not_forming p p' :
  tickTransition p p' -> p' = Forming -> p = Forming.
Proof.
  unfold tickTransition.
  intros [H | [[H1 H2] | [[H1 H2] | [H1 H2]]]] HF; congruence.
Qed.

Lemma clockStage_slotB tk s : slotB (clockStage tk s) = slotB s.
Proof. unfold clockStage. stage_frame. Qed.

Lemma dissolveStage_slotB s : slotB (dissolveStage s) = slotB s.
Proof. unfold dissolveStage. stage_frame. Qed.

Lemma formationStage_slotB tk s : slotB (formationStage tk s) = slotB s.
Proof.
  unfold formationStage.
  destruct (formationPending (main s)); [ | reflexivity ].
  destruct (charData (main s)) as [chars | ]; [ | reflexivity ].
  destruct (animDef _) as [delay stagger].
  destruct (revealLoop _ _ _ _ _ _) as [[chars' ws] allRevealed].
  repeat case_if; reflexivity.
Qed.

Lemma animatedFlowStage_slotB tk s : slotB (animatedFlowStage tk s) = slotB s.
Proof. unfold animatedFlowStage. stage_frame. Qed.

Lemma onMain_slotB f s : slotB (onMain f s) = slotB s.
Proof. reflexivity. Qed.

Lemma convergenceStage_slotB s : slotB (convergenceStage s) = slotB s.
Proof. reflexivity. Qed.

Lemma macroStage_slotB tk s : slotB (macroStage tk s) = slotB s.
Proof. reflexivity. Qed.

Lemma atRelease_slotB tk s :
  slotB (atRelease tk s)
  = slotB (slotBStage tk
             (convergenceStage (dissolveStage (macroStage tk (clockStage tk s))))).
Proof.
  unfold atRelease, holdStage, beforeDissolve, textTimeStage.
  rewrite !onMain_slotB, animatedFlowStage_slotB, formationStage_slotB.
  reflexivity.
Qed.

Lemma atRelease_keepsB tk s : keepsBOutOfForming s (atRelease tk s).
Proof.
  unfold keepsBOutOfForming. rewrite atRelease_slotB. intro HF.
  apply (tickTransition_not_forming _ _ (slotBStage_transition tk _)) in HF.
  rewrite convergenceStage_slotB, dissolveStage_slotB, macroStage_slotB,
    clockStage_slotB in HF.
  exact HF.
Qed.

Lemma setFlowTargets_keepsB pattern options s :
  keepsBOutOfForming s (setFlowTargets pattern options s).
Proof.
  destruct (setFlowTargets_applies pattern options s)
    as (_ & _ & _ & _ & _ & _ & _ & HB & _).
  unfold keepsBOutOfForming. rewrite HB. discriminate.
Qed.

Lemma releaseStage_keepsB s : keepsBOutOfForming s (releaseStage s).
Proof.
  destruct (released (main s)) eqn:Hrel.
  - rewrite (releaseStage_fires s Hrel).
    unfold keepsBOutOfForming.
    change (slotB (onMain ?f ?x)) with (slotB x).
    change (slotB (onMain ?f ?x)) with (slotB x).
    destruct (setFlowTargets_applies
                (orElse (pendingFlowPattern s) "organic") (pendingFlowOptions s)
                (s |> onMain (set_phase Flow) |> onMain (set_lastTextTime 0)
                   |> set_currentText "" |> onMain (set_physicsOverrides None)
                   |> onMain (set_dissolveMode None)
                   |> onMain (set_maxConvergence 1.0)
                   |> onMain (set_holdDurationOverride None)
                   |> onMain (set_releaseSpeed 1.0) |> setInt uBgPatternId 0%Z
                   |> setFloat uTextParticleRatio 1.0
                   |> setFloat uTextPerChar 1.0
                   |> set_targetWorldQuat (Some QuatIdentity)
                   |> resetToSingleLayer |> set_pendingFlowPattern None
                   |> set_pendingFlowOptions noOptions))
      as (_ & _ & _ & _ & _ & _ & _ & HB & _).
    rewrite HB. discriminate.
  - rewrite (releaseStage_idle s Hrel). apply keepsB_refl.
Qed.

Lemma update_keepsB tk s : keepsBOutOfForming s (update tk s).
Proof.
  rewrite update_unfold.
  eapply keepsB_trans; [ apply atRelease_keepsB | apply releaseStage_keepsB ].
Qed.

Lemma set_currentText_slotB txt s : slotB (set_currentText txt s) = slotB s.
Proof. reflexivity. Qed.

Lemma set_flowPatternIdx_slotB n s : slotB (set_flowPatternIdx n s) = slotB s.
Proof. reflexivity. Qed.

Lemma setMode_keepsB mode pattern options s :
  keepsBOutOfForming s (setMode mode pattern options s).
Proof.
  unfold setMode, keepsBOutOfForming.
  repeat case_if;
    rewrite ?set_currentText_slotB, ?set_flowPatternIdx_slotB;
    try (intro H; exact H);
    match goal with
    | |- context [setFlowTargets ?p ?o ?x] =>
        destruct (setFlowTargets_applies p o x)
          as (_ & _ & _ & _ & _ & _ & _ & HB & _);
        rewrite HB; discriminate
    end.
Qed.

Lemma setTextTarget_keepsB raster text options s :
  keepsBOutOfForming s (setTextTarget raster text options s).
Proof.
  unfold setTextTarget, keepsBOutOfForming.
  destruct (truthy text); [ | intro H; exact H ]. cbn [negb].
  repeat case_if; try (intro H; exact H); discriminate.
Qed.

Lemma call_keepsB raster c s : keepsBOutOfForming s (call raster c s).
Proof.
  destruct c; cbn [call].
  - apply setTextTarget_keepsB.
  - apply keepsB_same. unfold setShadowSculptureTarget. case_if; reflexivity.
  - apply setFlowTargets_keepsB.
  - apply keepsB_same. reflexivity.
  - apply keepsB_same. reflexivity.
  - apply keepsB_same. unfold setFlowTargetsMultiLayer.
    destruct layers; [ reflexivity | ].
    unfold setLayer. repeat case_if; reflexivity.
  - apply keepsB_same. reflexivity.
  - apply setMode_keepsB.
  - apply update_keepsB.
  - unfold setParams.
    destruct newPointSize; destruct (truthyOpt mode);
      try apply keepsB_refl;
      try (eapply keepsB_trans; [ | apply setMode_keepsB ];
           apply keepsB_same; reflexivity);
      try apply setMode_keepsB.
    apply keepsB_same. reflexivity.
  - apply keepsB_same. reflexivity.
Qed.

Lemma run_keepsB raster cs s : keepsBOutOfForming s (run raster cs s).
Proof.
  revert s. induction cs as [ | c cs IH ]; intro s; [ apply keepsB_refl | ].
  change (run raster (c :: cs) s) with (run raster cs (call raster c s)).
  eapply keepsB_trans; [ apply call_keepsB | apply IH ].
Qed.

Lemma construct_flow params :
  holdingText (phase (main (construct params))) = false.
Proof. reflexivity. Qed.

Lemma init_slotB params : slotB (init params) = initSlotB.
Proof.
  unfold init.
  rewrite (setMode_flow_immediate None noOptions (construct params)
             (construct_flow params)).
  change (truthyOpt None) with false. cbv iota zeta.
  rewrite set_currentText_slotB, set_flowPatternIdx_slotB.
  destruct (setFlowTargets_applies
              (requestedPattern None (construct params)) noOptions
              (construct params |> onMain (set_sweepDir zero3)
                                |> onMain (set_targetConvergence 0.10)))
    as (_ & _ & _ & _ & _ & _ & _ & HB & _).
  exact HB.
Qed.

Lemma setTextTarget_group_B_buffer raster text options s :
  truthy text = true ->
  o_particleGroup options = Some 1%Z ->
  exists chars,
    charData (slotB (setTextTarget raster text options s)) = Some chars
    /\ targetBuffer (setTextTarget raster text options s)
       = (charWrites (count s) chars ++ targetBuffer s)%list.
Proof.
  intros Htext Hgroup.
  rewrite (setTextTarget_group_B raster text options s Htext Hgroup).
  eexists. split; reflexivity.
Qed.

Lemma charWrites_all COUNT chars cd :
  In cd chars -> nPoints cd <> 0%Z ->
  In (WChar (startIdx cd) (writtenSlice COUNT cd)) (charWrites COUNT chars).
Proof.
  intros Hin Hn. unfold charWrites. rewrite <- in_rev.
  apply in_flat_map. exists cd. split; [ exact Hin | ].
  apply Z.eqb_neq in Hn. rewrite Hn. left. reflexivity.
Qed.

Lemma charWrites_only COUNT chars w :
  In w (charWrites COUNT chars) ->
  exists cd, In cd chars /\ w = WChar (startIdx cd) (writtenSlice COUNT cd).
Proof.
  unfold charWrites. rewrite <- in_rev. intro Hin.
  apply in_flat_map in Hin. destruct Hin as (cd & Hcd & Hw).
  exists cd. split; [ exact Hcd | ].
  destruct (nPoints cd =? 0)%Z; [ destruct Hw | ].
  destruct Hw as [Hw | []]. symmetry. exact Hw.
Qed.



(** ** The kernel *)

Section KernelProperties.

Local Open Scope R_scope.
Import Kernel.

Lemma mix_0 a b : mix a b 0 = a.
Proof. unfold mix. ring. Qed.

Lemma mix_1 a b : mix a b 1 = b.
Proof. unfold mix. ring. Qed.

Lemma clamp_bounds x : 0 <= clamp x 0 1 <= 1.
Proof.
  unfold clamp. split.
  - apply Rmin_glb; [ apply Rmax_r | rlra ].
  - apply Rmin_r.
Qed.

Lemma effConv_group u i : effConv u i = groupConvergence u i.
Proof.
  unfold effConv, inGroupB, groupConvergence, toFloat.
  destruct (ui u uGroupSplit <=? i)%Z; [ apply mix_1 | apply mix_0 ].
Qed.

Lemma effSweep_group u i : effSweep u i = groupSweep u i.
Proof.
  unfold effSweep, inGroupB, groupSweep, toFloat.
  destruct (ui u uGroupSplit <=? i)%Z;
    rewrite ?mix_1, ?mix_0; reflexivity.
Qed.

(** C5.  For every particle the kernel computes [effectiveAttraction] as
    [clamp(convergence - sweepDelay * 0.03 - particleHash * 0.01, 0, 1)],
    where the convergence is the convergence uniform of the particle's
    group (group B from the split index on), [sweepDelay] is the dot
    product of the particle's position with the sweep uniforms of that
    group, and [particleHash] is the hash of [i * 0.137], a function of the
    particle index alone; the result lies within [[0, 1]]. *)
Theorem C5_effective_attraction (hash : R -> R) (u : Uniforms R) (i : Z) (p : V3 R) :
  let conv := groupConvergence u i in
  let sweep := groupSweep u i in
  let delay := vx p * vx sweep + vy p * vy sweep + vz p * vz sweep in
  effectiveAttraction hash u i p
  = Rmin (Rmax (conv - delay * 0.03 - hash (IZR i * 0.137) * 0.01) 0) 1
  /\ sweepDelay u i p = delay
  /\ 0 <= effectiveAttraction hash u i p <= 1.
Proof.
  intros conv sweep delay.
  assert (Hdelay : sweepDelay u i p = delay).
  { unfold sweepDelay, delay, sweep. rewrite effSweep_group. reflexivity. }
  split; [ | split ].
  - unfold effectiveAttraction, clamp, particleHash.
    rewrite effConv_group, Hdelay. reflexivity.
  - exact Hdelay.
  - apply clamp_bounds.
Qed.

(** *** The life reset *)

Lemma vadd_blend_1 (a b : V3 R) : vadd a (vscale (vsub b a) 1) = b.
Proof.
  destruct a as [ax ay az], b as [bx by' bz]. unfold vadd, vscale, vsub.
  cbn [vx vy vz]. f_equal; ring.
Qed.

Lemma vadd_blend_0 (a b : V3 R) : vadd a (vscale (vsub b a) 0) = a.
Proof.
  destruct a as [ax ay az], b as [bx by' bz]. unfold vadd, vscale, vsub.
  cbn [vx vy vz]. f_equal; ring.
Qed.

Lemma Rltb_true x y : x < y -> Rltb x y = true.
Proof. intro H. unfold Rltb. destruct (Rlt_dec x y); [ reflexivity | contradiction ]. Qed.

Lemma Rltb_false x y : y <= x -> Rltb x y = false.
Proof.
  intro H. unfold Rltb. destruct (Rlt_dec x y); [ | reflexivity ].
  exfalso. rlra.
Qed.

Section WithIntrinsics.

Variable hash : R -> R.
Variable hash2 : R -> R -> R.
Variable mx_noise_vec3 : V3 R -> V3 R.
Variable buildGPUTargetSection : Z -> V3 R -> R -> Z -> Z -> V3 R.
Variable u : Uniforms R.
Variable COUNT : Z.

Let kernel := computeUpdate hash hash2 mx_noise_vec3 buildGPUTargetSection u COUNT.
Let forces := integrate hash mx_noise_vec3 buildGPUTargetSection u COUNT.

Lemma respawn_dead i p :
  life_x p - uf u uDeltaTime < 0 ->
  pos (kernel i p)
  = resetPos hash2 u i (resolveTarget buildGPUTargetSection u COUNT i (target p))
             (effectiveAttraction hash u i (pos p))
  /\ life_x (kernel i p) = life_x p - uf u uDeltaTime + life_y p.
Proof.
  intro Hdead. unfold kernel, computeUpdate. cbv zeta. cbn [pos life_x].
  rewrite (Rltb_true _ _ Hdead). unfold toFloat.
  split; [ apply vadd_blend_1 | ring ].
Qed.

Lemma respawn_alive i p :
  0 <= life_x p - uf u uDeltaTime ->
  pos (kernel i p) = fst (forces i p)
  /\ life_x (kernel i p) = life_x p - uf u uDeltaTime.
Proof.
  intro Halive. unfold kernel, forces, computeUpdate. cbv zeta. cbn [pos life_x].
  rewrite (Rltb_false _ _ Halive). unfold toFloat.
  split; [ apply vadd_blend_0 | ring ].
Qed.

End WithIntrinsics.

Lemma vlength_nonneg v : 0 <= vlength v.
Proof. unfold vlength. apply sqrt_pos. Qed.

Lemma vlength_scale v k : vlength (vscale v k) = Rabs k * vlength v.
Proof.
  unfold vlength, vscale. cbn [vx vy vz].
  replace (vx v * k * (vx v * k) + vy v * k * (vy v * k) + vz v * k * (vz v * k))
    with (k * k * (vx v * vx v + vy v * vy v + vz v * vz v)) by ring.
  rewrite sqrt_mult_alt by apply Rle_0_sqr.
  fold (Rsqr k). rewrite sqrt_Rsqr_abs. reflexivity.
Qed.

Lemma vdiv_scale v k : vdiv v k = vscale v (/ k).
Proof. reflexivity. Qed.

Lemma farR_bounds hash2 u i :
  (forall a b, 0 <= hash2 a b <= 1) -> 2.5 <= farR hash2 u i <= 4.5.
Proof.
  intro Hh. unfold farR.
  destruct (Hh (IZR i + 3500) (uf u uTime)) as [H0 H1]. split; rlra.
Qed.

Lemma shellPos_length hash2 u i :
  vlength (shellPos hash2 u i)
  = Rabs (farR hash2 u i)
    * (vlength (raw hash2 u i) / Rmax (vlength (raw hash2 u i)) 0.001).
Proof.
  unfold shellPos. cbv zeta. rewrite vlength_scale, vdiv_scale, vlength_scale.
  assert (Hpos : 0 < Rmax (vlength (raw hash2 u i)) 0.001).
  { apply Rlt_le_trans with 0.001; [ rlra | apply Rmax_r ]. }
  rewrite Rabs_inv, (Rabs_pos_eq (Rmax _ _)) by (left; exact Hpos).
  unfold Rdiv. ring.
Qed.

Lemma blend_monotone a b : 0 <= a -> a <= b -> blend a <= blend b.
Proof.
  intros Ha Hab. unfold blend.
  assert (H : a * a <= b * b) by (apply Rmult_le_compat; rlra).
  rlra.
Qed.

(** C4, as the code has it.  A particle whose [remaining] life, decremented
    by the delta-time uniform, falls below 0 is moved to
    [shellPos + (targetPos - shellPos) * (0.8 a^2 + 0.2 a)], where [a] is
    its effective attraction, [targetPos] is its target plus a jitter of at
    most [0.02 * raw], and [shellPos] is a random point on a shell of
    radius between 2.5 and 4.5 around the origin of the particle frame
    (not around the target); [total] is added back onto [remaining].  The
    blend weight grows from 0 to 1 with the attraction: without attraction
    the particle lands on the shell, with full attraction on [targetPos].
    A particle whose life has not run out keeps the position the force
    steps gave it. *)
Theorem C4_life_reset
    (hash : R -> R) (hash2 : R -> R -> R) (mx_noise_vec3 : V3 R -> V3 R)
    (buildGPUTargetSection : Z -> V3 R -> R -> Z -> Z -> V3 R)
    (u : Uniforms R) (COUNT i : Z) (p : Particle) :
  (forall a b, 0 <= hash2 a b <= 1) ->
  let p' := computeUpdate hash hash2 mx_noise_vec3 buildGPUTargetSection u COUNT i p in
  let tgt := resolveTarget buildGPUTargetSection u COUNT i (target p) in
  let a := effectiveAttraction hash u i (pos p) in
  let shell := shellPos hash2 u i in
  let tpos := targetPos hash2 u i tgt a in
  (life_x p - uf u uDeltaTime < 0 ->
   pos p' = vadd shell (vscale (vsub tpos shell) (blend a))
   /\ life_x p' = life_x p - uf u uDeltaTime + life_y p)
  /\ (0 <= life_x p - uf u uDeltaTime ->
      pos p' = fst (integrate hash mx_noise_vec3 buildGPUTargetSection u COUNT i p)
      /\ life_x p' = life_x p - uf u uDeltaTime)
  /\ 2.5 <= farR hash2 u i <= 4.5
  /\ vlength shell <= farR hash2 u i
  /\ (0.001 <= vlength (raw hash2 u i) -> vlength shell = farR hash2 u i)
  /\ tpos = vadd tgt (vscale (vscale (raw hash2 u i) 0.02) (Rmax (1 - a) 0.05))
  /\ blend 0 = 0 /\ blend 1 = 1
  /\ (forall x y, 0 <= x -> x <= y -> blend x <= blend y).
Proof.
  intros Hh p' tgt a shell tpos.
  destruct (farR_bounds hash2 u i Hh) as [Hlo Hhi].
  assert (Hlen : vlength shell
                 = farR hash2 u i
                   * (vlength (raw hash2 u i)
                      / Rmax (vlength (raw hash2 u i)) 0.001)).
  { unfold shell. rewrite shellPos_length, Rabs_pos_eq by rlra. reflexivity. }
  assert (Hmax : 0 < Rmax (vlength (raw hash2 u i)) 0.001).
  { apply Rlt_le_trans with 0.001; [ rlra | apply Rmax_r ]. }
  split; [ | split; [ | split; [ | split; [ | split; [ | split ]]]]].
  - intro Hdead. apply respawn_dead. exact Hdead.
  - intro Halive. apply respawn_alive. exact Halive.
  - split; assumption.
  - rewrite Hlen.
    assert (Hratio : vlength (raw hash2 u i)
                     / Rmax (vlength (raw hash2 u i)) 0.001 <= 1).
    { apply Rmult_le_reg_r with (Rmax (vlength (raw hash2 u i)) 0.001);
        [ exact Hmax | ].
      unfold Rdiv. rewrite Rmult_assoc, Rinv_l, Rmult_1_r, Rmult_1_l by rlra.
      apply Rmax_l. }
    assert (Hr0 : 0 <= vlength (raw hash2 u i)
                       / Rmax (vlength (raw hash2 u i)) 0.001).
    { apply Rmult_le_pos; [ apply vlength_nonneg | left; apply Rinv_0_lt_compat, Hmax ]. }
    replace (farR hash2 u i) with (farR hash2 u i * 1) at 2 by ring.
    apply Rmult_le_compat_l; [ rlra | exact Hratio ].
  - intro Hraw. rewrite Hlen, Rmax_left by exact Hraw.
    unfold Rdiv. rewrite Rinv_r by rlra. ring.
  - reflexivity.
  - split; [ unfold blend; rlra | ].
    split; [ unfold blend; rlra | ].
    intros x y Hx Hxy. apply blend_monotone; assumption.
Qed.

(** *** The life reset on the example particle *)

Lemma stepHash2_range a b : 0 <= stepHash2 a b <= 1.
Proof. unfold stepHash2. destruct (Rle_dec a 1000); split; rlra. Qed.

Lemma expiring_dead c : life_x expiring - uf (plainUniforms c) uDeltaTime < 0.
Proof. cbn [life_x expiring uf plainUniforms]. rlra. Qed.

Lemma expiring_target c :
  resolveTarget keepTarget (plainUniforms c) 1000 0 (target expiring)
  = mkV3 3 0 0.
Proof.
  unfold resolveTarget, effPatternId, isBgParticle, effLayer, inGroupB.
  cbn [ui plainUniforms Z.ltb Z.leb Z.compare andb fst snd toFloat].
  rewrite Rltb_false by rlra. reflexivity.
Qed.

Lemma expiring_attraction c :
  0 <= c <= 1 ->
  effectiveAttraction zeroHash (plainUniforms c) 0 (pos expiring) = c.
Proof.
  intro Hc. unfold effectiveAttraction, clamp, effConv, sweepDelay, effSweep,
    particleHash, zeroHash, inGroupB, mix.
  cbn [ui uf plainUniforms Z.leb Z.compare toFloat pos expiring vx vy vz].
  replace (c * (1 - 0) + 0 * 0
           - (0 * (0 * (1 - 0) + 0 * 0) + 0 * (0 * (1 - 0) + 0 * 0)
              + 0 * (0 * (1 - 0) + 0 * 0)) * 0.03 - 0 * 0.01)
    with c by ring.
  rewrite Rmax_left, Rmin_left by rlra. reflexivity.
Qed.

Lemma stepHash2_raw c :
  raw stepHash2 (plainUniforms c) 0 = mkV3 0.5 0 0.
Proof.
  unfold raw, stepHash2. cbv zeta.
  destruct (Rle_dec (0 + 500) 1000) as [_ | H]; [ | exfalso; rlra ].
  destruct (Rle_dec (0 + 1500) 1000) as [H | _]; [ exfalso; rlra | ].
  destruct (Rle_dec (0 + 2500) 1000) as [H | _]; [ exfalso; rlra | ].
  f_equal; rlra.
Qed.

Lemma stepHash2_farR c : farR stepHash2 (plainUniforms c) 0 = 3.5.
Proof.
  unfold farR, stepHash2.
  destruct (Rle_dec (0 + 3500) 1000) as [H | _]; [ exfalso; rlra | ]. rlra.
Qed.

Lemma stepHash2_shell c :
  shellPos stepHash2 (plainUniforms c) 0 = mkV3 3.5 0 0.
Proof.
  unfold shellPos. cbv zeta. rewrite stepHash2_raw, stepHash2_farR.
  assert (Hlen : vlength (mkV3 0.5 0 0) = 0.5).
  { unfold vlength. cbn [vx vy vz].
    replace (0.5 * 0.5 + 0 * 0 + 0 * 0) with (0.5 * 0.5) by rlra.
    apply sqrt_square. rlra. }
  rewrite Hlen, Rmax_left by rlra.
  unfold vscale, vdiv. cbn [vx vy vz]. f_equal; rlra.
Qed.

Lemma halfHash2_raw c : raw halfHash2 (plainUniforms c) 0 = mkV3 0 0 0.
Proof. unfold raw, halfHash2. cbv zeta. f_equal; rlra. Qed.

Lemma C4_life_reset_witness :
  (forall a b, 0 <= stepHash2 a b <= 1)
  /\ life_x expiring - uf (plainUniforms 0) uDeltaTime < 0
  /\ life_x respawnedFar
     = life_x expiring - uf (plainUniforms 0) uDeltaTime + life_y expiring
  /\ 2.5 <= farR stepHash2 (plainUniforms 0) 0 <= 4.5.
Proof.
  split; [ exact stepHash2_range | ].
  split; [ exact (expiring_dead 0) | ].
  destruct (C4_life_reset zeroHash stepHash2 noNoise keepTarget
              (plainUniforms 0) 1000 0 expiring stepHash2_range)
    as (Hdead & _ & Hfar & _).
  split; [ exact (proj2 (Hdead (expiring_dead 0))) | exact Hfar ].
Defined.

(** C4, as stated, fails on where the shell lies.  The example particle,
    whose life has run out and whose target is (3, 0, 0), is respawned
    without attraction at (3.5, 0, 0), on the shell of radius 3.5 around
    the origin: at distance 0.5 from its target, not between 2.5 and 4.5.
    With full attraction and a hash that is 1/2 throughout it is respawned
    exactly on its target. *)
Lemma C4_counterexample :
  life_x expiring - uf (plainUniforms 0) uDeltaTime < 0
  /\ effectiveAttraction zeroHash (plainUniforms 0) 0 (pos expiring) = 0
  /\ pos respawnedFar = mkV3 3.5 0 0
  /\ target respawnedFar = mkV3 3 0 0
  /\ vlength (vsub (pos respawnedFar) (target respawnedFar)) = 0.5
  /\ ~ (2.5 <= vlength (vsub (pos respawnedFar) (target respawnedFar)) <= 4.5)
  /\ effectiveAttraction zeroHash (plainUniforms 1) 0 (pos expiring) = 1
  /\ pos respawnedOnTarget = target respawnedOnTarget.
Proof.
  assert (Hea0 : effectiveAttraction zeroHash (plainUniforms 0) 0 (pos expiring) = 0)
    by (apply expiring_attraction; rlra).
  assert (Hea1 : effectiveAttraction zeroHash (plainUniforms 1) 0 (pos expiring) = 1)
    by (apply expiring_attraction; rlra).
  assert (Hpos : pos respawnedFar = mkV3 3.5 0 0).
  { unfold respawnedFar.
    rewrite (proj1 (respawn_dead zeroHash stepHash2 noNoise keepTarget
                      (plainUniforms 0) 1000 0 expiring (expiring_dead 0))).
    rewrite Hea0, expiring_target. unfold resetPos.
    replace (blend 0) with 0 by (unfold blend; rlra).
    rewrite vadd_blend_0. apply stepHash2_shell. }
  assert (Htgt : target respawnedFar = mkV3 3 0 0).
  { unfold respawnedFar, computeUpdate. cbv zeta. cbn [target].
    apply expiring_target. }
  assert (Hdist : vlength (vsub (pos respawnedFar) (target respawnedFar)) = 0.5).
  { rewrite Hpos, Htgt. unfold vlength, vsub. cbn [vx vy vz].
    replace ((3.5 - 3) * (3.5 - 3) + (0 - 0) * (0 - 0) + (0 - 0) * (0 - 0))
      with (0.5 * 0.5) by rlra.
    apply sqrt_square. rlra. }
  split; [ exact (expiring_dead 0) | ].
  split; [ exact Hea0 | ].
  split; [ exact Hpos | ].
  split; [ exact Htgt | ].
  split; [ exact Hdist | ].
  split; [ rewrite Hdist; intros [H _]; rlra | ].
  split; [ exact Hea1 | ].
  unfold respawnedOnTarget.
  rewrite (proj1 (respawn_dead zeroHash halfHash2 noNoise keepTarget
                    (plainUniforms 1) 1000 0 expiring (expiring_dead 1))).
  unfold computeUpdate. cbv zeta. cbn [target].
  rewrite Hea1, expiring_target. unfold resetPos.
  replace (blend 1) with 1 by (unfold blend; rlra).
  rewrite vadd_blend_1. unfold targetPos. cbv zeta. rewrite halfHash2_raw.
  unfold vadd, vscale. cbn [vx vy vz]. f_equal; ring.
Qed.

End KernelProperties.

(** ** Multi-layer flow *)

Lemma multiLayer_count first rest s :
  ui (uniforms (setFlowTargetsMultiLayer (first :: rest) s)) uNumLayers
  = Z.of_nat (Nat.min (length (first :: rest)) 4).
Proof.
  unfold setFlowTargetsMultiLayer, setLayer.
  repeat case_if; reflexivity.
Qed.

Lemma min_length_4 {A : Type} (l : list A) :
  (Z.of_nat (Nat.min (length l) 4) <= 4)%Z.
Proof. pose proof (Nat.le_min_r (length l) 4). lia. Qed.

(** With one layer the kernel stays in single-layer mode. *)
Lemma effLayer_single l0 s i :
  Kernel.effLayer (Kernel.upload (uniforms (setFlowTargetsMultiLayer [l0] s))) i
  = (layerGpuId (l_pattern l0),
     v3map Q2R (uv (uniforms s) uFlowOrigin),
     Q2R (uf (uniforms s) uFlowScale)).
Proof. reflexivity. Qed.

Lemma mod_2_cases i : (0 <= i)%Z -> (i mod 2 = 0 \/ i mod 2 = 1)%Z.
Proof. intro H. pose proof (Z.mod_pos_bound i 2). lia. Qed.

Lemma mod_3_cases i :
  (0 <= i)%Z -> (i mod 3 = 0 \/ i mod 3 = 1 \/ i mod 3 = 2)%Z.
Proof. intro H. pose proof (Z.mod_pos_bound i 3). lia. Qed.

Lemma mod_4_cases i :
  (0 <= i)%Z -> (i mod 4 = 0 \/ i mod 4 = 1 \/ i mod 4 = 2 \/ i mod 4 = 3)%Z.
Proof. intro H. pose proof (Z.mod_pos_bound i 4). lia. Qed.

Ltac pick_layer layerId Hk :=
  unfold layerOf, Kernel.effLayer;
  cbn [length Nat.min Z.of_nat Pos.of_succ_nat Pos.succ];
  change (ui (Kernel.upload ?h) ?k) with (ui h k);
  rewrite ?multiLayer_count;
  cbn [length Nat.min Z.of_nat Pos.of_succ_nat Pos.succ Z.ltb Z.compare
       Pos.compare Pos.compare_cont];
  rewrite Hk;
  cbn [Z.to_nat Pos.to_nat Pos.iter_op Nat.add nth_error Z.ltb Z.compare
       Pos.compare Pos.compare_cont];
  split; reflexivity.

(** With two layers or more, the multi-layer block picks the layer
    [i mod layerCount] and that layer's pattern id, origin and scale. *)
Lemma effLayer_selects layers s i :
  (2 <= length layers)%nat -> (0 <= i)%Z ->
  exists layer,
    layerOf layers i = Some layer
    /\ Kernel.effLayer
         (Kernel.upload (uniforms (setFlowTargetsMultiLayer layers s))) i
       = layerSetting layer.
Proof.
  intros Hlen Hi.
  destruct layers as [ | l0 [ | l1 [ | l2 [ | l3 rest ]]]];
    try (cbn [length] in Hlen; lia).
  - destruct (mod_2_cases i Hi) as [Hk | Hk].
    + exists l0. pick_layer 0%Z Hk.
    + exists l1. pick_layer 1%Z Hk.
  - destruct (mod_3_cases i Hi) as [Hk | [Hk | Hk]].
    + exists l0. pick_layer 0%Z Hk.
    + exists l1. pick_layer 1%Z Hk.
    + exists l2. pick_layer 2%Z Hk.
  - assert (Hmin : Nat.min (length (l0 :: l1 :: l2 :: l3 :: rest)) 4 = 4%nat)
      by (cbn [length]; lia).
    destruct (mod_4_cases i Hi) as [Hk | [Hk | [Hk | Hk]]].
    + exists l0. unfold layerOf, Kernel.effLayer.
      change (ui (Kernel.upload ?h) ?k) with (ui h k).
      rewrite multiLayer_count, Hmin.
      change (Z.of_nat 4) with 4%Z. rewrite Hk. split; reflexivity.
    + exists l1. unfold layerOf, Kernel.effLayer.
      change (ui (Kernel.upload ?h) ?k) with (ui h k).
      rewrite multiLayer_count, Hmin.
      change (Z.of_nat 4) with 4%Z. rewrite Hk. split; reflexivity.
    + exists l2. unfold layerOf, Kernel.effLayer.
      change (ui (Kernel.upload ?h) ?k) with (ui h k).
      rewrite multiLayer_count, Hmin.
      change (Z.of_nat 4) with 4%Z. rewrite Hk. split; reflexivity.
    + exists l3. unfold layerOf, Kernel.effLayer.
      change (ui (Kernel.upload ?h) ?k) with (ui h k).
      rewrite multiLayer_count, Hmin.
      change (Z.of_nat 4) with 4%Z. rewrite Hk. split; reflexivity.
Qed.

Lemma Q2R_1_2 : Q2R 1.0 <> Q2R 2.
Proof. unfold Q2R. cbn [Qnum Qden]. intro H. Lra.lra. Qed.

Lemma init_flow_scale :
  uf (uniforms (init noParams)) uFlowScale = 1.0
  /\ uv (uniforms (init noParams)) uFlowOrigin = zero3.
Proof. split; vm_compute; reflexivity. Qed.




(** * Further properties of the engine *)

(** ** Character slices *)

Lemma assignSlices_tiles groupStart groupCount nChars sampled :
  forall c : Z,
    (0 <= c)%Z -> sampled <> [] ->
    (c + Z.of_nat (length sampled) = nChars)%Z ->
    (0 <= groupCount)%Z ->
    tiles (groupStart + c * (groupCount / nChars))
          (groupStart + groupCount)
          (assignSlices groupStart groupCount (groupCount / nChars) nChars c
                        sampled).
Proof.
  induction sampled as [ | pts rest IH ]; intros c Hc Hne Hlen Hcount;
    [ congruence | ].
  assert (HnChars : (0 < nChars)%Z) by (cbn [length] in Hlen; lia).
  assert (Hper : (0 <= groupCount / nChars)%Z) by (apply Z.div_pos; lia).
  assert (Hmul : (nChars * (groupCount / nChars) <= groupCount)%Z)
    by (apply Z.mul_div_le; lia).
  cbn [assignSlices tiles startIdx cnt].
  destruct rest as [ | pts' rest' ].
  - assert (Hlast : c = (nChars - 1)%Z) by (cbn [length] in Hlen; lia).
    rewrite Hlast, Z.ltb_irrefl. cbn [assignSlices tiles].
    repeat split; nia.
  - assert (Hlt : (c <? nChars - 1)%Z = true)
      by (apply Z.ltb_lt; cbn [length] in Hlen; lia).
    rewrite Hlt. split; [ reflexivity | ]. split; [ exact Hper | ].
    replace (groupStart + c * (groupCount / nChars) + groupCount / nChars)%Z
      with (groupStart + (c + 1) * (groupCount / nChars))%Z by ring.
    apply IH; [ lia | discriminate | cbn [length] in Hlen |- *; lia | exact Hcount ].
Qed.

Lemma assignSlices_points groupStart groupCount perChar nChars sampled :
  forall c : Z,
    map nPoints (assignSlices groupStart groupCount perChar nChars c sampled)
    = sampled
    /\ Forall (fun cd => revealed cd = false)
              (assignSlices groupStart groupCount perChar nChars c sampled).
Proof.
  induction sampled as [ | pts rest IH ]; intro c; cbn [assignSlices map].
  - split; [ reflexivity | constructor ].
  - destruct (IH (c + 1)%Z) as [Hmap Hall]. split.
    + cbn [nPoints]. f_equal. exact Hmap.
    + constructor; [ reflexivity | exact Hall ].
Qed.

(** X1.  The character records that [setTextTarget] builds for group B
    tile the group's index range: when the rasteriser returns one entry
    per character of a non-empty text and the particle count is not
    negative, the slices start at [floor(count / 2)], each begins where the
    previous one ends, none is negative, the last one ends at [count], and
    every record starts unrevealed with the sampled point count of its
    character. *)
Theorem X1_group_B_slices_tile
    (raster : string -> Options -> Z -> list Z)
    (text : string) (options : Options) (s : Engine) :
  truthy text = true ->
  o_particleGroup options = Some 1%Z ->
  (0 <= count s)%Z ->
  (forall o m, length (raster text o m) = String.length text) ->
  exists chars,
    charData (slotB (setTextTarget raster text options s)) = Some chars
    /\ tiles (count s / 2) (count s) chars
    /\ length chars = String.length text
    /\ Forall (fun cd => revealed cd = false) chars.
Proof.
  intros Htext Hgroup Hcount Hraster.
  rewrite (setTextTarget_group_B raster text options s Htext Hgroup).
  cbv zeta.
  set (half := (count s / 2)%Z).
  set (nChars := Z.of_nat (String.length text)).
  set (sampled := raster text options (Z.min 30000 ((count s - half) / nChars))).
  exists (assignSlices half (count s - half) ((count s - half) / nChars)
                       nChars 0 sampled).
  assert (Hlen : length sampled = String.length text) by apply Hraster.
  assert (Hpos : (0 < String.length text)%nat)
    by (destruct text; [ discriminate | cbn [String.length]; lia ]).
  assert (Hhalf : (0 <= half <= count s)%Z).
  { unfold half. split; [ apply Z.div_pos; lia | ].
    apply Z.div_le_upper_bound; lia. }
  split; [ reflexivity | ].
  split; [ | split ].
  - assert (Hne : sampled <> []).
    { intro H. rewrite H in Hlen. cbn [length] in Hlen. lia. }
    assert (Hn : (0 + Z.of_nat (length sampled) = nChars)%Z)
      by (unfold nChars; rewrite Hlen; lia).
    assert (Hgc : (0 <= count s - half)%Z) by lia.
    pose proof (assignSlices_tiles half (count s - half) nChars sampled 0
                  (Z.le_refl 0) Hne Hn Hgc) as Htiles.
    rewrite Z.mul_0_l, Z.add_0_r in Htiles.
    replace (half + (count s - half))%Z with (count s) in Htiles by ring.
    exact Htiles.
  - rewrite <- (length_map nPoints).
    rewrite (proj1 (assignSlices_points _ _ _ _ sampled 0%Z)). exact Hlen.
  - apply assignSlices_points.
Qed.

Lemma X1_group_B_slices_tile_witness :
  truthy "CD" = true
  /\ o_particleGroup groupBOptions = Some 1%Z
  /\ (0 <= count heldRun)%Z
  /\ exists chars,
       charData (slotB (setTextTarget uniformRaster "CD" groupBOptions heldRun))
       = Some chars
       /\ tiles (count heldRun / 2) (count heldRun) chars.
Proof.
  assert (H1 : truthy "CD" = true) by reflexivity.
  assert (H2 : o_particleGroup groupBOptions = Some 1%Z) by reflexivity.
  assert (H3 : (0 <= count heldRun)%Z) by (vm_compute; discriminate).
  assert (H4 : forall o m, length (uniformRaster "CD" o m) = String.length "CD")
    by (intros; reflexivity).
  split; [ exact H1 | ]. split; [ exact H2 | ]. split; [ exact H3 | ].
  destruct (X1_group_B_slices_tile uniformRaster "CD" groupBOptions heldRun
              H1 H2 H3 H4) as (chars & Hc & Ht & _).
  exists chars. split; [ exact Hc | exact Ht ].
Defined.

(** ** The group split *)

Lemma splitView_consistent s s' :
  splitView s' = splitView s -> splitConsistent s -> splitConsistent s'.
Proof.
  unfold splitView, splitConsistent. intros Hv [Hs Hu].
  injection Hv as Hc Hp Hi. rewrite Hc, Hp, Hi. split; assumption.
Qed.

Lemma splitView_trans s1 s2 s3 :
  splitView s2 = splitView s1 -> splitView s3 = splitView s2 ->
  splitView s3 = splitView s1.
Proof. intros H1 H2. rewrite H2. exact H1. Qed.

Lemma clockStage_split tk s : splitView (clockStage tk s) = splitView s.
Proof. unfold clockStage. repeat case_if; reflexivity. Qed.

Lemma macroStage_split tk s : splitView (macroStage tk s) = splitView s.
Proof. reflexivity. Qed.

Lemma dissolveStage_split s : splitView (dissolveStage s) = splitView s.
Proof. unfold dissolveStage. repeat case_if; reflexivity. Qed.

Lemma convergenceStage_split s : splitView (convergenceStage s) = splitView s.
Proof. reflexivity. Qed.

Lemma slotBStage_split tk s : splitView (slotBStage tk s) = splitView s.
Proof. unfold slotBStage. repeat case_if; reflexivity. Qed.

Lemma formationStage_split tk s : splitView (formationStage tk s) = splitView s.
Proof.
  unfold formationStage.
  destruct (formationPending (main s)); [ | reflexivity ].
  destruct (charData (main s)) as [chars | ]; [ | reflexivity ].
  destruct (animDef _) as [delay stagger].
  destruct (revealLoop _ _ _ _ _ _) as [[chars' ws] allRevealed].
  repeat case_if; reflexivity.
Qed.

Lemma animatedFlowStage_split tk s :
  splitView (animatedFlowStage tk s) = splitView s.
Proof. unfold animatedFlowStage. repeat case_if; reflexivity. Qed.

Lemma textTimeStage_split tk s : splitView (textTimeStage tk s) = splitView s.
Proof. reflexivity. Qed.

Lemma holdStage_split tk s : splitView (holdStage tk s) = splitView s.
Proof. reflexivity. Qed.

Lemma atRelease_split tk s : splitView (atRelease tk s) = splitView s.
Proof.
  unfold atRelease, beforeDissolve.
  rewrite holdStage_split, textTimeStage_split, animatedFlowStage_split,
    formationStage_split, slotBStage_split, convergenceStage_split,
    dissolveStage_split, macroStage_split, clockStage_split.
  reflexivity.
Qed.

Lemma setFlowTargets_split pattern options s :
  splitView (setFlowTargets pattern options s) = (count s, count s, count s).
Proof. unfold setFlowTargets. repeat case_if; reflexivity. Qed.

Lemma unsplit_consistent s :
  splitView s = (count s, count s, count s) -> splitConsistent s.
Proof.
  unfold splitView, splitConsistent. intro H. injection H as Hp Hi.
  rewrite Hp, Hi. split; [ left | ]; reflexivity.
Qed.

Lemma splitView_count s s' : splitView s' = splitView s -> count s' = count s.
Proof. unfold splitView. intro H. injection H as Hc _ _. exact Hc. Qed.

Lemma setFlowTargets_count pattern options s :
  count (setFlowTargets pattern options s) = count s.
Proof. unfold setFlowTargets. repeat case_if; reflexivity. Qed.

Lemma setFlowTargets_consistent pattern options s :
  splitConsistent (setFlowTargets pattern options s).
Proof.
  apply unsplit_consistent. rewrite setFlowTargets_split, setFlowTargets_count.
  reflexivity.
Qed.

Lemma onMain_split f s : splitView (onMain f s) = splitView s.
Proof. reflexivity. Qed.

Lemma onMain_count f s : count (onMain f s) = count s.
Proof. reflexivity. Qed.

Lemma releaseStage_count s : count (releaseStage s) = count s.
Proof.
  destruct (released (main s)) eqn:H;
    [ | rewrite (releaseStage_idle s H); reflexivity ].
  rewrite (releaseStage_fires s H).
  rewrite !onMain_count, setFlowTargets_count. reflexivity.
Qed.

Lemma releaseStage_consistent s :
  splitConsistent s -> splitConsistent (releaseStage s).
Proof.
  intro Hs. destruct (released (main s)) eqn:H;
    [ | rewrite (releaseStage_idle s H); exact Hs ].
  rewrite (releaseStage_fires s H).
  eapply splitView_consistent; [ | apply setFlowTargets_consistent ].
  rewrite !onMain_split. reflexivity.
Qed.

Lemma update_count tk s : count (update tk s) = count s.
Proof.
  rewrite update_unfold, releaseStage_count.
  apply splitView_count, atRelease_split.
Qed.

Lemma update_consistent tk s :
  splitConsistent s -> splitConsistent (update tk s).
Proof.
  intro H. rewrite update_unfold. apply releaseStage_consistent.
  apply (splitView_consistent s); [ apply atRelease_split | exact H ].
Qed.

Lemma setMode_count mode pattern options s :
  count (setMode mode pattern options s) = count s.
Proof.
  unfold setMode, setFlowTargets. repeat case_if; reflexivity.
Qed.

Lemma setMode_consistent mode pattern options s :
  splitConsistent s -> splitConsistent (setMode mode pattern options s).
Proof.
  intro H. unfold setMode.
  destruct (String.eqb mode "text" || String.eqb mode "forming") eqn:Htext.
  - cbn [negb andb].
    assert (Hn : negb (String.eqb mode "text") && negb (String.eqb mode "forming")
                 = false).
    { destruct (String.eqb mode "text"), (String.eqb mode "forming");
        try reflexivity; discriminate. }
    rewrite Hn. revert H. apply splitView_consistent. reflexivity.
  - destruct (negb (String.eqb mode "text") && negb (String.eqb mode "forming")).
    + destruct (String.eqb mode "flow").
      * destruct (holdingText _).
        -- revert H. apply splitView_consistent. reflexivity.
        -- destruct (truthyOpt pattern).
           ++ apply (splitView_consistent
                       (setFlowTargets (orElse pattern "") options
                          (s |> onMain (set_sweepDir zero3)
                             |> onMain (set_targetConvergence 0.10))));
                [ reflexivity | apply setFlowTargets_consistent ].
           ++ match goal with
              | |- splitConsistent
                     (set_currentText _ (set_flowPatternIdx _ ?x)) =>
                  apply (splitView_consistent x);
                    [ reflexivity | apply setFlowTargets_consistent ]
              end.
      * revert H. apply splitView_consistent. reflexivity.
    + destruct (String.eqb mode "flow").
      * destruct (holdingText _).
        -- revert H. apply splitView_consistent. reflexivity.
        -- destruct (truthyOpt pattern).
           ++ apply setFlowTargets_consistent.
           ++ match goal with
              | |- splitConsistent (set_flowPatternIdx _ ?x) =>
                  apply (splitView_consistent x);
                    [ reflexivity | apply setFlowTargets_consistent ]
              end.
      * revert H. apply splitView_consistent. reflexivity.
Qed.

Lemma setFlowTargetsMultiLayer_split layers s :
  splitView (setFlowTargetsMultiLayer layers s) = splitView s.
Proof.
  unfold setFlowTargetsMultiLayer. destruct layers as [ | first rest ];
    [ reflexivity | ].
  unfold setLayer. repeat case_if; reflexivity.
Qed.

Lemma setShadowSculptureTarget_split textA textB options s :
  splitView (setShadowSculptureTarget textA textB options s) = splitView s.
Proof. unfold setShadowSculptureTarget. repeat case_if; reflexivity. Qed.

Lemma setTextTarget_count raster text options s :
  count (setTextTarget raster text options s) = count s.
Proof.
  unfold setTextTarget, setupFormation, applyAllCharTargets.
  repeat case_if; reflexivity.
Qed.

Lemma setTextTarget_split raster text options s :
  splitView (setTextTarget raster text options s) = splitView s
  \/ splitView (setTextTarget raster text options s)
     = (count s, count s / 2, count s / 2)%Z
  \/ splitView (setTextTarget raster text options s)
     = (count s, count s, count s).
Proof.
  unfold setTextTarget, setupFormation, applyAllCharTargets.
  destruct (negb (truthy text)); [ left; reflexivity | ].
  destruct (nullish (o_particleGroup options) 0 =? 1)%Z.
  - right; left. repeat case_if; reflexivity.
  - destruct ((nullish (o_particleGroup options) 0 =? 0)%Z
              && truthyOpt (o_groupBPattern options)).
    + right; left. repeat case_if; reflexivity.
    + destruct ((nullish (o_particleGroup options) 0 =? 0)%Z
                && groupBPatternActive s).
      * right; right. repeat case_if; reflexivity.
      * left. repeat case_if; reflexivity.
Qed.

Lemma setTextTarget_consistent raster text options s :
  splitConsistent s -> splitConsistent (setTextTarget raster text options s).
Proof.
  intro H.
  destruct (setTextTarget_split raster text options s) as [Hv | [Hv | Hv]].
  - exact (splitView_consistent _ _ Hv H).
  - pose proof (setTextTarget_count raster text options s) as Hc.
    unfold splitView in Hv. injection Hv as _ Hp Hi.
    unfold splitConsistent. rewrite Hp, Hi, Hc. split; [ right | ]; reflexivity.
  - pose proof (setTextTarget_count raster text options s) as Hc.
    unfold splitView in Hv. injection Hv as _ Hp Hi.
    unfold splitConsistent. rewrite Hp, Hi, Hc. split; [ left | ]; reflexivity.
Qed.

Lemma call_consistent raster c s :
  splitConsistent s -> splitConsistent (call raster c s).
Proof.
  intro H. destruct c; unfold call.
  - apply setTextTarget_consistent, H.
  - exact (splitView_consistent _ _
             (setShadowSculptureTarget_split textA textB options s) H).
  - apply setFlowTargets_consistent.
  - exact H.
  - exact H.
  - exact (splitView_consistent _ _ (setFlowTargetsMultiLayer_split layers s) H).
  - exact H.
  - apply setMode_consistent, H.
  - apply update_consistent, H.
  - unfold setParams. destruct newPointSize as [v | ].
    + destruct (truthyOpt mode); [ apply setMode_consistent | ]; exact H.
    + destruct (truthyOpt mode); [ apply setMode_consistent | ]; exact H.
  - exact H.
Qed.

Lemma call_count raster c s : count (call raster c s) = count s.
Proof.
  destruct c; unfold call; try reflexivity.
  - apply setTextTarget_count.
  - apply (splitView_count _ _ (setShadowSculptureTarget_split _ _ _ s)).
  - apply setFlowTargets_count.
  - apply (splitView_count _ _ (setFlowTargetsMultiLayer_split _ s)).
  - apply setMode_count.
  - apply update_count.
  - unfold setParams. destruct newPointSize as [v | ];
      (destruct (truthyOpt mode); [ rewrite setMode_count | ]; reflexivity).
Qed.

Lemma run_cons raster c cs s :
  run raster (c :: cs) s = run raster cs (call raster c s).
Proof. reflexivity. Qed.

Lemma init_consistent params : splitConsistent (init params).
Proof.
  unfold init. apply setMode_consistent.
  unfold splitConsistent. split; [ left | ]; reflexivity.
Qed.

(** X2.  The group split stays consistent under every sequence of calls
    on an initialised engine: the particle count never changes, the split
    index is either the count (no split) or [floor(count / 2)], and the
    split uniform that the kernel reads always equals the host's split
    index. *)
Theorem X2_split_consistent
    (raster : string -> Options -> Z -> list Z)
    (cs : list Command) (params : Params) :
  count (run raster cs (init params)) = count (init params)
  /\ splitConsistent (run raster cs (init params)).
Proof.
  assert (H : forall s, splitConsistent s ->
                count (run raster cs s) = count s
                /\ splitConsistent (run raster cs s)).
  { induction cs as [ | c cs IH ]; intros s Hs.
    - split; [ reflexivity | exact Hs ].
    - rewrite run_cons.
      destruct (IH (call raster c s) (call_consistent raster c s Hs))
        as [Hc Hk].
      split; [ rewrite Hc; apply call_count | exact Hk ]. }
  apply H, init_consistent.
Qed.

(** ** The uniforms that carry convergence and sweep *)

Lemma mainView_synced s :
  fst (mainView s) = snd (mainView s) -> mainUniformsSynced s.
Proof.
  unfold mainView, mainUniformsSynced. cbn [fst snd]. intro H.
  injection H as H1 H2 H3 H4. repeat split; congruence.
Qed.

Lemma slotBView_synced s :
  fst (slotBView s) = snd (slotBView s) -> slotBUniformsSynced s.
Proof.
  unfold slotBView, slotBUniformsSynced. cbn [fst snd]. intro H.
  injection H as H1 H2 H3 H4. repeat split; congruence.
Qed.

Lemma convergenceStage_mainView s :
  fst (mainView (convergenceStage s)) = snd (mainView (convergenceStage s)).
Proof. reflexivity. Qed.

Lemma slotBStage_mainView tk s : mainView (slotBStage tk s) = mainView s.
Proof. unfold slotBStage. repeat case_if; reflexivity. Qed.

Lemma formationStage_mainView tk s : mainView (formationStage tk s) = mainView s.
Proof.
  unfold formationStage.
  destruct (formationPending (main s)); [ | reflexivity ].
  destruct (charData (main s)) as [chars | ]; [ | reflexivity ].
  destruct (animDef _) as [delay stagger].
  destruct (revealLoop _ _ _ _ _ _) as [[chars' ws] allRevealed].
  repeat case_if; reflexivity.
Qed.

Lemma animatedFlowStage_mainView tk s :
  mainView (animatedFlowStage tk s) = mainView s.
Proof. unfold animatedFlowStage. repeat case_if; reflexivity. Qed.

Lemma textTimeStage_mainView tk s : mainView (textTimeStage tk s) = mainView s.
Proof.
  unfold textTimeStage, onMain, trackTextTime. repeat case_if; reflexivity.
Qed.

Lemma holdStage_mainView tk s : mainView (holdStage tk s) = mainView s.
Proof.
  unfold holdStage, onMain, holdCheck. repeat case_if; reflexivity.
Qed.

Lemma setFlowTargets_mainView pattern options s :
  mainView (setFlowTargets pattern options s) = mainView s.
Proof. unfold setFlowTargets. repeat case_if; reflexivity. Qed.

Lemma releaseStage_mainView s : mainView (releaseStage s) = mainView s.
Proof.
  destruct (released (main s)) eqn:H;
    [ | rewrite (releaseStage_idle s H); reflexivity ].
  rewrite (releaseStage_fires s H).
  match goal with
  | |- mainView (onMain ?f (onMain ?g (setFlowTargets ?p ?o ?x))) = _ =>
      transitivity (mainView (setFlowTargets p o x)); [ reflexivity | ];
      rewrite setFlowTargets_mainView; reflexivity
  end.
Qed.

Lemma formationStage_slotBView tk s :
  slotBView (formationStage tk s) = slotBView s.
Proof.
  unfold formationStage.
  destruct (formationPending (main s)); [ | reflexivity ].
  destruct (charData (main s)) as [chars | ]; [ | reflexivity ].
  destruct (animDef _) as [delay stagger].
  destruct (revealLoop _ _ _ _ _ _) as [[chars' ws] allRevealed].
  repeat case_if; reflexivity.
Qed.

Lemma animatedFlowStage_slotBView tk s :
  slotBView (animatedFlowStage tk s) = slotBView s.
Proof. unfold animatedFlowStage. repeat case_if; reflexivity. Qed.

Lemma trackTextTime_view elapsed b : slotView (trackTextTime elapsed b) = slotView b.
Proof. unfold trackTextTime. repeat case_if; reflexivity. Qed.

Lemma holdCheck_view dflt elapsed b :
  slotView (holdCheck dflt elapsed b) = slotView b.
Proof. unfold holdCheck. repeat case_if; reflexivity. Qed.

Lemma slotBStage_uniforms tk s :
  (splitPoint s < count s)%Z ->
  snd (slotBView (slotBStage tk s))
  = slotView (slotB s
              |> advanceConvergence (m_convUp (macro s)) (m_convDn (macro s))
              |> advanceSweep).
Proof.
  intro Hsplit. unfold slotBStage.
  apply Z.ltb_lt in Hsplit. rewrite Hsplit.
  case_if; reflexivity.
Qed.

Lemma slotBView_fst x : fst (slotBView x) = slotView (slotB x).
Proof. reflexivity. Qed.

Lemma holdStage_slotBView tk x : slotBView (holdStage tk x) = slotBView x.
Proof. reflexivity. Qed.

Lemma textTimeStage_slotBView tk x : slotBView (textTimeStage tk x) = slotBView x.
Proof. reflexivity. Qed.

Lemma released_view b :
  slotView (if released b then
              b |> set_phase Flow |> set_lastTextTime 0
                |> set_targetConvergence 0.1
                |> set_physicsOverrides None |> set_dissolveMode None
                |> set_maxConvergence 1.0 |> set_holdDurationOverride None
                |> set_releaseSpeed 1.0
            else b)
  = slotView b.
Proof. destruct (released b); reflexivity. Qed.

Lemma slotBStage_slotBView tk s :
  (splitPoint s < count s)%Z ->
  fst (slotBView (slotBStage tk s)) = snd (slotBView (slotBStage tk s)).
Proof.
  intro H. rewrite (slotBStage_uniforms tk s H).
  rewrite slotBView_fst, (slotBStage_slotB tk s H). cbv zeta.
  rewrite released_view, holdCheck_view, trackTextTime_view. reflexivity.
Qed.

Lemma beforeSlotB_split tk s :
  splitView (convergenceStage (dissolveStage (macroStage tk (clockStage tk s))))
  = splitView s.
Proof.
  rewrite convergenceStage_split, dissolveStage_split, macroStage_split,
    clockStage_split.
  reflexivity.
Qed.

Lemma splitView_active s s' :
  splitView s' = splitView s ->
  (splitPoint s < count s)%Z -> (splitPoint s' < count s')%Z.
Proof.
  unfold splitView. intros H Hlt. injection H as Hc Hp _.
  rewrite Hc, Hp. exact Hlt.
Qed.

Lemma releaseStage_unsplit s :
  released (main s) = true -> splitPoint (releaseStage s) = count (releaseStage s).
Proof.
  intro H. rewrite releaseStage_count, (releaseStage_fires s H).
  match goal with
  | |- splitPoint (onMain ?f (onMain ?g (setFlowTargets ?p ?o ?x))) = _ =>
      change (splitPoint (setFlowTargets p o x) = count s);
      pose proof (setFlowTargets_split p o x) as Hv
  end.
  unfold splitView in Hv. injection Hv as _ Hp _. rewrite Hp. reflexivity.
Qed.

Lemma update_main_synced tk s : mainUniformsSynced (update tk s).
Proof.
  apply mainView_synced. rewrite update_unfold, releaseStage_mainView.
  unfold atRelease, beforeDissolve.
  rewrite holdStage_mainView, textTimeStage_mainView,
    animatedFlowStage_mainView, formationStage_mainView, slotBStage_mainView.
  apply convergenceStage_mainView.
Qed.

(** X3.  After every [update] the convergence and sweep uniforms of the
    main group equal the main slot's convergence and sweep, whatever else
    the tick did (hold expiry, release, flow hand-over).  When the split
    is active at the end of the tick, the same holds for the uniforms of
    group B and slot B. *)
Theorem X3_update_syncs_uniforms (tk : Tick) (s : Engine) :
  mainUniformsSynced (update tk s)
  /\ ((splitPoint (update tk s) < count (update tk s))%Z ->
      slotBUniformsSynced (update tk s)).
Proof.
  split.
  - apply update_main_synced.
  - rewrite update_unfold. intro Hlt.
    destruct (released (main (atRelease tk s))) eqn:Hrel.
    + rewrite (releaseStage_unsplit _ Hrel) in Hlt. lia.
    + rewrite (releaseStage_idle _ Hrel) in Hlt |- *.
      apply slotBView_synced.
      assert (Hs : (splitPoint s < count s)%Z).
      { revert Hlt. apply splitView_active. symmetry. apply atRelease_split. }
      unfold atRelease, beforeDissolve.
      rewrite holdStage_slotBView, textTimeStage_slotBView,
        animatedFlowStage_slotBView, formationStage_slotBView.
      apply slotBStage_slotBView.
      revert Hs. apply splitView_active, beforeSlotB_split.
Qed.

Lemma X3_update_syncs_uniforms_witness :
  (splitPoint (update (frameAt 2) splitRun)
   < count (update (frameAt 2) splitRun))%Z
  /\ mainUniformsSynced (update (frameAt 2) splitRun)
  /\ slotBUniformsSynced (update (frameAt 2) splitRun).
Proof.
  assert (H : (splitPoint (update (frameAt 2) splitRun)
               < count (update (frameAt 2) splitRun))%Z)
    by (vm_compute; reflexivity).
  destruct (X3_update_syncs_uniforms (frameAt 2) splitRun) as [Hm Hb].
  split; [ exact H | ]. split; [ exact Hm | exact (Hb H) ].
Defined.

(** ** Per-character formation *)

Lemma lookup_Forall {A : Type} (P : A -> Prop) key (table : list (string * A)) :
  Forall (fun kv => P (snd kv)) table ->
  forall v, lookup key table = Some v -> P v.
Proof.
  induction 1 as [ | [k w] rest Hk _ IH ]; intros v Hv; cbn [lookup] in Hv.
  - discriminate.
  - destruct (String.eqb key k).
    + injection Hv as <-. exact Hk.
    + apply IH, Hv.
Qed.

Lemma animDef_stagger anim : 0 <= snd (animDef anim).
Proof.
  unfold animDef. destruct anim as [name | ]; [ | cbn; qlra ].
  destruct (lookup name TEXT_ANIMATIONS) as [def | ] eqn:Hdef; [ | cbn; qlra ].
  cbn [nullish]. revert def Hdef. apply lookup_Forall.
  unfold TEXT_ANIMATIONS.
  repeat (constructor; [ cbn [snd]; qlra | ]). constructor.
Qed.

Lemma Qnat_le m n : (m <= n)%nat -> Qnat m <= Qnat n.
Proof. intro H. unfold Qnat. rewrite <- Zle_Qle. lia. Qed.

Lemma revealTime_le delay stagger m n :
  0 <= stagger -> (m <= n)%nat ->
  revealTime delay stagger m <= revealTime delay stagger n.
Proof.
  intros Hs Hmn. unfold revealTime.
  apply Qplus_le_r, Qmult_le_compat_r; [ apply Qnat_le, Hmn | exact Hs ].
Qed.

Lemma revealLoop_complete COUNT elapsed delay stagger chars :
  forall c,
    (forall k, (c <= k < c + length chars)%nat ->
               revealTime delay stagger k <= elapsed) ->
    snd (revealLoop COUNT elapsed delay stagger c chars) = true
    /\ Forall (fun cd => revealed cd = true)
              (fst (fst (revealLoop COUNT elapsed delay stagger c chars))).
Proof.
  induction chars as [ | cd rest IH ]; intros c H; cbn [revealLoop].
  - split; [ reflexivity | constructor ].
  - assert (Hrest : forall k, (S c <= k < S c + length rest)%nat ->
                              revealTime delay stagger k <= elapsed)
      by (intros k Hk; apply H; cbn [length]; lia).
    destruct (IH (S c) Hrest) as [Hall Hrev].
    destruct (revealLoop COUNT elapsed delay stagger (S c) rest)
      as [[rest' ws] allRevealed].
    cbn [fst snd] in Hall, Hrev.
    destruct (revealed cd) eqn:Hcd.
    + cbn [fst snd]. split; [ exact Hall | constructor; assumption ].
    + assert (Hc : Qle_bool (delay + Qnat c * stagger) elapsed = true).
      { apply Qle_bool_iff. apply (H c). cbn [length]. lia. }
      rewrite Hc. cbn [fst snd].
      split; [ exact Hall | constructor; [ reflexivity | exact Hrev ] ].
Qed.

Lemma revealLoop_keeps COUNT elapsed delay stagger chars :
  forall c,
    Forall2 revealedFrom chars
            (fst (fst (revealLoop COUNT elapsed delay stagger c chars))).
Proof.
  induction chars as [ | cd rest IH ]; intro c; cbn [revealLoop].
  - constructor.
  - specialize (IH (S c)).
    destruct (revealLoop COUNT elapsed delay stagger (S c) rest)
      as [[rest' ws] allRevealed].
    cbn [fst snd] in IH.
    destruct (revealed cd) eqn:Hcd.
    + cbn [fst snd]. constructor; [ | exact IH ].
      unfold revealedFrom. repeat split; intro; assumption.
    + destruct (Qle_bool _ _); cbn [fst snd]; (constructor; [ | exact IH ]).
      * unfold revealedFrom. repeat split.
      * unfold revealedFrom. repeat split; intro; assumption.
Qed.

Lemma formationStage_fields tk s chars delay stagger chars' ws allRevealed :
  formationPending (main s) = true ->
  charData (main s) = Some chars ->
  animDef (animType (main s)) = (delay, stagger) ->
  revealLoop (count s) (elapsedTime tk - formationStart tk s) delay stagger
             0 chars = (chars', ws, allRevealed) ->
  charData (main (formationStage tk s)) = Some chars'
  /\ formationPending (main (formationStage tk s)) = negb allRevealed
  /\ phase (main (formationStage tk s))
     = (if allRevealed then Text else phase (main s)).
Proof.
  intros Hpend Hchars Hanim Hloop.
  unfold formationStage, formationStart in *. rewrite Hpend, Hchars.
  destruct (Qltb (formationStartTime (main s)) 0); cbv zeta.
  - change (animType (main (s |> onMain (set_formationStartTime (elapsedTime tk)))))
      with (animType (main s)).
    change (formationStartTime
              (main (s |> onMain (set_formationStartTime (elapsedTime tk)))))
      with (elapsedTime tk).
    change (count (s |> onMain (set_formationStartTime (elapsedTime tk))))
      with (count s).
    rewrite Hanim, Hloop.
    destruct allRevealed; repeat split; try reflexivity; exact Hpend.
  - rewrite Hanim, Hloop.
    destruct allRevealed; repeat split; try reflexivity; exact Hpend.
Qed.

(** X4.  The per-character formation completes.  While a formation is
    pending on the main slot, a tick whose elapsed time since the start of
    the formation (the recorded start, or the current time on the first
    tick) has reached [delay + (n - 1) * stagger] of the slot's animation,
    [n] being the number of characters, reveals every character, clears
    [formationPending] and puts the main slot in phase [Text].  The
    character records keep their slices and sampled point counts, and no
    revealed character is hidden again. *)
Theorem X4_formation_completes (tk : Tick) (s : Engine) (chars : list CharRec) :
  formationPending (main s) = true ->
  charData (main s) = Some chars ->
  revealTime (fst (animDef (animType (main s))))
             (snd (animDef (animType (main s)))) (length chars - 1)
    <= elapsedTime tk - formationStart tk s ->
  exists chars',
    charData (main (formationStage tk s)) = Some chars'
    /\ Forall2 revealedFrom chars chars'
    /\ Forall (fun cd => revealed cd = true) chars'
    /\ formationPending (main (formationStage tk s)) = false
    /\ phase (main (formationStage tk s)) = Text.
Proof.
  intros Hpend Hchars Htime.
  pose proof (animDef_stagger (animType (main s))) as Hstag.
  destruct (animDef (animType (main s))) as [delay stagger] eqn:Hanim.
  cbn [fst snd] in Htime, Hstag.
  pose proof (revealLoop_keeps (count s) (elapsedTime tk - formationStart tk s)
                delay stagger chars 0%nat) as Hkeep.
  assert (Hall : forall k, (0 <= k < 0 + length chars)%nat ->
                   revealTime delay stagger k
                   <= elapsedTime tk - formationStart tk s).
  { intros k Hk. eapply Qle_trans; [ | exact Htime ].
    apply revealTime_le; [ exact Hstag | lia ]. }
  destruct (revealLoop_complete (count s) _ delay stagger chars 0%nat Hall)
    as [Hdone Hrev].
  destruct (revealLoop (count s) (elapsedTime tk - formationStart tk s)
              delay stagger 0 chars) as [[chars' ws] allRevealed] eqn:Hloop.
  cbn [fst snd] in Hkeep, Hdone, Hrev. subst allRevealed.
  destruct (formationStage_fields tk s chars delay stagger chars' ws true
              Hpend Hchars Hanim Hloop) as (Hc & Hp & Hph).
  exists chars'. repeat split; assumption.
Qed.

Lemma X4_formation_completes_witness :
  exists chars',
    charData (main (formationStage (frameAt 3) formingRun)) = Some chars'
    /\ Forall (fun cd => revealed cd = true) chars'
    /\ phase (main (formationStage (frameAt 3) formingRun)) = Text.
Proof.
  assert (Hp : formationPending (main formingRun) = true)
    by (vm_compute; reflexivity).
  assert (Hc : charData (main formingRun)
               = Some [mkChar 0 333333 true 100; mkChar 333333 333333 false 100;
                       mkChar 666666 333334 false 100])
    by (vm_compute; reflexivity).
  assert (Ht : revealTime (fst (animDef (animType (main formingRun))))
                 (snd (animDef (animType (main formingRun))))
                 (length [mkChar 0 333333 true 100;
                          mkChar 333333 333333 false 100;
                          mkChar 666666 333334 false 100] - 1)
               <= elapsedTime (frameAt 3) - formationStart (frameAt 3) formingRun)
    by (vm_compute; discriminate).
  destruct (X4_formation_completes (frameAt 3) formingRun _ Hp Hc Ht)
    as (chars' & H1 & _ & H3 & _ & H5).
  exists chars'. repeat split; assumption.
Defined.

(** ** The text hold *)

Lemma onMain_main f x : main (onMain f x) = f (main x).
Proof. reflexivity. Qed.

Lemma beforeDissolve_main_track tk s :
  main (beforeDissolve tk s)
  = trackTextTime (elapsedTime tk) (main (beforeTextTime tk s)).
Proof. unfold beforeDissolve, beforeTextTime, textTimeStage. apply onMain_main. Qed.

Lemma atRelease_main_track tk s :
  main (atRelease tk s)
  = holdCheck (textHoldDuration s) (elapsedTime tk)
      (trackTextTime (elapsedTime tk) (main (beforeTextTime tk s))).
Proof.
  exact (eq_trans (atRelease_main tk s)
           (f_equal (holdCheck (textHoldDuration s) (elapsedTime tk))
                    (beforeDissolve_main_track tk s))).
Qed.

Lemma set_lastTextTime_phase t b : phase (set_lastTextTime t b) = phase b.
Proof. reflexivity. Qed.

Lemma hold_recording_tick dflt elapsed b :
  phase b = Text -> lastTextTime b == 0 -> 0 <= holdDur dflt b ->
  holdCheck dflt elapsed (trackTextTime elapsed b) = set_lastTextTime elapsed b.
Proof.
  intros Hp Hl Hh. unfold trackTextTime.
  assert (Hz : Qeq_bool (lastTextTime b) 0 = true) by (apply Qeq_bool_iff, Hl).
  rewrite Hp, Hz. cbn [Phase_beq andb]. unfold holdCheck.
  change (phase (set_lastTextTime elapsed b)) with (phase b).
  change (lastTextTime (set_lastTextTime elapsed b)) with elapsed.
  change (holdDur dflt (set_lastTextTime elapsed b)) with (holdDur dflt b).
  rewrite Hp. cbn [Phase_beq andb].
  destruct (Qltb 0 elapsed); [ | reflexivity ].
  assert (Hn : Qltb (holdDur dflt b) (elapsed - elapsed) = false).
  { apply Qltb_false. setoid_replace (elapsed - elapsed) with 0 by ring.
    exact Hh. }
  rewrite Hn. reflexivity.
Qed.

(** X5.  A text is never released on the tick that starts its hold.  When
    the main slot reaches the text-time tracking of [update] in phase
    [Text] with no recorded [lastTextTime], and the hold duration in force
    is not negative, the tick records the elapsed time as [lastTextTime]
    and ends with the main slot still in phase [Text], whatever the frame
    time is. *)
Theorem X5_hold_outlasts_recording_tick (tk : Tick) (s : Engine) :
  phase (main (beforeTextTime tk s)) = Text ->
  lastTextTime (main (beforeTextTime tk s)) == 0 ->
  0 <= holdDur (textHoldDuration s) (main (beforeTextTime tk s)) ->
  phase (main (update tk s)) = Text
  /\ lastTextTime (main (update tk s)) = elapsedTime tk.
Proof.
  intros Hp Hl Hh.
  pose proof (atRelease_main_track tk s) as Hm.
  set (m := main (beforeTextTime tk s)) in *. clearbody m.
  rewrite (hold_recording_tick _ _ m Hp Hl Hh) in Hm.
  assert (Hrel : released (main (atRelease tk s)) = false).
  { rewrite Hm. unfold released. rewrite set_lastTextTime_phase, Hp.
    reflexivity. }
  rewrite update_unfold, (releaseStage_idle _ Hrel), Hm.
  split; [ rewrite set_lastTextTime_phase; exact Hp | reflexivity ].
Qed.

Lemma X5_hold_outlasts_recording_tick_witness :
  phase (main (update (frameAt 1) freshText)) = Text
  /\ lastTextTime (main (update (frameAt 1) freshText)) = elapsedTime (frameAt 1).
Proof.
  assert (Hp : phase (main (beforeTextTime (frameAt 1) freshText)) = Text)
    by (vm_compute; reflexivity).
  assert (Hl : lastTextTime (main (beforeTextTime (frameAt 1) freshText)) == 0)
    by (vm_compute; reflexivity).
  assert (Hh : 0 <= holdDur (textHoldDuration freshText)
                            (main (beforeTextTime (frameAt 1) freshText)))
    by (vm_compute; discriminate).
  exact (X5_hold_outlasts_recording_tick (frameAt 1) freshText Hp Hl Hh).
Defined.

(** ** Macro easing over several ticks *)

Lemma easeScalar_contracts ov k ambient value :
  easeScalar ov k ambient value - easeTarget ov k ambient
  == (1 - easeRate ov k) * (value - easeTarget ov k ambient).
Proof. unfold easeScalar, easeTarget, easeRate. ring. Qed.

Lemma Qpower_succ (q : Q) (n : nat) :
  q ^ Z.of_nat (S n) == q * q ^ Z.of_nat n.
Proof.
  replace (Z.of_nat (S n)) with (1 + Z.of_nat n)%Z by lia.
  rewrite Stdlib.QArith.Qpower.Qpower_plus' by lia.
  rewrite Stdlib.QArith.Qpower.Qpower_1_r. reflexivity.
Qed.

(** X6.  The macro easing is a geometric approach: under fixed overrides
    and a fixed ambient value, after [n] ticks the distance of a macro
    scalar to the value it is eased toward (the override when there is
    one, the ambient value otherwise) is the initial distance multiplied
    by [(1 - r) ^ n], where [r] is the caller's [lerpRate] (default 0.005)
    for an overridden scalar and 0.005 otherwise. *)
Theorem X6_macro_easing_geometric
    (ov : option Overrides) (k : Overrides -> option Q)
    (ambient value : Q) (n : nat) :
  easeTicks ov k ambient n value - easeTarget ov k ambient
  == (1 - easeRate ov k) ^ Z.of_nat n * (value - easeTarget ov k ambient).
Proof.
  induction n as [ | n IH ]; unfold easeTicks in *.
  - change (Nat.iter 0 (easeScalar ov k ambient) value) with value.
    change (Z.of_nat 0) with 0%Z.
    rewrite Stdlib.QArith.Qpower.Qpower_0_r. ring.
  - change (Nat.iter (S n) (easeScalar ov k ambient) value)
      with (easeScalar ov k ambient (Nat.iter n (easeScalar ov k ambient) value)).
    rewrite easeScalar_contracts, IH, Qpower_succ. ring.
Qed.

(** ** Bounds inside the kernel *)

Section KernelBounds.

Local Open Scope R_scope.
Import Kernel.

Lemma vlength_shrink_z v k :
  Rabs k <= 1 -> vlength (mkV3 (vx v) (vy v) (vz v * k)) <= vlength v.
Proof.
  intro Hk. unfold vlength. cbn [vx vy vz]. apply sqrt_le_1_alt.
  assert (Hk2 : k * k <= 1).
  { replace (k * k) with (Rabs k * Rabs k)
      by (rewrite <- Rabs_mult; apply Rabs_pos_eq, Rle_0_sqr).
    pose proof (Rabs_pos k). nra. }
  assert (Hz : 0 <= vz v * vz v) by apply Rle_0_sqr.
  nra.
Qed.

Lemma vmix_0 a b : vmix a b 0 = a.
Proof.
  destruct a as [ax ay az]. unfold vmix, mix. cbn [vx vy vz]. f_equal; ring.
Qed.

Lemma vmix_1 a b : vmix a b 1 = b.
Proof.
  destruct b as [bx by' bz]. unfold vmix, mix. cbn [vx vy vz]. f_equal; ring.
Qed.

(** The velocity clamp of the kernel. *)
Lemma velocity_clamp_length v :
  vlength (vmix v (vscale (vdiv v (Rmax (vlength v) 0.0001)) 0.08)
                (toFloat (Rltb 0.08 (vlength v))))
  <= 0.08.
Proof.
  unfold Rltb. destruct (Rlt_dec 0.08 (vlength v)) as [Hover | Hunder];
    unfold toFloat.
  - rewrite vmix_1, vdiv_scale, !vlength_scale.
    rewrite Rmax_left by rlra.
    rewrite (Rabs_pos_eq 0.08) by rlra.
    rewrite Rabs_pos_eq by (left; apply Rinv_0_lt_compat; rlra).
    right. field. rlra.
  - rewrite vmix_0. rlra.
Qed.

Section WithIntrinsics.

Variable hash : R -> R.
Variable hash2 : R -> R -> R.
Variable mx_noise_vec3 : V3 R -> V3 R.
Variable buildGPUTargetSection : Z -> V3 R -> R -> Z -> Z -> V3 R.
Variable u : Uniforms R.
Variable COUNT : Z.

(** X7.  The velocity clamp holds for every particle.  Whatever the
    position, velocity, target, noise, hashes and the other uniforms are,
    the velocity that one kernel invocation stores has length at most
    [0.08 * |uDamping|], provided the flatten uniform lies in [[0, 1]] (the
    host only ever writes 0 or 1 to it). *)
Theorem X7_velocity_clamp (i : Z) (p : Particle) :
  0 <= uf u uFlattenZ <= 1 ->
  vlength (vel (computeUpdate hash hash2 mx_noise_vec3 buildGPUTargetSection
                              u COUNT i p))
  <= 0.08 * Rabs (uf u uDamping).
Proof.
  intros [Hf0 Hf1].
  unfold computeUpdate. cbv zeta. cbn [vel].
  unfold integrate. cbv zeta. cbn [snd].
  match goal with
  | |- context [vmix ?v _ _] => generalize v; intro vel9
  end.
  eapply Rle_trans; [ apply vlength_shrink_z | ].
  { apply Rabs_le. split; rlra. }
  eapply Rle_trans; [ apply vlength_shrink_z | ].
  { apply Rabs_le. split; rlra. }
  rewrite vlength_scale, Rmult_comm.
  apply Rmult_le_compat_r; [ apply Rabs_pos | apply velocity_clamp_length ].
Qed.

End WithIntrinsics.

Lemma X7_velocity_clamp_witness :
  vlength (vel (computeUpdate zeroHash halfHash2 noNoise keepTarget
                              (plainUniforms 0) 1000 0 expiring))
  <= 0.08 * Rabs (uf (plainUniforms 0) uDamping).
Proof.
  apply X7_velocity_clamp.
  unfold plainUniforms. cbn [uf]. split; rlra.
Defined.

End KernelBounds.

(** ** Text targets in the kernel *)

Lemma clockStage_targetView tk s : targetView (clockStage tk s) = targetView s.
Proof. unfold clockStage. repeat case_if; reflexivity. Qed.

Lemma macroStage_targetView tk s : targetView (macroStage tk s) = targetView s.
Proof. reflexivity. Qed.

Lemma dissolveStage_targetView s : targetView (dissolveStage s) = targetView s.
Proof. unfold dissolveStage. repeat case_if; reflexivity. Qed.

Lemma convergenceStage_targetView s :
  targetView (convergenceStage s) = targetView s.
Proof. reflexivity. Qed.

Lemma slotBStage_targetView tk s : targetView (slotBStage tk s) = targetView s.
Proof. unfold slotBStage. repeat case_if; reflexivity. Qed.

Lemma formationStage_targetView tk s :
  targetView (formationStage tk s) = targetView s.
Proof.
  unfold formationStage.
  destruct (formationPending (main s)); [ | reflexivity ].
  destruct (charData (main s)) as [chars | ]; [ | reflexivity ].
  destruct (animDef _) as [delay stagger].
  destruct (revealLoop _ _ _ _ _ _) as [[chars' ws] allRevealed].
  repeat case_if; reflexivity.
Qed.

Lemma animatedFlowStage_targetView tk s :
  targetView (animatedFlowStage tk s) = targetView s.
Proof. unfold animatedFlowStage. repeat case_if; reflexivity. Qed.

Lemma textTimeStage_targetView tk s :
  targetView (textTimeStage tk s) = targetView s.
Proof. reflexivity. Qed.

Lemma holdStage_targetView tk s : targetView (holdStage tk s) = targetView s.
Proof. reflexivity. Qed.

Lemma atRelease_targetView tk s : targetView (atRelease tk s) = targetView s.
Proof.
  unfold atRelease, beforeDissolve.
  rewrite holdStage_targetView, textTimeStage_targetView,
    animatedFlowStage_targetView, formationStage_targetView,
    slotBStage_targetView, convergenceStage_targetView,
    dissolveStage_targetView, macroStage_targetView, clockStage_targetView.
  reflexivity.
Qed.

(** A tick that does not end in phase [Flow] has not run the
    releasing-to-flow rule. *)
Lemma update_not_flow tk s :
  phase (main (update tk s)) <> Flow -> update tk s = atRelease tk s.
Proof.
  intro H. rewrite update_unfold in H |- *.
  destruct (released (main (atRelease tk s))) eqn:Hrel.
  - exfalso. apply H. rewrite (releaseStage_main _ Hrel). reflexivity.
  - apply releaseStage_idle, Hrel.
Qed.

Lemma targetView_eq s s' :
  targetView s' = targetView s ->
  uf (uniforms s') uFlattenZ = uf (uniforms s) uFlattenZ
  /\ ui (uniforms s') uGPUPatternId = ui (uniforms s) uGPUPatternId
  /\ ui (uniforms s') uNumLayers = ui (uniforms s) uNumLayers
  /\ ui (uniforms s') uBgPatternId = ui (uniforms s) uBgPatternId
  /\ ui (uniforms s') uGroupSplit = ui (uniforms s) uGroupSplit
  /\ ui (uniforms s') uGPUPatternIdB = ui (uniforms s) uGPUPatternIdB.
Proof.
  unfold targetView. intro H. injection H as H1 H2 H3 H4 H5 H6.
  repeat split; assumption.
Qed.

Lemma setTextTarget_flatten raster text options s :
  truthy text = true ->
  uf (uniforms (setTextTarget raster text options s)) uFlattenZ
  = (if isAnamorphic (o_viewDirection options) then 0.0 else 1.0)
  /\ ui (uniforms (setTextTarget raster text options s)) uGPUPatternId = 0%Z
  /\ ui (uniforms (setTextTarget raster text options s)) uNumLayers = 1%Z.
Proof.
  intro Ht. unfold setTextTarget, setupFormation, applyAllCharTargets.
  rewrite Ht. cbn [negb].
  repeat case_if; repeat split; reflexivity.
Qed.

Lemma setTextTarget_no_background raster text options s :
  truthy text = true ->
  nullish (o_particleGroup options) 0%Z = 0%Z ->
  truthyOpt (o_backgroundPattern options) = false ->
  ui (uniforms (setTextTarget raster text options s)) uBgPatternId = 0%Z.
Proof.
  intros Ht Hg Hbg. unfold setTextTarget, setupFormation, applyAllCharTargets.
  rewrite Ht, Hg, Hbg. cbn [negb Z.eqb andb].
  repeat case_if; reflexivity.
Qed.

(** The target uniforms of a text, after a tick that does not end in
    phase [Flow]. *)
Lemma update_text_uniforms raster text options tk s :
  truthy text = true ->
  phase (main (update tk (setTextTarget raster text options s))) <> Flow ->
  uf (uniforms (update tk (setTextTarget raster text options s))) uFlattenZ
  = (if isAnamorphic (o_viewDirection options) then 0.0 else 1.0)
  /\ ui (uniforms (update tk (setTextTarget raster text options s)))
        uGPUPatternId = 0%Z
  /\ ui (uniforms (update tk (setTextTarget raster text options s)))
        uNumLayers = 1%Z
  /\ ui (uniforms (update tk (setTextTarget raster text options s)))
        uBgPatternId
     = ui (uniforms (setTextTarget raster text options s)) uBgPatternId
  /\ ui (uniforms (update tk (setTextTarget raster text options s)))
        uGroupSplit
     = ui (uniforms (setTextTarget raster text options s)) uGroupSplit.
Proof.
  intros Ht Hphase.
  rewrite (update_not_flow tk (setTextTarget raster text options s) Hphase).
  destruct (targetView_eq _ _
              (atRelease_targetView tk (setTextTarget raster text options s)))
    as (H1 & H2 & H3 & H4 & H5 & _).
  destruct (setTextTarget_flatten raster text options s Ht) as (F1 & F2 & F3).
  rewrite H1, H2, H3, H4, H5, F1, F2, F3. repeat split; reflexivity.
Qed.

Section KernelTextTargets.

Local Open Scope R_scope.
Import Kernel.

Lemma Q2R_1_0 : Q2R 1.0 = 1.
Proof. unfold Q2R. cbn [Qnum Qden]. rlra. Qed.

Lemma integrate_flat hash mx_noise_vec3 buildGPUTargetSection u COUNT i p :
  uf u uFlattenZ = 1 ->
  vz (fst (integrate hash mx_noise_vec3 buildGPUTargetSection u COUNT i p))
  = vz (resolveTarget buildGPUTargetSection u COUNT i (target p))
  /\ vz (snd (integrate hash mx_noise_vec3 buildGPUTargetSection u COUNT i p))
     = 0.
Proof.
  intro Hflat. unfold integrate. cbv zeta. cbn [fst snd vz].
  rewrite Hflat. split; [ apply mix_1 | ].
  replace (1 - 1) with 0 by rlra. apply Rmult_0_r.
Qed.

Lemma resolveTarget_plain buildGPUTargetSection u COUNT i tgt :
  ui u uGPUPatternId = 0%Z -> ui u uNumLayers = 1%Z ->
  ui u uBgPatternId = 0%Z -> (i < ui u uGroupSplit)%Z ->
  resolveTarget buildGPUTargetSection u COUNT i tgt = tgt.
Proof.
  intros Hid Hlayers Hbg Hsplit.
  unfold resolveTarget, effPatternId, isBgParticle, effLayer, inGroupB.
  cbv zeta. rewrite Hbg, Hlayers, Hid. cbn [Z.ltb Z.compare andb fst].
  apply Z.leb_gt in Hsplit. rewrite Hsplit. unfold toFloat.
  rewrite Rltb_false by rlra. reflexivity.
Qed.

Lemma upload_uf h k : uf (upload h) k = Q2R (uf h k).
Proof. reflexivity. Qed.

Lemma computeUpdate_vel hash hash2 mx_noise_vec3 buildGPUTargetSection u COUNT i p :
  vel (computeUpdate hash hash2 mx_noise_vec3 buildGPUTargetSection u COUNT i p)
  = snd (integrate hash mx_noise_vec3 buildGPUTargetSection u COUNT i p).
Proof. unfold computeUpdate. cbv zeta. cbn [vel]. reflexivity. Qed.

Lemma computeUpdate_target hash hash2 mx_noise_vec3 buildGPUTargetSection
    u COUNT i p :
  target (computeUpdate hash hash2 mx_noise_vec3 buildGPUTargetSection
                        u COUNT i p)
  = resolveTarget buildGPUTargetSection u COUNT i (target p).
Proof. unfold computeUpdate. cbv zeta. cbn [target]. reflexivity. Qed.

Lemma upload_ui h k : ui (upload h) k = ui h k.
Proof. reflexivity. Qed.

Lemma flat_pinned hash hash2 mx_noise_vec3 buildGPUTargetSection u COUNT i p :
  uf u uFlattenZ = 1 ->
  0 <= life_x p - uf u uDeltaTime ->
  vz (pos (computeUpdate hash hash2 mx_noise_vec3 buildGPUTargetSection
                         u COUNT i p))
  = vz (target (computeUpdate hash hash2 mx_noise_vec3 buildGPUTargetSection
                              u COUNT i p))
  /\ vz (vel (computeUpdate hash hash2 mx_noise_vec3 buildGPUTargetSection
                            u COUNT i p)) = 0.
Proof.
  intros Hflat Halive.
  destruct (integrate_flat hash mx_noise_vec3 buildGPUTargetSection u COUNT i p
              Hflat) as [Hpos Hvel].
  destruct (respawn_alive hash hash2 mx_noise_vec3 buildGPUTargetSection
              u COUNT i p Halive) as [Hp _].
  rewrite computeUpdate_vel, computeUpdate_target, Hp.
  split; [ exact Hpos | exact Hvel ].
Qed.

(** X8.  Non-anamorphic text is flat.  After [setTextTarget] with a
    non-empty text and no anamorphic view direction, and a tick that does
    not end in phase [Flow], the kernel run with the engine's uniforms
    leaves every particle that is still alive exactly on the Z coordinate
    of its target, with zero Z velocity, whatever its position and velocity
    were and whatever the forces are. *)
Theorem X8_flat_text_pinned
    (raster : string -> Options -> Z -> list Z)
    (text : string) (options : Options) (tk : Tick) (s : Engine)
    (hash : R -> R) (hash2 : R -> R -> R) (mx_noise_vec3 : V3 R -> V3 R)
    (buildGPUTargetSection : Z -> V3 R -> R -> Z -> Z -> V3 R)
    (COUNT i : Z) (p : Particle) :
  truthy text = true ->
  isAnamorphic (o_viewDirection options) = false ->
  let s' := update tk (setTextTarget raster text options s) in
  let u := upload (uniforms s') in
  let p' := computeUpdate hash hash2 mx_noise_vec3 buildGPUTargetSection
                          u COUNT i p in
  phase (main s') <> Flow ->
  0 <= life_x p - uf u uDeltaTime ->
  vz (pos p') = vz (target p') /\ vz (vel p') = 0.
Proof.
  intros Ht Hview s' u p' Hphase Halive. unfold p', u, s' in *.
  destruct (update_text_uniforms raster text options tk s Ht Hphase)
    as (Hf & _).
  rewrite Hview in Hf.
  apply flat_pinned; [ | exact Halive ].
  rewrite upload_uf, Hf. apply Q2R_1_0.
Qed.

Lemma X8_flat_text_pinned_witness :
  let s' := update (frameAt 1)
              (setTextTarget uniformRaster "AB" directSnap (init noParams)) in
  let p' := computeUpdate zeroHash halfHash2 noNoise keepTarget
                          (upload (uniforms s')) 1000 0 drifting in
  vz (pos p') = vz (target p') /\ vz (vel p') = 0.
Proof.
  refine (X8_flat_text_pinned uniformRaster "AB" directSnap (frameAt 1)
            (init noParams) zeroHash halfHash2 noNoise keepTarget 1000 0
            drifting eq_refl eq_refl _ _).
  - intro E. vm_compute in E. discriminate E.
  - rewrite upload_uf.
    match goal with
    | |- context [Q2R ?q] =>
        replace q with 0.016%Q by (vm_compute; reflexivity)
    end.
    unfold Q2R, drifting. cbn [life_x Qnum Qden]. rlra.
Defined.

(** X9.  The kernel does not overwrite text targets.  After
    [setTextTarget] with a non-empty text for group 0 without a background
    pattern, and a tick that does not end in phase [Flow], the kernel's
    target resolution returns the stored target unchanged for every
    particle below the split uniform, whatever the pattern code computes. *)
Theorem X9_text_targets_untouched
    (raster : string -> Options -> Z -> list Z)
    (text : string) (options : Options) (tk : Tick) (s : Engine)
    (buildGPUTargetSection : Z -> V3 R -> R -> Z -> Z -> V3 R)
    (COUNT i : Z) (tgt : V3 R) :
  truthy text = true ->
  nullish (o_particleGroup options) 0%Z = 0%Z ->
  truthyOpt (o_backgroundPattern options) = false ->
  let s' := update tk (setTextTarget raster text options s) in
  phase (main s') <> Flow ->
  (i < ui (uniforms s') uGroupSplit)%Z ->
  resolveTarget buildGPUTargetSection (upload (uniforms s')) COUNT i tgt = tgt.
Proof.
  intros Ht Hg Hbg s' Hphase Hsplit. unfold s' in *.
  destruct (update_text_uniforms raster text options tk s Ht Hphase)
    as (_ & Hid & Hl & Hb & _).
  pose proof (eq_trans Hb (setTextTarget_no_background raster text options s
                               Ht Hg Hbg)) as Hb0.
  apply resolveTarget_plain; rewrite upload_ui; assumption.
Qed.

Lemma X9_text_targets_untouched_witness :
  let s' := update (frameAt 1)
              (setTextTarget uniformRaster "AB" directSnap (init noParams)) in
  resolveTarget toOrigin (upload (uniforms s')) 1000 0 (mkV3 1 2 3)
  = mkV3 1 2 3.
Proof.
  refine (X9_text_targets_untouched uniformRaster "AB" directSnap (frameAt 1)
            (init noParams) toOrigin 1000 0 (mkV3 1 2 3)
            eq_refl eq_refl eq_refl _ _).
  - intro E. vm_compute in E. discriminate E.
  - vm_compute. reflexivity.
Defined.

End KernelTextTargets.

(** ** CPU animators and GPU patterns *)

(** Every animated pattern has a GPU id. *)
Lemma animators_on_gpu p :
  (nullish (gpuPatternId p) 0 =? 0)%Z && hasKey p FLOW_PATTERN_ANIMATORS = false.
Proof.
  unfold gpuPatternId, hasKey, GPU_PATTERN_IDS, FLOW_PATTERN_ANIMATORS.
  cbn [lookup existsb].
  repeat match goal with
         | |- context [String.eqb p ?k] =>
             destruct (String.eqb p k); cbn; try reflexivity
         end.
Qed.

(** X10.  The throttled CPU animator never runs on the state that
    [setFlowTargets] leaves: every pattern with an entry in
    [FLOW_PATTERN_ANIMATORS] has a GPU id, so for every pattern name the
    animated-flow block of [update] changes nothing (no target write, no
    [lastAnimUpdate]) right after [setFlowTargets]. *)
Theorem X10_no_cpu_animation_after_setFlowTargets
    (pattern : string) (options : Options) (tk : Tick) (s : Engine) :
  animatedFlowStage tk (setFlowTargets pattern options s)
  = setFlowTargets pattern options s.
Proof.
  destruct (setFlowTargets_applies pattern options s) as (Hcur & Hid & _).
  cbv zeta in Hcur, Hid.
  unfold animatedFlowStage. rewrite Hcur, Hid.
  rewrite <- andb_assoc, animators_on_gpu, andb_false_r. reflexivity.
Qed.

(** ** Snapping to the targets *)

Lemma Qmin_Qeq_l x y m : x == y -> Qmin x m == Qmin y m.
Proof.
  intro H.
  destruct (Q.min_spec x m) as [[Hx' Hx] | [Hx' Hx]];
    destruct (Q.min_spec y m) as [[Hy' Hy] | [Hy' Hy]];
    rewrite Hx, Hy; qlra.
Qed.

Lemma advanceConvergence_settled up dn b :
  convergence b == targetConvergence b ->
  convergence (advanceConvergence up dn b)
  == (if Qltb (maxConvergence b) 1.0
      then Qmin (targetConvergence b) (maxConvergence b)
      else targetConvergence b).
Proof.
  intro H. unfold advanceConvergence. cbv zeta. cbn [convergence set_convergence].
  assert (Hc : convergence b
                 + (targetConvergence b - convergence b)
                   * (if Qltb (convergence b) (targetConvergence b)
                      then up else dn * releaseSpeed b)
               == targetConvergence b).
  { assert (Hz : targetConvergence b - convergence b == 0) by qlra.
    generalize (if Qltb (convergence b) (targetConvergence b)
                then up else dn * releaseSpeed b).
    intro speed. rewrite Hz, Qmult_0_l, Qplus_0_r. exact H. }
  destruct (Qltb (maxConvergence b) 1.0); [ | exact Hc ].
  apply Qmin_Qeq_l, Hc.
Qed.

Lemma snapToTargets_main s :
  main (snapToTargets s) = set_convergence (targetConvergence (main s)) (main s).
Proof. reflexivity. Qed.

Lemma snapToTargets_scales s :
  convUpScale (snapToTargets s) = convUpScale s
  /\ convDnScale (snapToTargets s) = convDnScale s.
Proof. split; reflexivity. Qed.

(** X11.  [snapToTargets] is stable under the next tick: after it, the
    following [update] leaves the main slot's convergence at the target
    convergence (capped by [maxConvergence] when that is below 1), whatever
    the convergence speeds and the frame are, and the convergence uniform
    carries that value. *)
Theorem X11_snap_is_stable (tk : Tick) (s : Engine) :
  let s' := update tk (snapToTargets s) in
  convergence (main s')
  == (if Qltb (maxConvergence (main s)) 1.0
      then Qmin (targetConvergence (main s)) (maxConvergence (main s))
      else targetConvergence (main s))
  /\ uf (uniforms s') uConvergence = convergence (main s').
Proof.
  intro s'. unfold s'. split.
  - rewrite (update_main_convergence tk (snapToTargets s)).
    rewrite snapToTargets_main.
    rewrite advanceConvergence_settled by reflexivity.
    reflexivity.
  - destruct (update_main_synced tk (snapToTargets s)) as (H & _). exact H.
Qed.

(** * The caller: lyric scheduling *)

(** ** The active lyric *)

Lemma getActiveFrom_spec p time rest :
  forall seen best bestTime,
    activeAt p time seen best ->
    bestTime = option_map (effectiveTime p) best ->
    activeAt p time (seen ++ rest) (getActiveFrom p time rest best bestTime).
Proof.
  induction rest as [ | lyric rest IH ]; intros seen best bestTime Hact Hbt.
  - rewrite app_nil_r. exact Hact.
  - cbn [getActiveFrom]. cbv zeta.
    replace (seen ++ lyric :: rest)%list with ((seen ++ [lyric]) ++ rest)%list
      by (rewrite <- app_assoc; reflexivity).
    destruct (Qle_bool (effectiveTime p lyric) time) eqn:Hle.
    + apply Qle_bool_iff in Hle.
      destruct best as [b | ]; cbn [option_map] in Hbt; subst bestTime;
        cbn [andb].
      * destruct (Qltb (effectiveTime p b) (effectiveTime p lyric)) eqn:Hlt.
        -- apply Qltb_true in Hlt. apply IH; [ | reflexivity ].
           destruct Hact as (before & after & Hseen & Hb & Hbefore & Hafter).
           exists seen, []. repeat split; try assumption; [ | constructor ].
           rewrite Hseen. apply Forall_app. split.
           ++ eapply Forall_impl; [ | exact Hbefore ].
              cbv beta. intros l Hl Hlt'. specialize (Hl Hlt'). qlra.
           ++ constructor; [ intros _; exact Hlt | ].
              eapply Forall_impl; [ | exact Hafter ].
              cbv beta. intros l Hl Hlt'. specialize (Hl Hlt'). qlra.
        -- apply Qltb_false in Hlt. apply IH; [ | reflexivity ].
           destruct Hact as (before & after & Hseen & Hb & Hbefore & Hafter).
           exists before, (after ++ [lyric])%list.
           repeat split; try assumption.
           ++ rewrite Hseen, <- app_assoc. reflexivity.
           ++ apply Forall_app. split; [ exact Hafter | ].
              constructor; [ intros _; exact Hlt | constructor ].
      * apply IH; [ | reflexivity ].
        exists seen, []. repeat split; try assumption; [ | constructor ].
        eapply Forall_impl; [ | exact Hact ].
        cbv beta. intros l Hl Hlt'. qlra.
    + cbn [andb]. apply IH; [ | exact Hbt ].
      assert (Hgt : time < effectiveTime p lyric).
      { apply Qnot_le_lt. intro H. apply Qle_bool_iff in H. congruence. }
      destruct best as [b | ].
      * destruct Hact as (before & after & Hseen & Hb & Hbefore & Hafter).
        exists before, (after ++ [lyric])%list.
        repeat split; try assumption.
        -- rewrite Hseen, <- app_assoc. reflexivity.
        -- apply Forall_app. split; [ exact Hafter | ].
           constructor; [ intro H; qlra | constructor ].
      * apply Forall_app. split; [ exact Hact | ].
        constructor; [ exact Hgt | constructor ].
Qed.

(** X12.  [_getActiveLyricAtTime] returns the lyric with the greatest
    effective fire time among those whose effective time is not after the
    given time, the first such lyric when several tie; it returns nothing
    exactly when every lyric's effective time is after the given time. *)
Theorem X12_active_lyric (time : Q) (p : Player) :
  activeAt p time (lyrics p) (getActiveLyricAtTime time p).
Proof.
  unfold getActiveLyricAtTime.
  apply (getActiveFrom_spec p time (lyrics p) [] None None);
    [ constructor | reflexivity ].
Qed.

(** ** One pass of [_processLyrics] *)

Lemma effectiveTime_frame p p' lyric :
  flowLookahead p' = flowLookahead p ->
  effectiveTime p' lyric = effectiveTime p lyric.
Proof. intro H. unfold effectiveTime. rewrite H. reflexivity. Qed.

Lemma dueFrom_frame p p' t rest :
  flowLookahead p' = flowLookahead p ->
  forall fired, dueFrom p' t rest fired = dueFrom p t rest fired.
Proof.
  intro H. induction rest as [ | lyric rest IH ]; intro fired;
    cbn [dueFrom]; [ reflexivity | ].
  rewrite (effectiveTime_frame p p' lyric H), !IH. reflexivity.
Qed.

Lemma run_app raster cs cs' s :
  run raster (cs ++ cs') s = run raster cs' (run raster cs s).
Proof. unfold run. apply fold_left_app. Qed.

Lemma setHas_add x y fired :
  setHas x (setAdd y fired) = (x =? y)%Z || setHas x fired.
Proof.
  unfold setAdd. destruct (setHas y fired) eqn:Hy.
  - destruct (Z.eqb_spec x y) as [-> | _]; [ rewrite Hy | ]; reflexivity.
  - unfold setHas. rewrite existsb_app. cbn [existsb].
    rewrite orb_false_r. apply orb_comm.
Qed.

Section PlayerProperties.

Variable raster : string -> Options -> Z -> list Z.

Lemma processFrom_frame t rest :
  forall p,
    lyrics (processFrom raster t rest p) = lyrics p
    /\ flowLookahead (processFrom raster t rest p) = flowLookahead p
    /\ lyricsEnabled (processFrom raster t rest p) = lyricsEnabled p
    /\ bdSeeking (processFrom raster t rest p) = bdSeeking p.
Proof.
  induction rest as [ | lyric rest IH ]; intro p; cbn [processFrom].
  - repeat split.
  - destruct (setHas (ly_index lyric) (firedLyricIndices p)); [ apply IH | ].
    destruct (Qle_bool (effectiveTime p lyric) t); [ | apply IH ].
    match goal with
    | |- context [processFrom raster t rest ?q] =>
        destruct (IH q) as (H1 & H2 & H3 & H4)
    end.
    rewrite H1, H2, H3, H4. repeat split.
Qed.

Lemma processFrom_engine t rest :
  forall p,
    engine (processFrom raster t rest p)
    = run raster (flat_map lyricCalls
                    (dueFrom p t rest (firedLyricIndices p)))
          (engine p).
Proof.
  induction rest as [ | lyric rest IH ]; intro p; cbn [processFrom dueFrom].
  - reflexivity.
  - destruct (setHas (ly_index lyric) (firedLyricIndices p)); [ apply IH | ].
    destruct (Qle_bool (effectiveTime p lyric) t); [ | apply IH ].
    rewrite IH. cbn [flat_map]. rewrite run_app.
    rewrite (dueFrom_frame p _ t rest) by reflexivity.
    reflexivity.
Qed.

Lemma processFrom_grows t rest x :
  forall p,
    setHas x (firedLyricIndices p) = true ->
    setHas x (firedLyricIndices (processFrom raster t rest p)) = true.
Proof.
  induction rest as [ | lyric rest IH ]; intros p H; cbn [processFrom].
  - exact H.
  - destruct (setHas (ly_index lyric) (firedLyricIndices p)); [ apply IH, H | ].
    destruct (Qle_bool (effectiveTime p lyric) t); [ | apply IH, H ].
    apply IH. cbn [firedLyricIndices set_engine set_fired].
    rewrite setHas_add, H. apply orb_true_r.
Qed.

Lemma processFrom_fires t rest :
  forall p lyric,
    In lyric rest ->
    effectiveTime p lyric <= t ->
    setHas (ly_index lyric)
           (firedLyricIndices (processFrom raster t rest p)) = true.
Proof.
  induction rest as [ | l rest IH ]; intros p lyric Hin Heff; [ destruct Hin | ].
  cbn [processFrom]. destruct Hin as [-> | Hin].
  - destruct (setHas (ly_index lyric) (firedLyricIndices p)) eqn:Hhas.
    + apply processFrom_grows, Hhas.
    + apply Qle_bool_iff in Heff. rewrite Heff.
      apply processFrom_grows. cbn [firedLyricIndices set_engine set_fired].
      rewrite setHas_add, Z.eqb_refl. reflexivity.
  - destruct (setHas (ly_index l) (firedLyricIndices p));
      [ apply IH; assumption | ].
    destruct (Qle_bool (effectiveTime p l) t); [ | apply IH; assumption ].
    apply IH; [ exact Hin | ].
    rewrite (effectiveTime_frame p) by reflexivity. exact Heff.
Qed.

Lemma processFrom_idle t rest p :
  Forall (fun lyric => effectiveTime p lyric <= t ->
                       setHas (ly_index lyric) (firedLyricIndices p) = true)
         rest ->
  processFrom raster t rest p = p.
Proof.
  induction 1 as [ | lyric rest Hl _ IH ]; cbn [processFrom]; [ reflexivity | ].
  destruct (setHas (ly_index lyric) (firedLyricIndices p)) eqn:Hhas;
    [ exact IH | ].
  destruct (Qle_bool (effectiveTime p lyric) t) eqn:Hle; [ | exact IH ].
  apply Qle_bool_iff in Hle. discriminate (Hl Hle).
Qed.

Lemma dueFrom_spec p t rest :
  forall fired,
    Forall (fun l => In l rest /\ setHas (ly_index l) fired = false
                     /\ effectiveTime p l <= t)
           (dueFrom p t rest fired).
Proof.
  induction rest as [ | lyric rest IH ]; intro fired; cbn [dueFrom].
  - constructor.
  - destruct (setHas (ly_index lyric) fired) eqn:Hhas.
    + eapply Forall_impl; [ | apply IH ]. cbv beta.
      intros l (H1 & H2 & H3). repeat split; try assumption. right. exact H1.
    + destruct (Qle_bool (effectiveTime p lyric) t) eqn:Hle.
      * constructor.
        -- repeat split; [ left; reflexivity | exact Hhas
                         | apply Qle_bool_iff, Hle ].
        -- eapply Forall_impl; [ | apply IH ]. cbv beta.
           intros l (H1 & H2 & H3). rewrite setHas_add in H2.
           apply orb_false_elim in H2 as [_ H2].
           repeat split; try assumption. right. exact H1.
      * eapply Forall_impl; [ | apply IH ]. cbv beta.
        intros l (H1 & H2 & H3). repeat split; try assumption. right. exact H1.
Qed.

Lemma dueFrom_fresh p t rest :
  forall fired x,
    setHas x fired = true ->
    ~ In x (map ly_index (dueFrom p t rest fired)).
Proof.
  induction rest as [ | lyric rest IH ]; intros fired x Hx; cbn [dueFrom].
  - intros [].
  - destruct (setHas (ly_index lyric) fired) eqn:Hhas; [ apply IH, Hx | ].
    destruct (Qle_bool (effectiveTime p lyric) t); [ | apply IH, Hx ].
    cbn [map]. intros [Heq | Hin].
    + rewrite <- Heq, Hhas in Hx. discriminate.
    + revert Hin. apply IH. rewrite setHas_add, Hx. apply orb_true_r.
Qed.

Lemma dueFrom_NoDup p t rest :
  forall fired, NoDup (map ly_index (dueFrom p t rest fired)).
Proof.
  induction rest as [ | lyric rest IH ]; intro fired; cbn [dueFrom].
  - constructor.
  - destruct (setHas (ly_index lyric) fired); [ apply IH | ].
    destruct (Qle_bool (effectiveTime p lyric) t); [ | apply IH ].
    cbn [map]. constructor; [ | apply IH ].
    apply dueFrom_fresh. rewrite setHas_add, Z.eqb_refl. reflexivity.
Qed.


End PlayerProperties.


(** ** Seeking *)

Lemma setHas_In x fired : setHas x fired = true <-> In x fired.
Proof.
  unfold setHas. rewrite existsb_exists. split.
  - intros (y & Hin & Heq). apply Z.eqb_eq in Heq. subst y. exact Hin.
  - intro Hin. exists x. split; [ exact Hin | apply Z.eqb_refl ].
Qed.

Lemma seekToTime_frame raster t p :
  lyrics (seekToTime raster t p) = lyrics p
  /\ flowLookahead (seekToTime raster t p) = flowLookahead p
  /\ firedLyricIndices (seekToTime raster t p)
     = map ly_index
         (filter (fun lyric => Qle_bool (ly_time lyric) (Qmax 0 t)) (lyrics p)).
Proof.
  unfold seekToTime. cbv zeta.
  destruct (getActiveLyricAtTime _ _); repeat split.
Qed.

(** X14.  A seek suppresses the past.  After [seekToTime(t)], the next
    pass of [_processLyrics], at whatever time, sends no lyric whose own
    time is at or before the seek position [max(0, t)]: only lyrics later
    than the seek position can still fire. *)
Theorem X14_seek_suppresses_past
    (raster : string -> Options -> Z -> list Z) (t t' : Q) (p : Player) :
  let p' := seekToTime raster t p in
  Forall (fun l => Qmax 0 t < ly_time l)
         (dueFrom p' t' (lyrics p') (firedLyricIndices p')).
Proof.
  intro p'. unfold p'.
  destruct (seekToTime_frame raster t p) as (Hl & _ & Hf).
  eapply Forall_impl; [ | apply dueFrom_spec ]. cbv beta.
  intros l (Hin & Hhas & _). rewrite Hl in Hin. rewrite Hf in Hhas.
  apply Qnot_le_lt. intro Hle. apply Qle_bool_iff in Hle.
  assert (Hfired : setHas (ly_index l)
                     (map ly_index
                        (filter (fun lyric => Qle_bool (ly_time lyric) (Qmax 0 t))
                                (lyrics p))) = true).
  { apply setHas_In, in_map, filter_In. split; [ exact Hin | exact Hle ]. }
  rewrite Hfired in Hhas. discriminate.
Qed.

(** ** Restoring a lyric *)

Lemma setTextTarget_currentText raster text options s :
  truthy text = true ->
  currentText (setTextTarget raster text options s) = text.
Proof.
  intro Ht. unfold setTextTarget, setupFormation, applyAllCharTargets.
  rewrite Ht. cbn [negb]. repeat case_if; reflexivity.
Qed.

Lemma setMode_text pattern options s :
  targetConvergence (main (setMode "text" pattern options s)) = 1.0
  /\ currentText (setMode "text" pattern options s) = currentText s.
Proof.
  unfold setMode.
  change (String.eqb "text" "text" || String.eqb "text" "forming") with true.
  change (negb (String.eqb "text" "text") && negb (String.eqb "text" "forming"))
    with false.
  cbv iota. split; reflexivity.
Qed.

Lemma snapToTargets_converged s :
  targetConvergence (main s) = 1.0 ->
  convergence (main (snapToTargets s)) = 1.0
  /\ targetConvergence (main (snapToTargets s)) = 1.0
  /\ uf (uniforms (snapToTargets s)) uConvergence = 1.0
  /\ currentText (snapToTargets s) = currentText s.
Proof.
  intro H. unfold snapToTargets.
  change (convergence (main (s |> onMain (set_convergence (targetConvergence (main s)))
                              |> setFloat uConvergence (targetConvergence (main s)))))
    with (targetConvergence (main s)).
  change (targetConvergence
            (main (s |> onMain (set_convergence (targetConvergence (main s)))
                     |> setFloat uConvergence (targetConvergence (main s)))))
    with (targetConvergence (main s)).
  change (uf (uniforms (s |> onMain (set_convergence (targetConvergence (main s)))
                          |> setFloat uConvergence (targetConvergence (main s))))
             uConvergence)
    with (targetConvergence (main s)).
  rewrite H. repeat split.
Qed.

Lemma text_mode_not_sculpture lyric :
  orElse (ly_mode lyric) "text" = "text" -> isSculpture lyric = false.
Proof.
  unfold orElse, isSculpture. destruct (ly_mode lyric) as [m | ];
    [ | reflexivity ].
  destruct (truthy m) eqn:Hm.
  - intros ->. reflexivity.
  - destruct m; [ reflexivity | discriminate ].
Qed.

Lemma reapplyLyric_engine raster lyric seekTime p :
  engine (reapplyLyric raster lyric seekTime p)
  = run raster (reapplyCalls lyric seekTime) (engine p).
Proof. reflexivity. Qed.

Lemma run_three raster text options mode pattern options' s :
  run raster [CallSetText text options; CallSetMode mode pattern options';
              CallSnapToTargets] s
  = snapToTargets (setMode mode pattern options'
                     (setTextTarget raster text options s)).
Proof. reflexivity. Qed.



(** ** Looping a range *)

Lemma setHas_delete x y fired :
  setHas x (setDelete y fired) = negb (x =? y)%Z && setHas x fired.
Proof.
  unfold setHas, setDelete. induction fired as [ | z fired IH ];
    cbn [filter existsb].
  - rewrite andb_false_r. reflexivity.
  - destruct (Z.eqb_spec y z) as [-> | Hyz]; cbn [negb existsb].
    + rewrite IH. destruct (Z.eqb_spec x z); cbn [negb andb orb]; reflexivity.
    + rewrite IH. destruct (Z.eqb_spec x z) as [-> | Hxz]; cbn [orb].
      * destruct (Z.eqb_spec z y); [ congruence | reflexivity ].
      * reflexivity.
Qed.

Lemma resetLoop_clears startTime endTime x ls :
  forall fired,
    setHas x
      (fold_left
         (fun fired lyric =>
            if Qle_bool startTime (ly_time lyric) && Qltb (ly_time lyric) endTime
            then setDelete (ly_index lyric) fired else fired)
         ls fired) = true ->
    setHas x fired = true
    /\ Forall (fun l => startTime <= ly_time l -> ly_time l < endTime ->
                        ly_index l <> x) ls.
Proof.
  induction ls as [ | lyric ls IH ]; intros fired H; cbn [fold_left] in H.
  - split; [ exact H | constructor ].
  - destruct (IH _ H) as [Hhas Hrest].
    destruct (Qle_bool startTime (ly_time lyric)) eqn:Hlo;
      [ destruct (Qltb (ly_time lyric) endTime) eqn:Hhi | ];
      cbn [andb] in Hhas.
    + rewrite setHas_delete in Hhas. apply andb_prop in Hhas as [Hne Hhas].
      split; [ exact Hhas | ]. constructor; [ | exact Hrest ].
      intros _ _ Heq. subst x. rewrite Z.eqb_refl in Hne. discriminate.
    + split; [ exact Hhas | ]. constructor; [ | exact Hrest ].
      intros _ Hlt. apply Qltb_true in Hlt. congruence.
    + split; [ exact Hhas | ]. constructor; [ | exact Hrest ].
      intros Hle. apply Qle_bool_iff in Hle. congruence.
Qed.

Lemma dueFrom_complete p t rest :
  forall fired l,
    NoDup (map ly_index rest) ->
    In l rest ->
    setHas (ly_index l) fired = false ->
    effectiveTime p l <= t ->
    In l (dueFrom p t rest fired).
Proof.
  induction rest as [ | l0 rest IH ]; intros fired l Hnd Hin Hhas Heff;
    [ destruct Hin | ].
  cbn [map] in Hnd. inversion Hnd as [ | ? ? Hnotin Hnd' ]; subst.
  cbn [dueFrom]. destruct Hin as [-> | Hin].
  - rewrite Hhas. apply Qle_bool_iff in Heff. rewrite Heff. left. reflexivity.
  - assert (Hne : ly_index l <> ly_index l0).
    { intro Heq. apply Hnotin. rewrite <- Heq. apply in_map, Hin. }
    destruct (setHas (ly_index l0) fired); [ apply IH; assumption | ].
    destruct (Qle_bool (effectiveTime p l0) t); [ | apply IH; assumption ].
    right. apply IH; try assumption.
    rewrite setHas_add, Hhas. apply Z.eqb_neq in Hne. rewrite Hne. reflexivity.
Qed.

Lemma loadLyricsFrom_indices data :
  forall index,
    Forall (fun l => (index <= ly_index l)%Z) (loadLyricsFrom index data)
    /\ NoDup (map ly_index (loadLyricsFrom index data)).
Proof.
  induction data as [ | lyric data IH ]; intro index; cbn [loadLyricsFrom map].
  - split; constructor.
  - destruct (IH (index + 1)%Z) as [Hge Hnd]. split.
    + constructor; [ cbn [ly_index]; lia | ].
      eapply Forall_impl; [ | exact Hge ]. cbv beta. intros l Hl. lia.
    + constructor; [ | exact Hnd ]. cbn [ly_index]. intro Hin.
      apply in_map_iff in Hin as (l & Hidx & Hl).
      rewrite Forall_forall in Hge. specialize (Hge l Hl). lia.
Qed.

(** X16.  Looping replays the range.  The loaded lyrics carry pairwise
    distinct indices; and on a player whose lyrics have distinct indices,
    after [_resetLyricsInRange(startTime, endTime)] the next pass of
    [_processLyrics] sends every lyric whose time lies in
    [[startTime, endTime)] and whose effective time has come, whether or
    not it had fired before. *)
Theorem X16_range_reset_replays
    (startTime endTime t : Q) (p : Player) (l : Lyric) :
  (forall data, NoDup (map ly_index (loadLyrics data)))
  /\ (NoDup (map ly_index (lyrics p)) ->
      In l (lyrics p) ->
      startTime <= ly_time l -> ly_time l < endTime ->
      effectiveTime p l <= t ->
      let p' := resetLyricsInRange startTime endTime p in
      In l (dueFrom p' t (lyrics p') (firedLyricIndices p'))).
Proof.
  split; [ intro data; apply loadLyricsFrom_indices | ].
  intros Hnd Hin Hlo Hhi Heff p'. unfold p', resetLyricsInRange.
  cbn [lyrics firedLyricIndices set_fired].
  rewrite (dueFrom_frame p) by reflexivity.
  apply dueFrom_complete; try assumption.
  match goal with
  | |- setHas ?x ?f = false => destruct (setHas x f) eqn:Hhas; [ | reflexivity ]
  end.
  destruct (resetLoop_clears _ _ _ _ _ Hhas) as [_ Hall].
  rewrite Forall_forall in Hall. exfalso.
  exact (Hall l Hin Hlo Hhi eq_refl).
Qed.

Lemma X16_range_reset_replays_witness :
  let p := resetLyricsFromTime 30 examplePlayer in
  let l := mkLyric 1 10 (Some "HELLO") None None None None None None directSnap in
  In l (dueFrom (resetLyricsInRange 5 15 p) 12
                (lyrics (resetLyricsInRange 5 15 p))
                (firedLyricIndices (resetLyricsInRange 5 15 p))).
Proof.
  intros p l.
  assert (H1 : NoDup (map ly_index (lyrics p)))
    by (apply (loadLyricsFrom_indices [flowLyric; helloLyric; worldLyric] 0)).
  assert (H2 : In l (lyrics p)) by (right; left; reflexivity).
  assert (H3 : 5 <= ly_time l) by (vm_compute; discriminate).
  assert (H4 : ly_time l < 15) by (vm_compute; reflexivity).
  assert (H5 : effectiveTime p l <= 12) by (vm_compute; discriminate).
  exact (proj2 (X16_range_reset_replays 5 15 12 p l) H1 H2 H3 H4 H5).
Defined.

(** * CPU generators *)

(** ** The Koch snowflake *)

Lemma koch_app x1 y1 x2 y2 depth :
  forall points,
    koch x1 y1 x2 y2 depth points
    = (points ++ koch x1 y1 x2 y2 depth [])%list.
Proof.
  revert x1 y1 x2 y2.
  induction depth as [ | depth IH ]; intros x1 y1 x2 y2 points.
  - reflexivity.
  - cbn [koch]. cbv zeta.
    repeat match goal with
           | |- context [koch ?a ?b ?c ?d depth ?P] =>
               lazymatch P with
               | [] => fail
               | _ => rewrite (IH a b c d P)
               end
           end.
    rewrite <- !app_assoc. reflexivity.
Qed.

Lemma chain_app a b c s1 s2 :
  chain a s1 b -> chain b s2 c -> chain a (s1 ++ s2) c.
Proof.
  revert a. induction s1 as [ | [[[x1 y1] x2] y2] s1 IH ]; intros a H1 H2.
  - cbn [chain] in H1. subst b. exact H2.
  - cbn [chain app] in *. destruct H1 as [Ha H1].
    split; [ exact Ha | apply IH; assumption ].
Qed.

Lemma koch_unfold x1 y1 x2 y2 depth :
  let dx := x2 - x1 in
  let dy := y2 - y1 in
  let ax := x1 + dx / 3 in
  let ay := y1 + dy / 3 in
  let bx := x1 + dx * 2 / 3 in
  let by' := y1 + dy * 2 / 3 in
  let px := (ax + bx) / 2 - (by' - ay) * 0.866 in
  let py := (ay + by') / 2 + (bx - ax) * 0.866 in
  koch x1 y1 x2 y2 (S depth) []
  = (koch x1 y1 ax ay depth [] ++ koch ax ay px py depth []
     ++ koch px py bx by' depth [] ++ koch bx by' x2 y2 depth [])%list.
Proof.
  intros dx dy ax ay bx by' px py. cbn [koch]. cbv zeta.
  fold dx dy. fold ax ay bx by'. fold px py.
  rewrite (koch_app bx by' x2 y2 depth).
  rewrite (koch_app px py bx by' depth).
  rewrite (koch_app ax ay px py depth).
  rewrite <- !app_assoc. reflexivity.
Qed.

Lemma koch_chain depth :
  forall x1 y1 x2 y2,
    chain (x1, y1) (koch x1 y1 x2 y2 depth []) (x2, y2)
    /\ length (koch x1 y1 x2 y2 depth []) = (4 ^ depth)%nat.
Proof.
  induction depth as [ | depth IH ]; intros x1 y1 x2 y2.
  - cbn [koch app chain length Nat.pow]. repeat split.
  - rewrite koch_unfold. cbv zeta.
    split.
    + repeat (eapply chain_app; [ apply IH | ]). apply IH.
    + rewrite !length_app, !(proj2 (IH _ _ _ _)). cbn [Nat.pow]. lia.
Qed.

(** X17.  The Koch recursion draws a connected curve.  For every depth and
    every pair of end points, [koch] pushes exactly [4 ^ depth] segments
    that run head to tail from the first end point to the second, after
    whatever [points] held before; and the snowflake of [kochCurve] is a
    closed curve of 768 segments that starts and ends in
    [(-1, -0.577)]. *)
Theorem X17_koch_curve_is_connected
    (x1 y1 x2 y2 : Q) (depth : nat) (points : list Segment) :
  (exists pushed,
      koch x1 y1 x2 y2 depth points = (points ++ pushed)%list
      /\ length pushed = (4 ^ depth)%nat
      /\ chain (x1, y1) pushed (x2, y2))
  /\ length kochPoints = 768%nat
  /\ chain (- (1.0), - (1.0) * 0.577) kochPoints (- (1.0), - (1.0) * 0.577).
Proof.
  split; [ | split ].
  - exists (koch x1 y1 x2 y2 depth []).
    split; [ apply koch_app | ].
    destruct (koch_chain depth x1 y1 x2 y2) as [Hc Hl]. split; assumption.
  - unfold kochPoints. cbv zeta.
    rewrite (koch_app 0), (koch_app 1.0), !length_app.
    rewrite !(proj2 (koch_chain 4 _ _ _ _)). reflexivity.
  - unfold kochPoints. cbv zeta.
    rewrite (koch_app 0), (koch_app 1.0).
    eapply chain_app; [ eapply chain_app | ]; apply koch_chain.
Qed.

(** ** The fractal tree *)

Lemma gen_length k :
  forall depth x y z angle angleZ len branches,
    (depth + S k = 8)%nat ->
    (Z.of_nat (length branches) + Z.of_nat (treeSize (S k)) <= 5001)%Z ->
    exists pushed,
      gen x y z angle angleZ len depth branches = (branches ++ pushed)%list
      /\ length pushed = treeSize (S k).
Proof.
  induction k as [ | k IH ];
    intros depth x y z angle angleZ len branches Hd Hcap.
  - rewrite gen_equation_1.
    assert (Hg : (7 <? depth)%nat || (5000 <? Z.of_nat (length branches))%Z
                 = false).
    { apply orb_false_intro; [ apply Nat.ltb_ge | apply Z.ltb_ge ];
        cbn [treeSize] in Hcap; lia. }
    rewrite Hg. cbn [gen_unfold_clause_1].
    destruct (Compare_dec.lt_dec depth 7) as [Hlt | Hge]; [ lia | ].
    cbn [gen_unfold_clause_1_clause_2].
    eexists. split; reflexivity.
  - rewrite gen_equation_1.
    assert (Hg : (7 <? depth)%nat || (5000 <? Z.of_nat (length branches))%Z
                 = false).
    { apply orb_false_intro; [ apply Nat.ltb_ge | apply Z.ltb_ge ];
        cbn [treeSize] in Hcap; lia. }
    rewrite Hg. cbn [gen_unfold_clause_1].
    destruct (Compare_dec.lt_dec depth 7) as [Hlt | Hge]; [ | lia ].
    cbn [gen_unfold_clause_1_clause_2]. cbv zeta.
    set (b1 := (branches ++ _)%list).
    change (treeSize (S (S k))) with (1 + 3 * treeSize (S k))%nat in *.
    assert (Hb1 : length b1 = (length branches + 1)%nat)
      by (unfold b1; rewrite length_app; reflexivity).
    match goal with
    | |- context [gen ?a ?b ?c ?d ?e ?f ?g b1] =>
        destruct (IH g a b c d e f b1) as (p1 & E1 & L1);
          [ lia | rewrite Hb1; lia | rewrite E1 ]
    end.
    match goal with
    | |- context [gen ?a ?b ?c ?d ?e ?f ?g (b1 ++ p1)%list] =>
        destruct (IH g a b c d e f (b1 ++ p1)%list) as (p2 & E2 & L2);
          [ lia | rewrite length_app, Hb1, L1; lia | rewrite E2 ]
    end.
    match goal with
    | |- context [gen ?a ?b ?c ?d ?e ?f ?g ((b1 ++ p1) ++ p2)%list] =>
        destruct (IH g a b c d e f ((b1 ++ p1) ++ p2)%list)
          as (p3 & E3 & L3);
          [ lia | rewrite !length_app, Hb1, L1, L2; lia | rewrite E3 ]
    end.
    unfold b1. eexists. split.
    + rewrite <- !app_assoc. reflexivity.
    + rewrite !length_app, L1, L2, L3. cbn [length]. lia.
Qed.

Lemma gen_stops x y z angle angleZ len depth branches :
  (7 < depth)%nat \/ (5000 < Z.of_nat (length branches))%Z ->
  gen x y z angle angleZ len depth branches = branches.
Proof.
  intro H. rewrite gen_equation_1.
  assert (Hg : (7 <? depth)%nat || (5000 <? Z.of_nat (length branches))%Z
               = true).
  { apply orb_true_iff. destruct H as [H | H];
      [ left; apply Nat.ltb_lt, H | right; apply Z.ltb_lt, H ]. }
  rewrite Hg. reflexivity.
Qed.

(** X18.  The fractal tree is complete.  A call of [gen] at a depth of at
    most 7 pushes the whole ternary subtree below it, [(3 ^ (8 - depth) -
    1) / 2] branches, after whatever [branches] held, as long as that
    leaves the array at no more than 5001 entries; a call beyond depth 7,
    or on an array of more than 5000 entries, pushes nothing.  The tree of
    [fractalTree] has exactly 3280 branches: its cap of 5000 is never
    reached. *)
Theorem X18_fractal_tree_is_complete
    (x y z angle angleZ len : R) (depth : nat) (branches : list Branch) :
  ((depth <= 7)%nat ->
   (Z.of_nat (length branches) + Z.of_nat (treeSize (8 - depth)) <= 5001)%Z ->
   exists pushed,
     gen x y z angle angleZ len depth branches = (branches ++ pushed)%list
     /\ length pushed = treeSize (8 - depth))
  /\ ((7 < depth)%nat \/ (5000 < Z.of_nat (length branches))%Z ->
      gen x y z angle angleZ len depth branches = branches)
  /\ length fractalTreeBranches = 3280%nat.
Proof.
  split; [ | split ].
  - intros Hd Hcap.
    destruct (8 - depth)%nat as [ | k ] eqn:Hk; [ lia | ].
    apply gen_length; [ lia | exact Hcap ].
  - apply gen_stops.
  - unfold fractalTreeBranches.
    destruct (gen_length 7 0 0 (-2) 0 0 (PI / 2) 1.0 [])%R
      as (pushed & E & L); [ reflexivity | vm_compute; discriminate | ].
    rewrite E, app_nil_l, L. reflexivity.
Qed.

Lemma X18_fractal_tree_is_complete_witness :
  exists pushed,
    gen 0 0 0 0 0 1 6 [] = ([] ++ pushed)%list
    /\ length pushed = treeSize (8 - 6).
Proof.
  assert (H1 : (6 <= 7)%nat) by lia.
  assert (H2 : (Z.of_nat (length (@nil Branch))
                + Z.of_nat (treeSize (8 - 6)) <= 5001)%Z)
    by (vm_compute; discriminate).
  exact (proj1 (X18_fractal_tree_is_complete 0 0 0 0 0 1 6 []) H1 H2).
Defined.

(** ** Layered lyrics *)

Lemma setFlowTargets_layerView pattern options s :
  layerView (setFlowTargets pattern options s) = layerView s.
Proof. unfold setFlowTargets. repeat case_if; reflexivity. Qed.

Lemma set_currentText_layerView text s :
  layerView (set_currentText text s) = layerView s.
Proof. reflexivity. Qed.

Lemma set_flowPatternIdx_layerView n s :
  layerView (set_flowPatternIdx n s) = layerView s.
Proof. reflexivity. Qed.

Lemma onMain_layerView f s : layerView (onMain f s) = layerView s.
Proof. reflexivity. Qed.

Lemma setMode_flow_layerView pattern options s :
  layerView (setMode "flow" pattern options s) = layerView s.
Proof.
  destruct (holdingText (phase (main s))) eqn:H.
  - rewrite (setMode_flow_deferred _ _ _ H). reflexivity.
  - rewrite (setMode_flow_immediate _ _ _ H). cbv zeta.
    rewrite set_currentText_layerView.
    destruct (truthyOpt pattern);
      rewrite ?set_flowPatternIdx_layerView, setFlowTargets_layerView,
        !onMain_layerView; reflexivity.
Qed.

Lemma layerView_effLayer s s' i :
  layerView s' = layerView s ->
  (1 < ui (uniforms s) uNumLayers)%Z ->
  Kernel.effLayer (Kernel.upload (uniforms s')) i
  = Kernel.effLayer (Kernel.upload (uniforms s)) i.
Proof.
  unfold layerView. intros Hv Hn.
  injection Hv as Hn' Hp0 Hp1 Hp2 Hp3 Ho0 Ho1 Ho2 Ho3 Hs0 Hs1 Hs2 Hs3.
  unfold Kernel.effLayer, Kernel.upload. cbn [ui uv uf].
  rewrite Hn', Hp0, Hp1, Hp2, Hp3, Ho0, Ho1, Ho2, Ho3, Hs0, Hs1, Hs2, Hs3.
  apply Z.ltb_lt in Hn. rewrite Hn. reflexivity.
Qed.

Lemma lyricCalls_layers lyric layers :
  ly_layers lyric = Some layers ->
  lyricCalls lyric
  = [CallSetFlowTargetsMultiLayer layers; CallSetMode "flow" None noOptions].
Proof. intro H. unfold lyricCalls. rewrite H. reflexivity. Qed.

Lemma run_two_layers raster layers s :
  run raster [CallSetFlowTargetsMultiLayer layers;
              CallSetMode "flow" None noOptions] s
  = setMode "flow" None noOptions (setFlowTargetsMultiLayer layers s).
Proof. reflexivity. Qed.



(** * GPU flow patterns *)

Section GPUPatternProperties.

Local Open Scope R_scope.
Import Kernel.

Lemma sphere_point_length sinP cosP theta r :
  sinP * sinP = 1 - cosP * cosP ->
  vlength (mkV3 (sinP * cos theta * r) (sinP * sin theta * r) (cosP * r))
  = Rabs r.
Proof.
  intro Hs. unfold vlength. cbn [vx vy vz].
  replace (sinP * cos theta * r * (sinP * cos theta * r)
           + sinP * sin theta * r * (sinP * sin theta * r)
           + cosP * r * (cosP * r))
    with (r * r * (sinP * sinP * (sin theta * sin theta + cos theta * cos theta)
                   + cosP * cosP)) by ring.
  pose proof (sin2_cos2 theta) as Hsc. unfold Rsqr in Hsc.
  rewrite Hsc, Hs.
  replace (r * r * ((1 - cosP * cosP) * 1 + cosP * cosP)) with (Rsqr r)
    by (unfold Rsqr; ring).
  apply sqrt_Rsqr_abs.
Qed.

Lemma fibSphere_length fi N r :
  0 <= fi <= N -> 0 < N -> vlength (fibSphere fi N r) = Rabs r.
Proof.
  intros [Hlo Hhi] HN. unfold fibSphere. cbv zeta.
  apply sphere_point_length.
  assert (Hq : 0 <= fi / N <= 1).
  { split.
    - apply Rmult_le_pos; [ exact Hlo | left; apply Rinv_0_lt_compat, HN ].
    - apply (Rmult_le_reg_r N); [ exact HN | ].
      unfold Rdiv. rewrite Rmult_assoc, Rinv_l by rlra. rlra. }
  rewrite sqrt_sqrt; [ reflexivity | ]. nra.
Qed.

Lemma breathing_radius time :
  0.7 <= 1.5 + sin (time * 1.5) * 0.8 <= 2.3.
Proof. pose proof (SIN_bound (time * 1.5)) as [H1 H2]. split; rlra. Qed.

Lemma vsub_vadd a b : vsub (vadd a b) b = a.
Proof.
  destruct a as [ax ay az]. unfold vsub, vadd. cbn [vx vy vz]. f_equal; ring.
Qed.

(** The target resolution of a single-layer engine without background
    pattern and without group-B pattern. *)
Lemma resolveTarget_single build u COUNT i tgt :
  (ui u uNumLayers <= 1)%Z ->
  ui u uBgPatternId = 0%Z ->
  ui u uGPUPatternIdB = 0%Z ->
  resolveTarget build u COUNT i tgt
  = if (0 <? ui u uGPUPatternId)%Z
    then vadd (vscale (build i tgt (uf u uTime) (ui u uGPUPatternId) COUNT)
                      (uf u uFlowScale))
              (uv u uFlowOrigin)
    else tgt.
Proof.
  intros Hl Hbg HB.
  unfold resolveTarget, effPatternId, effScale, effOrigin, isBgParticle,
    effLayer.
  cbv zeta. rewrite Hbg, HB.
  assert (Hn : (1 <? ui u uNumLayers)%Z = false) by (apply Z.ltb_ge, Hl).
  rewrite Hn. cbn [Z.ltb Z.compare andb fst snd].
  rewrite andb_false_r. reflexivity.
Qed.

Lemma setFlowTargets_uniforms pattern options s :
  ui (uniforms (setFlowTargets pattern options s)) uGPUPatternId
  = nullish (gpuPatternId pattern) 0%Z
  /\ ui (uniforms (setFlowTargets pattern options s)) uNumLayers
     = ui (uniforms s) uNumLayers
  /\ ui (uniforms (setFlowTargets pattern options s)) uBgPatternId = 0%Z
  /\ ui (uniforms (setFlowTargets pattern options s)) uGPUPatternIdB = 0%Z.
Proof.
  unfold setFlowTargets. repeat case_if; repeat split; reflexivity.
Qed.

Variable hash2 : R -> R -> R.

(** X20.  The breathing sphere.  After [setFlowTargets('breathingSphere')]
    on an engine in single-layer mode, the kernel resolves the target of
    every particle [0 <= i <= COUNT] to a point on the sphere around the
    flow origin whose radius is [|uFlowScale| * (1.5 + 0.8 sin (1.5 t))],
    [t] being the time uniform; the unscaled radius stays within
    [[0.7, 2.3]]. *)
Theorem X20_breathing_sphere
    (options : Options) (s : Engine) (COUNT i : Z) (tgt : V3 R) :
  (ui (uniforms s) uNumLayers <= 1)%Z ->
  (0 <= i <= COUNT)%Z ->
  (0 < COUNT)%Z ->
  let u := upload (uniforms (setFlowTargets "breathingSphere" options s)) in
  let r := 1.5 + sin (uf u uTime * 1.5) * 0.8 in
  vlength (vsub (resolveTarget (buildGPUTargetSection hash2) u COUNT i tgt)
                (uv u uFlowOrigin))
  = Rabs (uf u uFlowScale) * r
  /\ 0.7 <= r <= 2.3.
Proof.
  intros Hl Hi HN u r.
  destruct (setFlowTargets_uniforms "breathingSphere" options s)
    as (Hid & Hn & Hbg & HB).
  change (nullish (gpuPatternId "breathingSphere") 0%Z) with 5%Z in Hid.
  assert (Hu : ui u uGPUPatternId = 5%Z
               /\ (ui u uNumLayers <= 1)%Z
               /\ ui u uBgPatternId = 0%Z
               /\ ui u uGPUPatternIdB = 0%Z).
  { unfold u. rewrite !upload_ui, Hid, Hn, Hbg, HB. repeat split.
    exact Hl. }
  clearbody u. destruct Hu as (Hu5 & Hul & Hubg & HuB).
  split; [ | apply breathing_radius ].
  rewrite (resolveTarget_single _ u COUNT i tgt Hul Hubg HuB), Hu5.
  cbn [Z.ltb Z.compare]. rewrite vsub_vadd, vlength_scale.
  unfold buildGPUTargetSection. cbv zeta. cbn [Z.eqb Pos.eqb].
  unfold breathingSphere. cbv zeta.
  rewrite fibSphere_length.
  - fold r. rewrite (Rabs_pos_eq r); [ reflexivity | ].
    pose proof (breathing_radius (uf u uTime)). unfold r. rlra.
  - split; apply IZR_le; lia.
  - apply IZR_lt. exact HN.
Qed.

Lemma clamp_ring (n : Z) : clamp (IZR n) 0 7 = IZR (Z.min (Z.max n 0) 7).
Proof.
  unfold clamp.
  assert (Hmax : Rmax (IZR n) 0 = IZR (Z.max n 0)).
  { destruct (Z.max_spec n 0) as [[Hlt ->] | [Hle ->]].
    - apply Rmax_right. apply (IZR_le n 0). lia.
    - apply Rmax_left. apply (IZR_le 0 n). exact Hle. }
  rewrite Hmax.
  destruct (Z.min_spec (Z.max n 0) 7) as [[Hlt ->] | [Hle ->]].
  - apply Rmin_left. apply (IZR_le (Z.max n 0) 7). lia.
  - apply Rmin_right. apply (IZR_le 7 (Z.max n 0)). exact Hle.
Qed.

(** X21.  The orbiting rings.  For every particle index, particle count
    and time, pattern 4 puts the target on one of eight rings around the
    origin: there is an integer ring number [k] from 0 to 7, the integer
    part of [i / ceil(COUNT / 8)] clamped to that range, such that the
    distance of the target from the origin is [0.5 + 0.3 k]. *)
Theorem X21_orbiting_rings (i : Z) (tgt : V3 R) (time : R) (COUNT : Z) :
  exists k : Z,
    (0 <= k <= 7)%Z
    /\ k = Z.min (Z.max (Int_part (IZR i / ceilR (IZR COUNT / 8))) 0) 7
    /\ vlength (buildGPUTargetSection hash2 i tgt time 4 COUNT)
       = 0.5 + IZR k * 0.3.
Proof.
  unfold buildGPUTargetSection. cbv zeta. cbn [Z.eqb Pos.eqb].
  unfold orbiting. cbv zeta. unfold floorR.
  rewrite (clamp_ring (Int_part (IZR i / ceilR (IZR COUNT / 8)))).
  set (k := Z.min (Z.max (Int_part (IZR i / ceilR (IZR COUNT / 8))) 0) 7).
  assert (Hk : (0 <= k <= 7)%Z) by (unfold k; lia).
  exists k. split; [ exact Hk | ]. split; [ reflexivity | ].
  assert (Hr : 0 <= IZR k <= 7).
  { split; [ apply (IZR_le 0 k) | apply (IZR_le k 7) ]; lia. }
  set (r := IZR k) in *. clearbody r.
  set (angle := _ + time * _). set (tilt := r / 8 * _).
  unfold vlength. cbn [vx vy vz].
  replace (cos angle * (0.5 + r * 0.3) * (cos angle * (0.5 + r * 0.3))
           + sin angle * (0.5 + r * 0.3) * cos tilt
             * (sin angle * (0.5 + r * 0.3) * cos tilt)
           + sin angle * (0.5 + r * 0.3) * sin tilt
             * (sin angle * (0.5 + r * 0.3) * sin tilt))
    with ((0.5 + r * 0.3) * (0.5 + r * 0.3)
          * (cos angle * cos angle
             + sin angle * sin angle
               * (sin tilt * sin tilt + cos tilt * cos tilt))) by ring.
  pose proof (sin2_cos2 tilt) as Ht. pose proof (sin2_cos2 angle) as Ha.
  unfold Rsqr in Ht, Ha. rewrite Ht, Rmult_1_r, (Rplus_comm (cos angle * _)), Ha,
    Rmult_1_r.
  apply sqrt_square. rlra.
Qed.

(** X22.  The drain vortex.  For a particle index within [[0, COUNT]],
    pattern 8 puts the target at the horizontal distance
    [0.3 + 2.5 i / COUNT] from the vertical axis, between 0.3 and 2.8,
    and at a height between -1.3 and 1.3, whatever the time is. *)
Theorem X22_vortex_drain (i : Z) (tgt : V3 R) (time : R) (COUNT : Z) :
  (0 <= i <= COUNT)%Z ->
  (0 < COUNT)%Z ->
  let p := buildGPUTargetSection hash2 i tgt time 8 COUNT in
  let baseR := 0.3 + IZR i / IZR COUNT * 2.5 in
  sqrt (vx p * vx p + vz p * vz p) = baseR
  /\ 0.3 <= baseR <= 2.8
  /\ -1.3 <= vy p <= 1.3.
Proof.
  intros Hi HN p baseR.
  assert (Hq : 0 <= IZR i / IZR COUNT <= 1).
  { assert (HN' : 0 < IZR COUNT) by (apply IZR_lt; exact HN).
    assert (Hi0 : 0 <= IZR i) by (apply IZR_le; lia).
    assert (Hi1 : IZR i <= IZR COUNT) by (apply IZR_le; lia).
    split.
    - apply Rmult_le_pos; [ exact Hi0 | left; apply Rinv_0_lt_compat, HN' ].
    - apply (Rmult_le_reg_r (IZR COUNT)); [ exact HN' | ].
      unfold Rdiv. rewrite Rmult_assoc, Rinv_l by rlra. rlra. }
  assert (Hb : 0.3 <= baseR <= 2.8) by (unfold baseR; split; rlra).
  unfold p, buildGPUTargetSection. cbv zeta. cbn [Z.eqb Pos.eqb].
  unfold vortexDrain. cbv zeta. cbn [vx vy vz]. fold baseR.
  split; [ | split; [ exact Hb | ] ].
  - set (angle := _ + time * _).
    replace (cos angle * baseR * (cos angle * baseR)
             + sin angle * baseR * (sin angle * baseR))
      with (baseR * baseR * (sin angle * sin angle + cos angle * cos angle))
      by ring.
    pose proof (sin2_cos2 angle) as Ha. unfold Rsqr in Ha.
    rewrite Ha, Rmult_1_r. apply sqrt_square. rlra.
  - pose proof (SIN_bound (time * 0.5)) as [H1 H2]. split; rlra.
Qed.

(** X23.  Targets written on the CPU survive the kernel.  The pattern
    section leaves the target alone for every pattern id outside 1..13;
    and after [setFlowTargets] with a pattern that has no GPU id (the
    CPU generators), on an engine in single-layer mode, the kernel's
    target resolution returns the stored target of every particle
    unchanged. *)
Theorem X23_cpu_targets_survive
    (pattern : string) (options : Options) (s : Engine)
    (COUNT i patternId : Z) (tgt : V3 R) (time : R) :
  ((patternId < 1 \/ 13 < patternId)%Z ->
   buildGPUTargetSection hash2 i tgt time patternId COUNT = tgt)
  /\ (gpuPatternId pattern = None ->
      (ui (uniforms s) uNumLayers <= 1)%Z ->
      resolveTarget (buildGPUTargetSection hash2)
                    (upload (uniforms (setFlowTargets pattern options s)))
                    COUNT i tgt
      = tgt).
Proof.
  split.
  - intro H. unfold buildGPUTargetSection. cbv zeta.
    repeat match goal with
           | |- context [(patternId =? ?k)%Z] =>
               destruct (Z.eqb_spec patternId k); [ lia | ]
           end.
    reflexivity.
  - intros Hp Hl.
    destruct (setFlowTargets_uniforms pattern options s)
      as (Hid & Hn & Hbg & HB).
    rewrite Hp in Hid. cbn [nullish] in Hid.
    rewrite resolveTarget_single;
      rewrite ?upload_ui, ?Hid, ?Hn, ?Hbg, ?HB; try reflexivity.
    exact Hl.
Qed.

End GPUPatternProperties.

Lemma X20_breathing_sphere_witness :
  let u := Kernel.upload
             (uniforms (setFlowTargets "breathingSphere" noOptions
                          (init noParams))) in
  let r := (1.5 + sin (uf u uTime * 1.5) * 0.8)%R in
  Kernel.vlength
    (Kernel.vsub
       (Kernel.resolveTarget (buildGPUTargetSection halfHash2) u 1000 10
                             (mkV3 0%R 0%R 0%R))
       (uv u uFlowOrigin))
  = (Rabs (uf u uFlowScale) * r)%R
  /\ (0.7 <= r <= 2.3)%R.
Proof.
  assert (H1 : (ui (uniforms (init noParams)) uNumLayers <= 1)%Z)
    by (vm_compute; discriminate).
  assert (H2 : (0 <= 10 <= 1000)%Z) by lia.
  assert (H3 : (0 < 1000)%Z) by lia.
  exact (X20_breathing_sphere halfHash2 noOptions (init noParams) 1000 10
           (mkV3 0%R 0%R 0%R) H1 H2 H3).
Defined.

Lemma X22_vortex_drain_witness :
  let p := buildGPUTargetSection halfHash2 10 (mkV3 0%R 0%R 0%R) 2%R 8 1000 in
  (-1.3 <= vy p <= 1.3)%R.
Proof.
  assert (H1 : (0 <= 10 <= 1000)%Z) by lia.
  assert (H2 : (0 < 1000)%Z) by lia.
  exact (proj2 (proj2 (X22_vortex_drain halfHash2 10 (mkV3 0%R 0%R 0%R) 2%R
                         1000 H1 H2))).
Defined.

Lemma X23_cpu_targets_survive_witness :
  Kernel.resolveTarget (buildGPUTargetSection halfHash2)
    (Kernel.upload (uniforms (setFlowTargets "kochCurve" noOptions
                                (init noParams))))
    1000 10 (mkV3 1%R 2%R 3%R)
  = mkV3 1%R 2%R 3%R.
Proof.
  assert (H1 : gpuPatternId "kochCurve" = None) by reflexivity.
  assert (H2 : (ui (uniforms (init noParams)) uNumLayers <= 1)%Z)
    by (vm_compute; discriminate).
  exact (proj2 (X23_cpu_targets_survive halfHash2 "kochCurve" noOptions
                  (init noParams) 1000 10 0 (mkV3 1%R 2%R 3%R) 0%R) H1 H2).
Defined.

(** ** Sculpture lyrics *)

Lemma setMode_sculpture pattern options s :
  targetConvergence (main (setMode "sculpture" pattern options s)) = 0.0
  /\ currentText (setMode "sculpture" pattern options s) = ""
  /\ phase (main (setMode "sculpture" pattern options s)) = phase (main s).
Proof.
  unfold setMode.
  change (String.eqb "sculpture" "text" || String.eqb "sculpture" "forming")
    with false.
  change (String.eqb "sculpture" "flow") with false.
  change (negb (String.eqb "sculpture" "text")
          && negb (String.eqb "sculpture" "forming")) with true.
  cbv iota. repeat split.
Qed.

Lemma setShadowSculptureTarget_phase textA textB options s :
  truthy textA = true -> truthy textB = true ->
  phase (main (setShadowSculptureTarget textA textB options s)) = Text.
Proof.
  intros HA HB. unfold setShadowSculptureTarget. rewrite HA, HB.
  reflexivity.
Qed.

Lemma sculpture_mode lyric :
  isSculpture lyric = true ->
  ly_mode lyric = Some "sculpture" /\ truthyOpt (ly_textB lyric) = true.
Proof.
  unfold isSculpture. destruct (ly_mode lyric) as [m | ]; [ | discriminate ].
  intro H. apply andb_prop in H as [Hm HB].
  apply String.eqb_eq in Hm. subst m. split; [ reflexivity | exact HB ].
Qed.

Lemma run_snoc raster cs c s :
  run raster (cs ++ [c]) s = call raster c (run raster cs s).
Proof. rewrite run_app. reflexivity. Qed.

(** X24.  A sculpture lyric is sent with the target convergence 0.  The
    player sends a lyric in mode ['sculpture'] (with a second text, no
    layers) as [setShadowSculptureTarget] followed by
    [setMode('sculpture', ...)]; the second call takes the branch of the
    free modes, so the engine ends with the main slot's target
    convergence 0 and an empty current text; with a non-empty first text
    the main slot is in phase [Text]. *)
Theorem X24_sculpture_lyric_target
    (raster : string -> Options -> Z -> list Z) (lyric : Lyric) (s : Engine) :
  isSculpture lyric = true ->
  ly_layers lyric = None ->
  let e := run raster (lyricCalls lyric) s in
  targetConvergence (main e) = 0.0
  /\ currentText e = ""
  /\ (hasText lyric = true -> phase (main e) = Text).
Proof.
  intros Hsc Hlayers e. unfold e. clear e.
  destruct (sculpture_mode lyric Hsc) as [Hmode HB].
  assert (Hcalls :
    exists pre,
      lyricCalls lyric
      = ((pre ++ [CallSetShadowSculptureTarget (nullish (ly_text lyric) "")
                    (nullish (ly_textB lyric) "") (sculptureOptions lyric)])
         ++ [CallSetMode "sculpture" (ly_pattern lyric) (physicsOpts lyric)])%list).
  { unfold lyricCalls. rewrite Hlayers, Hsc, Hmode. cbn [orElse truthy].
    match goal with
    | |- exists pre, (?a ++ ?b ++ _ ++ _)%list = _ => exists (a ++ b)%list
    end.
    rewrite <- !app_assoc. reflexivity. }
  destruct Hcalls as (pre & Hcalls).
  rewrite Hcalls, !run_snoc.
  generalize (run raster pre s). intro s0.
  change (call raster (CallSetMode "sculpture" (ly_pattern lyric)
                         (physicsOpts lyric)) ?x)
    with (setMode "sculpture" (ly_pattern lyric) (physicsOpts lyric) x).
  destruct (setMode_sculpture (ly_pattern lyric) (physicsOpts lyric)
              (call raster
                 (CallSetShadowSculptureTarget (nullish (ly_text lyric) "")
                    (nullish (ly_textB lyric) "") (sculptureOptions lyric)) s0))
    as (H1 & H2 & H3).
  split; [ exact H1 | ]. split; [ exact H2 | ].
  intro Htext. rewrite H3.
  change (call raster (CallSetShadowSculptureTarget ?a ?b ?o) ?x)
    with (setShadowSculptureTarget a b o x).
  unfold hasText, truthyOpt in Htext, HB.
  destruct (ly_text lyric) as [tA | ]; [ | discriminate ].
  destruct (ly_textB lyric) as [tB | ]; [ | discriminate ].
  apply setShadowSculptureTarget_phase; assumption.
Qed.

Lemma X24_sculpture_lyric_target_witness :
  targetConvergence
    (main (run uniformRaster (lyricCalls sculptureLyric) (init noParams)))
  = 0.0.
Proof.
  assert (H1 : isSculpture sculptureLyric = true) by reflexivity.
  assert (H2 : ly_layers sculptureLyric = None) by reflexivity.
  destruct (X24_sculpture_lyric_target uniformRaster sculptureLyric
              (init noParams) H1 H2) as (H & _).
  exact H.
Defined.

(** ** Character slices of the main group *)

Lemma setTextTarget_main_chars raster text options s :
  truthy text = true ->
  (nullish (o_particleGroup options) 0 =? 1)%Z = false ->
  let s' := setTextTarget raster text options s in
  let groupCount := (splitPoint s' - 0)%Z in
  let nChars := Z.of_nat (String.length text) in
  charData (main s')
  = Some (assignSlices 0 groupCount (groupCount / nChars) nChars 0
            (raster text options (Z.min 30000 (groupCount / nChars)))).
Proof.
  intros Ht Hg. cbv zeta.
  unfold setTextTarget, setupFormation, applyAllCharTargets.
  rewrite Ht, Hg. cbn [negb].
  repeat case_if; reflexivity.
Qed.

Lemma splitConsistent_nonneg s :
  splitConsistent s -> (0 <= count s)%Z -> (0 <= splitPoint s)%Z.
Proof.
  intros [[H | H] _] Hc; rewrite H; [ exact Hc | apply Z.div_pos; lia ].
Qed.

(** X25.  The character records that [setTextTarget] builds for group 0
    tile the group's index range: on an engine whose split is consistent
    and whose particle count is not negative, when the rasteriser returns
    one entry per character of a non-empty text, the slices of the main
    slot start at 0, each begins where the previous one ends, none is
    negative, the last one ends at the split index in force after the
    call, and every record starts unrevealed. *)
Theorem X25_main_slices_tile
    (raster : string -> Options -> Z -> list Z)
    (text : string) (options : Options) (s : Engine) :
  truthy text = true ->
  (nullish (o_particleGroup options) 0 =? 1)%Z = false ->
  splitConsistent s ->
  (0 <= count s)%Z ->
  (forall o m, length (raster text o m) = String.length text) ->
  let s' := setTextTarget raster text options s in
  exists chars,
    charData (main s') = Some chars
    /\ tiles 0 (splitPoint s') chars
    /\ length chars = String.length text
    /\ Forall (fun cd => revealed cd = false) chars.
Proof.
  intros Htext Hgroup Hsplit Hcount Hraster s'. unfold s'. clear s'.
  pose proof (setTextTarget_main_chars raster text options s Htext Hgroup)
    as Hchars.
  cbv zeta in Hchars.
  assert (Hsp : (0 <= splitPoint (setTextTarget raster text options s))%Z).
  { apply splitConsistent_nonneg.
    - apply setTextTarget_consistent, Hsplit.
    - rewrite setTextTarget_count. exact Hcount. }
  revert Hchars Hsp.
  generalize (splitPoint (setTextTarget raster text options s)).
  generalize (charData (main (setTextTarget raster text options s))).
  intros cd sp Hchars Hsp. subst cd.
  rewrite Z.sub_0_r.
  set (nChars := Z.of_nat (String.length text)).
  set (sampled := raster text options (Z.min 30000 (sp / nChars))).
  exists (assignSlices 0 sp (sp / nChars) nChars 0 sampled).
  assert (Hlen : length sampled = String.length text) by apply Hraster.
  assert (Hpos : (0 < String.length text)%nat)
    by (destruct text; [ discriminate | cbn [String.length]; lia ]).
  split; [ reflexivity | ]. split; [ | split ].
  - assert (Hne : sampled <> []).
    { intro H. rewrite H in Hlen. cbn [length] in Hlen. lia. }
    assert (Hn : (0 + Z.of_nat (length sampled) = nChars)%Z)
      by (unfold nChars; rewrite Hlen; lia).
    pose proof (assignSlices_tiles 0 sp nChars sampled 0
                  (Z.le_refl 0) Hne Hn Hsp) as Htiles.
    rewrite Z.mul_0_l, !Z.add_0_l in Htiles. exact Htiles.
  - rewrite <- (length_map nPoints).
    rewrite (proj1 (assignSlices_points _ _ _ _ sampled 0%Z)). exact Hlen.
  - apply assignSlices_points.
Qed.

Lemma X25_main_slices_tile_witness :
  exists chars,
    charData (main (setTextTarget uniformRaster "AB" directSnap (init noParams)))
    = Some chars
    /\ tiles 0 (splitPoint (setTextTarget uniformRaster "AB" directSnap
                              (init noParams))) chars.
Proof.
  assert (H1 : truthy "AB" = true) by reflexivity.
  assert (H2 : (nullish (o_particleGroup directSnap) 0 =? 1)%Z = false)
    by reflexivity.
  assert (H3 : splitConsistent (init noParams)) by apply init_consistent.
  assert (H4 : (0 <= count (init noParams))%Z) by (vm_compute; discriminate).
  assert (H5 : forall o m, length (uniformRaster "AB" o m) = String.length "AB")
    by (intros; reflexivity).
  destruct (X25_main_slices_tile uniformRaster "AB" directSnap (init noParams)
              H1 H2 H3 H4 H5) as (chars & Hc & Ht & _).
  exists chars. split; [ exact Hc | exact Ht ].
Defined.
